(** * bnard_ball: locomotion, ramp constraint solver, gate detector, flight model

    A shallow embedding of the per-tick core of the game (Player, the four
    mode controllers, PlayerPhysics, PlayerInput, RampL, World), of the
    follow camera with its modes, of the velocity trail of PlayerVisuals and
    of the underwater effect of Renderer, with the properties the
    specification states about them and further properties of the code.

    Numbers.  JavaScript numbers are IEEE-754 doubles.  They are modelled by
    the real numbers of the Standard Library: rounding, overflow, NaN and the
    sign of zero are not represented, and [Math.sqrt], [Math.exp],
    [Math.atan2] are the real functions.  Every statement below is therefore
    about the exact arithmetic the code approximates.

    Objects.  Each JavaScript class becomes a record of the fields the
    modelled methods touch and a module of its name with one definition per
    method.  The rigid body is owned by the physics engine; the code only
    holds a handle, so the body is a value stored in [PlayerVariables.body]
    and every engine call on it is a [BodyCall].

    Effects.  Methods that touch the player run in the monad [Act S]: state
    of type [S], an uncaught [TypeError] (a property read on [null]) as
    [None], and a trace of the observable events of the run: engine calls on
    the player body, tagged with the class that makes them, the mode
    controller the player dispatches to, and the gate and ramp messages
    written to the console.  Methods that change only their own object (the
    camera modes, the trail, the renderer) are functions on its record.
    Other purely visual side effects (materials, animations, helper arrows,
    HUD) are left out. *)

From Stdlib Require Import Reals Lra Lia List Bool Psatz.
From Stdlib Require String.
Import ListNotations.
Open Scope R_scope.

(* ====================================================================== *)
(** * JavaScript's [Math] and comparison operators *)
(* ====================================================================== *)

Module JsMath.

(** [x <= y] and [x < y] as JavaScript booleans. *)
Definition leb (x y : R) : bool := if Rle_dec x y then true else false.
Definition ltb (x y : R) : bool := if Rlt_dec x y then true else false.

Definition max (x y : R) : R := Rmax x y.
Definition min (x y : R) : R := Rmin x y.
Definition abs (x : R) : R := Rabs x.

(** [Math.sign]: 1, -1 or 0. *)
Definition sign (x : R) : R :=
  if Rlt_dec 0 x then 1 else if Rlt_dec x 0 then -1 else 0.

(** [Math.atan2 (y, x)], the angle of the point [(x, y)] in (-pi, pi]. *)
Definition atan2 (y x : R) : R :=
  if Rlt_dec 0 x then atan (y / x)
  else if Rlt_dec x 0 then
         (if Rle_dec 0 y then atan (y / x) + PI else atan (y / x) - PI)
  else if Rlt_dec 0 y then PI / 2
  else if Rlt_dec y 0 then - (PI / 2)
  else 0.

(** [a || b] on numbers: [a] unless it is falsy (zero). *)
Definition orElse (a b : R) : R := if Req_dec_T a 0 then b else a.

End JsMath.

(* ====================================================================== *)
(** * The parts of three.js the modelled code calls *)
(* ====================================================================== *)

Module THREE.

Record Vector3 : Type := Vec3 { _x : R; _y : R; _z : R }.

Record Quaternion : Type := Quat { qx : R; qy : R; qz : R; qw : R }.

Definition zero : Vector3 := Vec3 0 0 0.

Definition add (a b : Vector3) : Vector3 :=
  Vec3 (a.(_x) + b.(_x)) (a.(_y) + b.(_y)) (a.(_z) + b.(_z)).

Definition multiplyScalar (a : Vector3) (s : R) : Vector3 :=
  Vec3 (a.(_x) * s) (a.(_y) * s) (a.(_z) * s).

Definition dot (a b : Vector3) : R :=
  a.(_x) * b.(_x) + a.(_y) * b.(_y) + a.(_z) * b.(_z).

Definition crossVectors (a b : Vector3) : Vector3 :=
  Vec3 (a.(_y) * b.(_z) - a.(_z) * b.(_y))
       (a.(_z) * b.(_x) - a.(_x) * b.(_z))
       (a.(_x) * b.(_y) - a.(_y) * b.(_x)).

Definition lengthSq (a : Vector3) : R := dot a a.

Definition length (a : Vector3) : R := sqrt (lengthSq a).

(** [normalize] divides by [length () || 1]. *)
Definition normalize (a : Vector3) : Vector3 :=
  multiplyScalar a (1 / JsMath.orElse (length a) 1).

(** [MathUtils.clamp (value, min, max)]. *)
Definition clamp (value lo hi : R) : R :=
  JsMath.max lo (JsMath.min hi value).

(** [MathUtils.degToRad]. *)
Definition degToRad (degrees : R) : R := degrees * (PI / 180).

(** [Quaternion.setFromAxisAngle]; the axis is assumed normalized. *)
Definition setFromAxisAngle (axis : Vector3) (angle : R) : Quaternion :=
  let halfAngle := angle / 2 in
  let s := sin halfAngle in
  Quat (axis.(_x) * s) (axis.(_y) * s) (axis.(_z) * s) (cos halfAngle).

(** [Vector3.applyQuaternion]: v + w t + q x t with t = 2 (q x v). *)
Definition applyQuaternion (v : Vector3) (q : Quaternion) : Vector3 :=
  let tx := 2 * (q.(qy) * v.(_z) - q.(qz) * v.(_y)) in
  let ty := 2 * (q.(qz) * v.(_x) - q.(qx) * v.(_z)) in
  let tz := 2 * (q.(qx) * v.(_y) - q.(qy) * v.(_x)) in
  Vec3 (v.(_x) + q.(qw) * tx + q.(qy) * tz - q.(qz) * ty)
       (v.(_y) + q.(qw) * ty + q.(qz) * tx - q.(qx) * tz)
       (v.(_z) + q.(qw) * tz + q.(qx) * ty - q.(qy) * tx).

(** [Quaternion.setFromEuler] for the rotation order 'YXZ', which is what
    [rotation.set (x, y, z, 'YXZ')] leaves in an object's quaternion. *)
Definition setFromEulerYXZ (x y z : R) : Quaternion :=
  let c1 := cos (x / 2) in let c2 := cos (y / 2) in let c3 := cos (z / 2) in
  let s1 := sin (x / 2) in let s2 := sin (y / 2) in let s3 := sin (z / 2) in
  Quat (s1 * c2 * c3 + c1 * s2 * s3)
       (c1 * s2 * c3 - s1 * c2 * s3)
       (c1 * c2 * s3 - s1 * s2 * c3)
       (c1 * c2 * c3 + s1 * s2 * s3).

End THREE.

Import THREE.

(* ====================================================================== *)
(** * The physics engine's rigid body (Rapier), as far as it is called *)
(* ====================================================================== *)

Module Rapier.

Record RigidBody : Type := mkBody {
  translation  : Vector3;
  rotation     : Quaternion;
  linvel       : Vector3;
  angvel       : Vector3;
  gravityScale : R;
  mass         : R;
  (** principal angular inertia of the ball collider *)
  inertia      : R
}.

(** The mutating calls the code makes on the player body. *)
Inductive BodyCall : Type :=
| setTranslation (v : Vector3)
| setRotation (q : Quaternion)
| setLinvel (v : Vector3)
| setAngvel (v : Vector3)
| setGravityScale (s : R)
| applyImpulse (j : Vector3)
| applyTorqueImpulse (j : Vector3).

(** What a call does to the body.  An impulse changes the linear velocity
    by [j / mass], a torque impulse the angular velocity by [j / inertia]. *)
Definition perform (c : BodyCall) (b : RigidBody) : RigidBody :=
  match c with
  | setTranslation v =>
      mkBody v b.(rotation) b.(linvel) b.(angvel) b.(gravityScale) b.(mass) b.(inertia)
  | setRotation q =>
      mkBody b.(translation) q b.(linvel) b.(angvel) b.(gravityScale) b.(mass) b.(inertia)
  | setLinvel v =>
      mkBody b.(translation) b.(rotation) v b.(angvel) b.(gravityScale) b.(mass) b.(inertia)
  | setAngvel v =>
      mkBody b.(translation) b.(rotation) b.(linvel) v b.(gravityScale) b.(mass) b.(inertia)
  | setGravityScale s =>
      mkBody b.(translation) b.(rotation) b.(linvel) b.(angvel) s b.(mass) b.(inertia)
  | applyImpulse j =>
      mkBody b.(translation) b.(rotation)
             (add b.(linvel) (multiplyScalar j (1 / b.(mass))))
             b.(angvel) b.(gravityScale) b.(mass) b.(inertia)
  | applyTorqueImpulse j =>
      mkBody b.(translation) b.(rotation) b.(linvel)
             (add b.(angvel) (multiplyScalar j (1 / b.(inertia))))
             b.(gravityScale) b.(mass) b.(inertia)
  end.

(** Which parts of the body a call writes. *)
Definition writesTransform (c : BodyCall) : bool :=
  match c with
  | setTranslation _ | setRotation _ => true
  | _ => false
  end.

Definition writesVelocity (c : BodyCall) : bool :=
  match c with
  | setLinvel _ | setAngvel _ | applyImpulse _ | applyTorqueImpulse _ => true
  | _ => false
  end.

End Rapier.

Import Rapier.

(* ====================================================================== *)
(** * Observable events and the monad the methods run in *)
(* ====================================================================== *)

(** The classes that touch the player body. *)
Inductive Component : Type :=
| ByOceanMode | ByFlightMode | ByGroundMode | ByAirMode
| ByPlayerPhysics | ByRampL.

Inductive Direction : Type := Forward | Backward.

Inductive Event : Type :=
(** [Player.update] called the [update] of this mode controller *)
| Run (m : Component)
(** a mutating engine call on the player body, made by [who] *)
| BodyWrite (who : Component) (c : BodyCall)
(** the console message '=== GATE CROSSED ===' with its direction *)
| GateCrossed (d : Direction)
(** the console message 'Entered ramp mode:' of [enterRampMode] *)
| EnteredRampMode
(** the console message 'Exited ramp mode, entering ballistic:' *)
| ExitedRampMode (exitVelocity : Vector3).

Definition Trace : Type := list Event.

(** State, failure ([None]: an uncaught TypeError) and a trace. *)
Definition Act (S A : Type) : Type := S -> option (A * S * Trace).

Definition ret {S A : Type} (a : A) : Act S A :=
  fun s => Some (a, s, []).

Definition bind {S A B : Type} (m : Act S A) (k : A -> Act S B) : Act S B :=
  fun s =>
    match m s with
    | None => None
    | Some (a, s1, t1) =>
        match k a s1 with
        | None => None
        | Some (b, s2, t2) => Some (b, s2, t1 ++ t2)
        end
    end.

Definition get {S : Type} : Act S S := fun s => Some (s, s, []).

Definition modify {S : Type} (f : S -> S) : Act S unit :=
  fun s => Some (tt, f s, []).

Definition emit {S : Type} (e : Event) : Act S unit :=
  fun s => Some (tt, s, [e]).

Definition throwTypeError {S A : Type} : Act S A := fun _ => None.

Definition when {S : Type} (c : bool) (m : Act S unit) : Act S unit :=
  if c then m else ret tt.

Declare Scope act_scope.
Delimit Scope act_scope with act.
Notation "x <- m ;; k" := (bind m (fun x => k))
  (at level 61, m at next level, right associativity) : act_scope.
Notation "m ;; k" := (bind m (fun _ => k))
  (at level 61, right associativity) : act_scope.
Open Scope act_scope.

(** Run an action of a component of the state inside the whole state. *)
Definition zoom {S T A : Type} (proj : S -> T) (upd : T -> S -> S)
    (m : Act T A) : Act S A :=
  fun s =>
    match m (proj s) with
    | None => None
    | Some (a, t', tr) => Some (a, upd t' s, tr)
    end.

(** The trace of a run, and its final state. *)
Definition traceOf {S A : Type} (r : option (A * S * Trace)) : Trace :=
  match r with Some (_, _, t) => t | None => [] end.

Definition stateOf {S A : Type} (r : option (A * S * Trace)) : option S :=
  match r with Some (_, s, _) => Some s | None => None end.

(* ====================================================================== *)
(** * Data: the fields of the modelled classes *)
(* ====================================================================== *)

(** [PlayerVariables.keys]. *)
Record Keys : Type := mkKeys {
  key_w : bool; key_s : bool; key_a : bool; key_d : bool; key_space : bool
}.

(** [PlayerVariables]: the bag of player state shared by [Player] and its
    mode controllers (they all hold the same object). *)
Record PlayerVariables : Type := mkPlayerVariables {
  radius : R;
  (** the engine's body handle, [null] until [createBody] *)
  body : option RigidBody;
  (** whether the collider handle is set *)
  collider : bool;
  lastVelocity : Vector3;
  torqueStrength : R;
  density : R;
  keys : Keys;
  isFlying : bool;
  hasLoggedVelocity : bool;
  velocityInitial : Vector3;
  flightTransitionStartTime : R;
  isGrounded : bool;
  airControlStrength : R;
  currentPitch : R;
  currentRoll : R;
  currentYaw : R;
  targetPitch : R;
  targetRoll : R;
  pitchSpeed : R;
  rollSpeed : R;
  maxPitch : R;
  maxRoll : R
}.

Definition set_body (v : option RigidBody) (s : PlayerVariables) : PlayerVariables :=
  mkPlayerVariables s.(radius) v s.(collider) s.(lastVelocity)
    s.(torqueStrength) s.(density) s.(keys) s.(isFlying)
    s.(hasLoggedVelocity) s.(velocityInitial) s.(flightTransitionStartTime)
    s.(isGrounded) s.(airControlStrength) s.(currentPitch) s.(currentRoll)
    s.(currentYaw) s.(targetPitch) s.(targetRoll) s.(pitchSpeed)
    s.(rollSpeed) s.(maxPitch) s.(maxRoll).
Definition set_collider (v : bool) (s : PlayerVariables) : PlayerVariables :=
  mkPlayerVariables s.(radius) s.(body) v s.(lastVelocity) s.(torqueStrength)
    s.(density) s.(keys) s.(isFlying) s.(hasLoggedVelocity)
    s.(velocityInitial) s.(flightTransitionStartTime) s.(isGrounded)
    s.(airControlStrength) s.(currentPitch) s.(currentRoll) s.(currentYaw)
    s.(targetPitch) s.(targetRoll) s.(pitchSpeed) s.(rollSpeed) s.(maxPitch)
    s.(maxRoll).
Definition set_lastVelocity (v : Vector3) (s : PlayerVariables) : PlayerVariables :=
  mkPlayerVariables s.(radius) s.(body) s.(collider) v s.(torqueStrength)
    s.(density) s.(keys) s.(isFlying) s.(hasLoggedVelocity)
    s.(velocityInitial) s.(flightTransitionStartTime) s.(isGrounded)
    s.(airControlStrength) s.(currentPitch) s.(currentRoll) s.(currentYaw)
    s.(targetPitch) s.(targetRoll) s.(pitchSpeed) s.(rollSpeed) s.(maxPitch)
    s.(maxRoll).
Definition set_keys (v : Keys) (s : PlayerVariables) : PlayerVariables :=
  mkPlayerVariables s.(radius) s.(body) s.(collider) s.(lastVelocity)
    s.(torqueStrength) s.(density) v s.(isFlying) s.(hasLoggedVelocity)
    s.(velocityInitial) s.(flightTransitionStartTime) s.(isGrounded)
    s.(airControlStrength) s.(currentPitch) s.(currentRoll) s.(currentYaw)
    s.(targetPitch) s.(targetRoll) s.(pitchSpeed) s.(rollSpeed) s.(maxPitch)
    s.(maxRoll).
Definition set_isFlying (v : bool) (s : PlayerVariables) : PlayerVariables :=
  mkPlayerVariables s.(radius) s.(body) s.(collider) s.(lastVelocity)
    s.(torqueStrength) s.(density) s.(keys) v s.(hasLoggedVelocity)
    s.(velocityInitial) s.(flightTransitionStartTime) s.(isGrounded)
    s.(airControlStrength) s.(currentPitch) s.(currentRoll) s.(currentYaw)
    s.(targetPitch) s.(targetRoll) s.(pitchSpeed) s.(rollSpeed) s.(maxPitch)
    s.(maxRoll).
Definition set_hasLoggedVelocity (v : bool) (s : PlayerVariables) : PlayerVariables :=
  mkPlayerVariables s.(radius) s.(body) s.(collider) s.(lastVelocity)
    s.(torqueStrength) s.(density) s.(keys) s.(isFlying) v
    s.(velocityInitial) s.(flightTransitionStartTime) s.(isGrounded)
    s.(airControlStrength) s.(currentPitch) s.(currentRoll) s.(currentYaw)
    s.(targetPitch) s.(targetRoll) s.(pitchSpeed) s.(rollSpeed) s.(maxPitch)
    s.(maxRoll).
Definition set_velocityInitial (v : Vector3) (s : PlayerVariables) : PlayerVariables :=
  mkPlayerVariables s.(radius) s.(body) s.(collider) s.(lastVelocity)
    s.(torqueStrength) s.(density) s.(keys) s.(isFlying)
    s.(hasLoggedVelocity) v s.(flightTransitionStartTime) s.(isGrounded)
    s.(airControlStrength) s.(currentPitch) s.(currentRoll) s.(currentYaw)
    s.(targetPitch) s.(targetRoll) s.(pitchSpeed) s.(rollSpeed) s.(maxPitch)
    s.(maxRoll).
Definition set_flightTransitionStartTime (v : R) (s : PlayerVariables) : PlayerVariables :=
  mkPlayerVariables s.(radius) s.(body) s.(collider) s.(lastVelocity)
    s.(torqueStrength) s.(density) s.(keys) s.(isFlying)
    s.(hasLoggedVelocity) s.(velocityInitial) v s.(isGrounded)
    s.(airControlStrength) s.(currentPitch) s.(currentRoll) s.(currentYaw)
    s.(targetPitch) s.(targetRoll) s.(pitchSpeed) s.(rollSpeed) s.(maxPitch)
    s.(maxRoll).
Definition set_isGrounded (v : bool) (s : PlayerVariables) : PlayerVariables :=
  mkPlayerVariables s.(radius) s.(body) s.(collider) s.(lastVelocity)
    s.(torqueStrength) s.(density) s.(keys) s.(isFlying)
    s.(hasLoggedVelocity) s.(velocityInitial) s.(flightTransitionStartTime) v
    s.(airControlStrength) s.(currentPitch) s.(currentRoll) s.(currentYaw)
    s.(targetPitch) s.(targetRoll) s.(pitchSpeed) s.(rollSpeed) s.(maxPitch)
    s.(maxRoll).
Definition set_currentPitch (v : R) (s : PlayerVariables) : PlayerVariables :=
  mkPlayerVariables s.(radius) s.(body) s.(collider) s.(lastVelocity)
    s.(torqueStrength) s.(density) s.(keys) s.(isFlying)
    s.(hasLoggedVelocity) s.(velocityInitial) s.(flightTransitionStartTime)
    s.(isGrounded) s.(airControlStrength) v s.(currentRoll) s.(currentYaw)
    s.(targetPitch) s.(targetRoll) s.(pitchSpeed) s.(rollSpeed) s.(maxPitch)
    s.(maxRoll).
Definition set_currentRoll (v : R) (s : PlayerVariables) : PlayerVariables :=
  mkPlayerVariables s.(radius) s.(body) s.(collider) s.(lastVelocity)
    s.(torqueStrength) s.(density) s.(keys) s.(isFlying)
    s.(hasLoggedVelocity) s.(velocityInitial) s.(flightTransitionStartTime)
    s.(isGrounded) s.(airControlStrength) s.(currentPitch) v s.(currentYaw)
    s.(targetPitch) s.(targetRoll) s.(pitchSpeed) s.(rollSpeed) s.(maxPitch)
    s.(maxRoll).
Definition set_currentYaw (v : R) (s : PlayerVariables) : PlayerVariables :=
  mkPlayerVariables s.(radius) s.(body) s.(collider) s.(lastVelocity)
    s.(torqueStrength) s.(density) s.(keys) s.(isFlying)
    s.(hasLoggedVelocity) s.(velocityInitial) s.(flightTransitionStartTime)
    s.(isGrounded) s.(airControlStrength) s.(currentPitch) s.(currentRoll) v
    s.(targetPitch) s.(targetRoll) s.(pitchSpeed) s.(rollSpeed) s.(maxPitch)
    s.(maxRoll).
Definition set_targetPitch (v : R) (s : PlayerVariables) : PlayerVariables :=
  mkPlayerVariables s.(radius) s.(body) s.(collider) s.(lastVelocity)
    s.(torqueStrength) s.(density) s.(keys) s.(isFlying)
    s.(hasLoggedVelocity) s.(velocityInitial) s.(flightTransitionStartTime)
    s.(isGrounded) s.(airControlStrength) s.(currentPitch) s.(currentRoll)
    s.(currentYaw) v s.(targetRoll) s.(pitchSpeed) s.(rollSpeed) s.(maxPitch)
    s.(maxRoll).
Definition set_targetRoll (v : R) (s : PlayerVariables) : PlayerVariables :=
  mkPlayerVariables s.(radius) s.(body) s.(collider) s.(lastVelocity)
    s.(torqueStrength) s.(density) s.(keys) s.(isFlying)
    s.(hasLoggedVelocity) s.(velocityInitial) s.(flightTransitionStartTime)
    s.(isGrounded) s.(airControlStrength) s.(currentPitch) s.(currentRoll)
    s.(currentYaw) s.(targetPitch) v s.(pitchSpeed) s.(rollSpeed)
    s.(maxPitch) s.(maxRoll).

(** The fields of [OceanMode]. *)
Record OceanMode : Type := mkOceanMode {
  seaLevel      : R;
  (** must be this far above sea level to leave ocean mode *)
  exitThreshold : R;
  isActive      : bool;
  waterDrag     : R;
  waterBuoyancy : R
}.

Definition set_isActive (v : bool) (o : OceanMode) : OceanMode :=
  mkOceanMode o.(seaLevel) o.(exitThreshold) v o.(waterDrag) o.(waterBuoyancy).

(** [Player], with the objects it owns that the modelled methods read:
    the ball mesh (its quaternion), the collision mesh (only whether it has
    been created) and the ocean mode controller.  The flight, air and ground
    controllers have no fields of their own. *)
Record Player : Type := mkPlayer {
  vars          : PlayerVariables;
  mesh          : option Quaternion;
  collisionMesh : bool;
  oceanMode     : OceanMode
}.

Definition onVars (f : PlayerVariables -> PlayerVariables) (p : Player) : Player :=
  mkPlayer (f p.(vars)) p.(mesh) p.(collisionMesh) p.(oceanMode).

Definition set_mesh (v : option Quaternion) (p : Player) : Player :=
  mkPlayer p.(vars) v p.(collisionMesh) p.(oceanMode).

Definition set_collisionMesh (v : bool) (p : Player) : Player :=
  mkPlayer p.(vars) p.(mesh) v p.(oceanMode).

Definition set_oceanMode (v : OceanMode) (p : Player) : Player :=
  mkPlayer p.(vars) p.(mesh) p.(collisionMesh) v.

(** What a tick reads from outside the modelled classes. *)
Record Env : Type := mkEnv {
  (** [experience.time.delta], milliseconds since the previous tick *)
  delta          : R;
  (** [Date.now ()] *)
  now            : R;
  (** what [camera.instance.getWorldDirection] returns *)
  worldDirection : Vector3;
  (** the colliders the engine reports in contact with the player's *)
  contactPairs   : list nat
}.

(** ** Engine calls on the player body *)

(** [this.vars.body.<call> (...)]: a TypeError when the handle is null. *)
Definition bodyCall (who : Component) (c : BodyCall) : Act Player unit :=
  fun p =>
    match p.(vars).(body) with
    | None => None
    | Some b =>
        Some (tt, onVars (set_body (Some (perform c b))) p, [BodyWrite who c])
    end.

(** Reading the body through the handle (getters do not mutate). *)
Definition theBody : Act Player RigidBody :=
  fun p =>
    match p.(vars).(body) with
    | None => None
    | Some b => Some (b, p, [])
    end.

Definition setVars (f : PlayerVariables -> PlayerVariables) : Act Player unit :=
  modify (onVars f).

(* ====================================================================== *)
(** * Camera: the two directions the ground and air controllers ask for *)
(* ====================================================================== *)

Module Camera.

Definition getForwardDirection (env : Env) : Vector3 :=
  let forward := env.(worldDirection) in
  normalize (Vec3 forward.(_x) 0 forward.(_z)).

Definition getRightDirection (env : Env) : Vector3 :=
  let forward := getForwardDirection env in
  normalize (crossVectors forward (Vec3 0 1 0)).

End Camera.

(* ====================================================================== *)
(** * PlayerVariables *)
(* ====================================================================== *)

Module PlayerVariables.

(** The constructor. *)
Definition new : PlayerVariables :=
  mkPlayerVariables
    1                      (* radius *)
    None                   (* body *)
    false                  (* collider *)
    zero                   (* lastVelocity *)
    2                      (* torqueStrength *)
    5                      (* density *)
    (mkKeys false false false false false)
    false                  (* isFlying *)
    false                  (* hasLoggedVelocity *)
    zero                   (* velocityInitial *)
    0                      (* flightTransitionStartTime *)
    false                  (* isGrounded *)
    1                      (* airControlStrength *)
    0 0 0 0 0              (* current pitch, roll, yaw; target pitch, roll *)
    0.02                   (* pitchSpeed *)
    0.03                   (* rollSpeed *)
    (PI / 4)               (* maxPitch *)
    (PI / 3).              (* maxRoll *)

End PlayerVariables.

(* ====================================================================== *)
(** * FlightMode *)
(* ====================================================================== *)

Module FlightMode.

(** [activate ()]: the flight toggle.  [now] is [Date.now ()]. *)
Definition activate (now : R) : Act Player unit :=
  (* Toggle flight mode *)
  setVars (fun v => set_isFlying (negb v.(isFlying)) v) ;;
  (* Reset velocity log flag when toggling *)
  setVars (set_hasLoggedVelocity false) ;;
  p <- get ;;
  if p.(collisionMesh) then
    if p.(vars).(isFlying) then
      (* Disconnect from world gravity *)
      bodyCall ByFlightMode (setGravityScale 0) ;;
      (* Zero out angular velocity to prevent spinning *)
      bodyCall ByFlightMode (setAngvel (Vec3 0 0 0)) ;;
      (* Capture initial velocity at moment of activation *)
      b <- theBody ;;
      let vel := b.(linvel) in
      setVars (set_velocityInitial (Vec3 vel.(_x) vel.(_y) vel.(_z))) ;;
      (* Initialize pitch to match velocity direction (flight path angle) *)
      let horizontalSpeed := sqrt (vel.(_x) * vel.(_x) + vel.(_z) * vel.(_z)) in
      let velocityPitch := JsMath.atan2 vel.(_y) horizontalSpeed in
      setVars (set_targetPitch velocityPitch) ;;
      setVars (set_currentPitch velocityPitch) ;;
      (* Roll starts at 0 *)
      setVars (set_targetRoll 0) ;;
      setVars (set_currentRoll 0) ;;
      (* Initialize yaw from velocity direction *)
      let velocityYaw := - JsMath.atan2 vel.(_z) vel.(_x) + PI in
      setVars (set_currentYaw velocityYaw) ;;
      (* Start transition timer *)
      setVars (set_flightTransitionStartTime now)
    else
      (* Sync physics body rotation to match current visual orientation *)
      match p.(mesh) with
      | Some meshQuat =>
          bodyCall ByFlightMode
            (setRotation (Quat meshQuat.(qx) meshQuat.(qy) meshQuat.(qz) meshQuat.(qw)))
      | None => ret tt
      end ;;
      (* Reset pitch/roll to prevent carrying over to next flight *)
      setVars (set_currentPitch 0) ;;
      setVars (set_currentRoll 0) ;;
      setVars (set_targetPitch 0) ;;
      setVars (set_targetRoll 0) ;;
      (* Restore world gravity *)
      bodyCall ByFlightMode (setGravityScale 1)
  else ret tt.

(** ** The force model of [applyPhysics], by its named intermediate values *)

(** [alphaRad]: pitch minus flight-path angle, clamped to 15 degrees. *)
Definition alphaRad (pitch : R) (velocity : Vector3) : R :=
  let velocityAngle :=
    JsMath.atan2 velocity.(_y)
      (sqrt (velocity.(_x) * velocity.(_x) + velocity.(_z) * velocity.(_z))) in
  let alphaRadUnclamped := pitch - velocityAngle in
  let maxAlphaRad := 15 * PI / 180 in
  JsMath.max (- maxAlphaRad) (JsMath.min maxAlphaRad alphaRadUnclamped).

Definition rho : R := 1.225.
Definition S : R := 2.

(** Stall angle. *)
Definition alphaStall : R := degToRad 12.

(** [CL]: lift coefficient with stall behaviour, as a function of the
    (clamped) angle of attack. *)
Definition CL (alphaRad : R) : R :=
  let alphaAbs := JsMath.abs alphaRad in
  let CL0 :=
    if JsMath.ltb alphaAbs alphaStall then
      (* Linear region *)
      2 * PI * alphaRad
    else
      (* Post-stall *)
      let peakCL := 2 * PI * alphaStall * JsMath.sign alphaRad in
      let excessAlpha := alphaAbs - alphaStall in
      let stallDropoff := exp ((- excessAlpha) * 8) in
      peakCL * stallDropoff * 0.3 in
  clamp CL0 (-1.2) 1.2.

(** [q]: dynamic pressure. *)
Definition q (speed : R) : R := 0.5 * rho * speed * speed.

Definition stallSpeed : R := 15.
Definition minSpeed : R := 5.

(** [stallFactor]: the low-speed blend of the lift. *)
Definition stallFactor (speed : R) : R :=
  if JsMath.ltb speed stallSpeed
  then JsMath.max 0 (((speed - minSpeed) / (stallSpeed - minSpeed)) ^ 2)
  else 1.0.

(** [liftMagnitude]. *)
Definition liftMagnitude (speed alphaRad : R) : R :=
  q speed * S * CL alphaRad * stallFactor speed.

Definition CD0 : R := 0.03.
Definition k : R := 0.08.

Definition CD (alphaRad : R) : R := CD0 + k * CL alphaRad * CL alphaRad.

Definition dragMagnitude (speed alphaRad : R) : R :=
  q speed * S * CD alphaRad.

(** [impulse]: gravity, lift and drag summed and scaled by [dt], from the
    body's velocity and mass and the current pitch and roll. *)
Definition impulse (dt pitch roll : R) (b : RigidBody) : Vector3 :=
  let velocity := b.(linvel) in
  let speed :=
    sqrt (velocity.(_x) * velocity.(_x) + velocity.(_y) * velocity.(_y)
          + velocity.(_z) * velocity.(_z)) in
  (* velocity direction, normalized above a small speed *)
  let velDir0 := Vec3 velocity.(_x) velocity.(_y) velocity.(_z) in
  let velDir := if JsMath.ltb 0.1 speed then normalize velDir0 else velDir0 in
  let alpha := alphaRad pitch velocity in
  let refUp := Vec3 0 1 0 in
  (* 1) gravity as force *)
  let gravityForce := Vec3 0 ((- b.(mass)) * 9.8) 0 in
  (* 2) - 4) lift magnitude *)
  let lift := liftMagnitude speed alpha in
  (* lift direction: perpendicular to velocity, in the plane of velocity
     and up, rotated about the velocity by the roll *)
  let right0 := crossVectors velDir refUp in
  let right1 :=
    if JsMath.ltb (lengthSq right0) 1e-6
    then crossVectors velDir (Vec3 1 0 0) else right0 in
  let right := normalize right1 in
  let liftDir0 := normalize (crossVectors right velDir) in
  let liftDir :=
    if JsMath.ltb 0.001 (JsMath.abs roll)
    then applyQuaternion liftDir0 (setFromAxisAngle velDir roll)
    else liftDir0 in
  let liftForce := multiplyScalar liftDir lift in
  (* 6) drag as force *)
  let dragForce := multiplyScalar velDir (- dragMagnitude speed alpha) in
  (* sum forces *)
  let totalForce := add (add (add zero gravityForce) liftForce) dragForce in
  (* 7) impulse = F * dt *)
  multiplyScalar totalForce dt.

(** [applyPhysics ()]. *)
Definition applyPhysics (env : Env) : Act Player unit :=
  p <- get ;;
  match p.(vars).(body) with
  | None => ret tt
  | Some b =>
      if negb p.(vars).(isFlying) then ret tt else
      (* Use actual delta time (convert from ms to seconds) *)
      let dt := env.(delta) / 1000 in
      let j := impulse dt p.(vars).(currentPitch) p.(vars).(currentRoll) b in
      bodyCall ByFlightMode (applyImpulse (Vec3 j.(_x) j.(_y) j.(_z))) ;;
      (* Keep angular velocity zeroed *)
      bodyCall ByFlightMode (setAngvel (Vec3 0 0 0))
  end.

(** [updateControls ()]. *)
Definition updateControls : Act Player unit :=
  p <- get ;;
  match p.(vars).(body) with
  | None => ret tt
  | Some b =>
      if negb p.(vars).(isFlying) then ret tt else
      let velocity := b.(linvel) in
      (* target pitch from W/S *)
      (if p.(vars).(keys).(key_w) then
         setVars (fun v => set_targetPitch
                    (JsMath.max (v.(targetPitch) - v.(pitchSpeed)) (- v.(maxPitch))) v)
       else if p.(vars).(keys).(key_s) then
         setVars (fun v => set_targetPitch
                    (JsMath.min (v.(targetPitch) + v.(pitchSpeed)) v.(maxPitch)) v)
       else ret tt) ;;
      (* target roll from A/D *)
      (if p.(vars).(keys).(key_a) then
         setVars (fun v => set_targetRoll
                    (JsMath.max (v.(targetRoll) - v.(rollSpeed)) (- v.(maxRoll))) v)
       else if p.(vars).(keys).(key_d) then
         setVars (fun v => set_targetRoll
                    (JsMath.min (v.(targetRoll) + v.(rollSpeed)) v.(maxRoll)) v)
       else ret tt) ;;
      (* Smoothly interpolate current angles towards target *)
      setVars (fun v => set_currentPitch
                 (v.(currentPitch) + (v.(targetPitch) - v.(currentPitch)) * 0.1) v) ;;
      setVars (fun v => set_currentRoll
                 (v.(currentRoll) + (v.(targetRoll) - v.(currentRoll)) * 0.1) v) ;;
      (* Calculate yaw from velocity direction *)
      let yawAngle := JsMath.atan2 velocity.(_z) velocity.(_x) in
      setVars (set_currentYaw (- yawAngle + PI)) ;;
      (* Apply the same rotation to the ball mesh *)
      p1 <- get ;;
      match p1.(mesh) with
      | Some _ =>
          when p1.(vars).(isFlying)
            (modify (set_mesh
               (Some (setFromEulerYXZ p1.(vars).(currentRoll)
                                      (p1.(vars).(currentYaw) + PI)
                                      p1.(vars).(currentPitch)))))
      | None => ret tt
      end ;;
      (* Zero angular velocity to prevent spinning *)
      bodyCall ByFlightMode (setAngvel (Vec3 0 0 0))
  end.

Definition update (env : Env) : Act Player unit :=
  applyPhysics env ;;
  updateControls.

End FlightMode.

(* ====================================================================== *)
(** * AirMode and GroundMode *)
(* ====================================================================== *)

Module AirMode.

(** [update ()]: impulse-based control while airborne (not flying). *)
Definition update (env : Env) : Act Player unit :=
  p <- get ;;
  match p.(vars).(body) with
  | None => ret tt
  | Some _ =>
      if p.(vars).(isGrounded) || p.(vars).(isFlying) then ret tt else
      let forward := Camera.getForwardDirection env in
      let right := Camera.getRightDirection env in
      (* Flatten directions to world XZ plane *)
      let forwardFlat := normalize (Vec3 forward.(_x) 0 forward.(_z)) in
      let rightFlat := normalize (Vec3 right.(_x) 0 right.(_z)) in
      let strength := p.(vars).(airControlStrength) in
      when p.(vars).(keys).(key_w)
        (bodyCall ByAirMode
           (applyImpulse (Vec3 (forwardFlat.(_x) * strength) 0
                               (forwardFlat.(_z) * strength)))) ;;
      when p.(vars).(keys).(key_s)
        (bodyCall ByAirMode
           (applyImpulse (Vec3 ((- forwardFlat.(_x)) * strength) 0
                               ((- forwardFlat.(_z)) * strength)))) ;;
      when p.(vars).(keys).(key_a)
        (bodyCall ByAirMode
           (applyImpulse (Vec3 ((- rightFlat.(_x)) * strength) 0
                               ((- rightFlat.(_z)) * strength)))) ;;
      when p.(vars).(keys).(key_d)
        (bodyCall ByAirMode
           (applyImpulse (Vec3 (rightFlat.(_x) * strength) 0
                               (rightFlat.(_z) * strength))))
  end.

End AirMode.

Module GroundMode.

(** [update ()]: torque-based rolling while grounded. *)
Definition update (env : Env) : Act Player unit :=
  p <- get ;;
  match p.(vars).(body) with
  | None => ret tt
  | Some _ =>
      if negb p.(vars).(isGrounded) || p.(vars).(isFlying) then ret tt else
      let forward := Camera.getForwardDirection env in
      let right := Camera.getRightDirection env in
      let strength := p.(vars).(torqueStrength) in
      let aboutForward := normalize (crossVectors (Vec3 0 1 0) forward) in
      let aboutRight := normalize (crossVectors (Vec3 0 1 0) right) in
      when p.(vars).(keys).(key_w)
        (bodyCall ByGroundMode
           (applyTorqueImpulse (Vec3 (aboutForward.(_x) * strength)
                                     (aboutForward.(_y) * strength)
                                     (aboutForward.(_z) * strength)))) ;;
      when p.(vars).(keys).(key_s)
        (bodyCall ByGroundMode
           (applyTorqueImpulse (Vec3 ((- aboutForward.(_x)) * strength)
                                     ((- aboutForward.(_y)) * strength)
                                     ((- aboutForward.(_z)) * strength)))) ;;
      when p.(vars).(keys).(key_a)
        (bodyCall ByGroundMode
           (applyTorqueImpulse (Vec3 ((- aboutRight.(_x)) * strength)
                                     ((- aboutRight.(_y)) * strength)
                                     ((- aboutRight.(_z)) * strength)))) ;;
      when p.(vars).(keys).(key_d)
        (bodyCall ByGroundMode
           (applyTorqueImpulse (Vec3 (aboutRight.(_x) * strength)
                                     (aboutRight.(_y) * strength)
                                     (aboutRight.(_z) * strength))))
  end.

End GroundMode.

(* ====================================================================== *)
(** * OceanMode *)
(* ====================================================================== *)

Module OceanMode.

(** The constructor. *)
Definition new : OceanMode := mkOceanMode (-230) 3 false 0.98 5.

Definition setActive (v : bool) : Act Player unit :=
  modify (fun p => set_oceanMode (set_isActive v p.(oceanMode)) p).

(** [isInOcean ()]: the submersion test, with hysteresis. *)
Definition isInOcean : Act Player bool :=
  p <- get ;;
  match p.(vars).(body) with
  | None => ret false
  | Some b =>
      let position := b.(translation) in
      let o := p.(oceanMode) in
      (* Enter ocean mode when at or below sea level *)
      (if JsMath.leb position.(_y) o.(seaLevel) then setActive true
       (* Exit ocean mode only when significantly above sea level *)
       else if JsMath.ltb (o.(seaLevel) + o.(exitThreshold)) position.(_y)
            then setActive false
       (* Otherwise keep current state *)
       else ret tt) ;;
      p1 <- get ;;
      ret p1.(oceanMode).(isActive)
  end.

(** [update ()]: drag and buoyancy; the player has no control. *)
Definition update (env : Env) : Act Player unit :=
  p <- get ;;
  match p.(vars).(body) with
  | None => ret tt
  | Some _ =>
      (* Disengage flight mode properly when entering ocean *)
      when p.(vars).(isFlying) (FlightMode.activate env.(now)) ;;
      b <- theBody ;;
      let velocity := b.(linvel) in
      let position := b.(translation) in
      let o := p.(oceanMode) in
      (* Apply water drag to slow down movement *)
      bodyCall ByOceanMode
        (setLinvel (Vec3 (velocity.(_x) * o.(waterDrag))
                         (velocity.(_y) * o.(waterDrag))
                         (velocity.(_z) * o.(waterDrag)))) ;;
      (* Apply gentle buoyancy to keep ball near surface *)
      let depthBelowSurface := o.(seaLevel) - position.(_y) in
      when (JsMath.ltb 0 depthBelowSurface)
        (bodyCall ByOceanMode
           (applyImpulse
              (Vec3 0 (o.(waterBuoyancy) * JsMath.min depthBelowSurface 1) 0))) ;;
      (* Damp angular velocity *)
      b1 <- theBody ;;
      let angvel := b1.(angvel) in
      bodyCall ByOceanMode
        (setAngvel (Vec3 (angvel.(_x) * o.(waterDrag))
                         (angvel.(_y) * o.(waterDrag))
                         (angvel.(_z) * o.(waterDrag))))
  end.

End OceanMode.

(* ====================================================================== *)
(** * PlayerPhysics *)
(* ====================================================================== *)

Module PlayerPhysics.

(** Mass properties the engine derives for a ball collider of the given
    density and radius. *)
Definition ballMass (density radius : R) : R :=
  density * (4 / 3 * PI * radius ^ 3).

Definition ballInertia (density radius : R) : R :=
  2 / 5 * ballMass density radius * radius ^ 2.

(** [createCollisionMesh ()]. *)
Definition createCollisionMesh : Act Player unit :=
  modify (set_collisionMesh true).

(** [createBody ()]: a dynamic body at the spawn point with a ball
    collider, an initial impulse, and the collision mesh. *)
Definition createBody : Act Player unit :=
  p <- get ;;
  let v := p.(vars) in
  let spawnX := 0 in
  let spawnY := v.(radius) in
  let spawnZ := 0 in
  setVars (set_body
    (Some (mkBody (Vec3 spawnX spawnY spawnZ) (Quat 0 0 0 1) zero zero 1
                  (ballMass v.(density) v.(radius))
                  (ballInertia v.(density) v.(radius))))) ;;
  setVars (set_collider true) ;;
  (* Apply initial impulse *)
  bodyCall ByPlayerPhysics (applyImpulse (Vec3 3.0 0 0)) ;;
  (* Create collision visualization *)
  createCollisionMesh.

(** [setup ()]: creates the body now when the engine is ready; otherwise
    [createBody] runs later, on the engine's 'ready' event. *)
Definition setup (physicsIsReady : bool) : Act Player unit :=
  when physicsIsReady createBody.

(** [checkGrounded ()]: one contact pair is enough. *)
Definition checkGrounded (env : Env) : Act Player unit :=
  p <- get ;;
  if negb p.(vars).(collider) then ret tt else
  setVars (set_isGrounded false) ;;
  fold_right (fun (otherCollider : nat) (rest : Act Player unit) =>
                setVars (set_isGrounded true) ;; rest)
             (ret tt) env.(contactPairs).

(** [updateVisuals (position, rotation)]: only the ball mesh's quaternion
    is kept, as [FlightMode.activate] reads it back. *)
Definition updateVisuals (position : Vector3) (rotation : Quaternion)
  : Act Player unit :=
  p <- get ;;
  match p.(mesh) with
  | Some _ =>
      when (negb p.(vars).(isFlying))
        (modify (set_mesh
           (Some (Quat rotation.(qx) rotation.(qy) rotation.(qz) rotation.(qw)))))
  | None => ret tt
  end.

End PlayerPhysics.

(* ====================================================================== *)
(** * Player and PlayerInput *)
(* ====================================================================== *)

Module Player.

(** The constructor: fresh variables and mode controllers, the ball mesh,
    then [PlayerPhysics.setup]. *)
Definition new (meshQuaternion : Quaternion) (physicsIsReady : bool)
  : option (unit * Player * Trace) :=
  PlayerPhysics.setup physicsIsReady
    (mkPlayer PlayerVariables.new (Some meshQuaternion) false OceanMode.new).

(** [update ()]: one tick of the locomotion state machine. *)
Definition update (env : Env) : Act Player unit :=
  p <- get ;;
  match p.(vars).(body) with
  | None => ret tt
  | Some b =>
      (* Get physics data *)
      let position := b.(translation) in
      let rotation := b.(rotation) in
      let velocity := b.(linvel) in
      (* Check grounded state *)
      PlayerPhysics.checkGrounded env ;;
      (* Update mode controllers; ocean mode takes priority *)
      inOcean <- OceanMode.isInOcean ;;
      p1 <- get ;;
      (if inOcean then
         emit (Run ByOceanMode) ;; OceanMode.update env
       else if p1.(vars).(isFlying) then
         emit (Run ByFlightMode) ;; FlightMode.update env
       else if negb p1.(vars).(isGrounded) then
         emit (Run ByAirMode) ;; AirMode.update env
       else
         emit (Run ByGroundMode) ;; GroundMode.update env) ;;
      (* Update physics visuals *)
      PlayerPhysics.updateVisuals position rotation ;;
      (* Store last velocity *)
      setVars (set_lastVelocity (Vec3 velocity.(_x) velocity.(_y) velocity.(_z)))
  end.

End Player.

(** The keys the listeners distinguish. *)
Inductive Key : Type := KeyW | KeyS | KeyA | KeyD | KeySpace | KeyOther.

Module PlayerInput.

Definition setKey (key : Key) (down : bool) (ks : Keys) : Keys :=
  match key with
  | KeyW => mkKeys down ks.(key_s) ks.(key_a) ks.(key_d) ks.(key_space)
  | KeyS => mkKeys ks.(key_w) down ks.(key_a) ks.(key_d) ks.(key_space)
  | KeyA => mkKeys ks.(key_w) ks.(key_s) down ks.(key_d) ks.(key_space)
  | KeyD => mkKeys ks.(key_w) ks.(key_s) ks.(key_a) down ks.(key_space)
  | KeySpace => mkKeys ks.(key_w) ks.(key_s) ks.(key_a) ks.(key_d) down
  | KeyOther => ks
  end.

(** The 'keydown' listener: space also fires the flight toggle. *)
Definition keydown (key : Key) (now : R) : Act Player unit :=
  setVars (fun v => set_keys (setKey key true v.(keys)) v) ;;
  match key with
  | KeySpace => FlightMode.activate now
  | _ => ret tt
  end.

(** The 'keyup' listener. *)
Definition keyup (key : Key) : Act Player unit :=
  setVars (fun v => set_keys (setKey key false v.(keys)) v).

End PlayerInput.

(* ====================================================================== *)
(** * RampL: the analytic ramp, its constraint solver and the gate *)
(* ====================================================================== *)

(** [RampL.rampState]. *)
Record RampState : Type := mkRampState {
  (** current X position along the curve (local to the ramp) *)
  rampX    : R;
  (** scalar speed along arc length *)
  vS       : R;
  (** sideways offset from the ramp centre *)
  lateralZ : R;
  (** lateral velocity (preserved from entry) *)
  vZ       : R
}.

(** The fields of [RampL]. *)
Record RampL : Type := mkRampL {
  gateCenter : Vector3;
  gateWidth : R;
  gateHeight : R;
  (** horizontal unit normal of the gate, computed from its rotation *)
  gateNormal : Vector3;
  (** whether the computed gate mesh exists *)
  computedGateMesh : bool;
  playerPreviousPos : option Vector3;
  playerPreviousX : option R;
  L : R;
  M : R;
  gravity : R;
  substeps : nat;
  playerRadius : R;
  playerRampMode : bool;
  playerBallisticMode : bool;
  rampState : RampState;
  rampOrigin : Vector3
}.

Definition set_playerPreviousPos (v : option Vector3) (s : RampL) : RampL :=
  mkRampL s.(gateCenter) s.(gateWidth) s.(gateHeight) s.(gateNormal)
    s.(computedGateMesh) v s.(playerPreviousX) s.(L) s.(M) s.(gravity)
    s.(substeps) s.(playerRadius) s.(playerRampMode) s.(playerBallisticMode)
    s.(rampState) s.(rampOrigin).
Definition set_playerPreviousX (v : option R) (s : RampL) : RampL :=
  mkRampL s.(gateCenter) s.(gateWidth) s.(gateHeight) s.(gateNormal)
    s.(computedGateMesh) s.(playerPreviousPos) v s.(L) s.(M) s.(gravity)
    s.(substeps) s.(playerRadius) s.(playerRampMode) s.(playerBallisticMode)
    s.(rampState) s.(rampOrigin).
Definition set_playerRadius (v : R) (s : RampL) : RampL :=
  mkRampL s.(gateCenter) s.(gateWidth) s.(gateHeight) s.(gateNormal)
    s.(computedGateMesh) s.(playerPreviousPos) s.(playerPreviousX) s.(L)
    s.(M) s.(gravity) s.(substeps) v s.(playerRampMode)
    s.(playerBallisticMode) s.(rampState) s.(rampOrigin).
Definition set_playerRampMode (v : bool) (s : RampL) : RampL :=
  mkRampL s.(gateCenter) s.(gateWidth) s.(gateHeight) s.(gateNormal)
    s.(computedGateMesh) s.(playerPreviousPos) s.(playerPreviousX) s.(L)
    s.(M) s.(gravity) s.(substeps) s.(playerRadius) v s.(playerBallisticMode)
    s.(rampState) s.(rampOrigin).
Definition set_playerBallisticMode (v : bool) (s : RampL) : RampL :=
  mkRampL s.(gateCenter) s.(gateWidth) s.(gateHeight) s.(gateNormal)
    s.(computedGateMesh) s.(playerPreviousPos) s.(playerPreviousX) s.(L)
    s.(M) s.(gravity) s.(substeps) s.(playerRadius) s.(playerRampMode) v
    s.(rampState) s.(rampOrigin).
Definition set_rampState (v : RampState) (s : RampL) : RampL :=
  mkRampL s.(gateCenter) s.(gateWidth) s.(gateHeight) s.(gateNormal)
    s.(computedGateMesh) s.(playerPreviousPos) s.(playerPreviousX) s.(L)
    s.(M) s.(gravity) s.(substeps) s.(playerRadius) s.(playerRampMode)
    s.(playerBallisticMode) v s.(rampOrigin).

(** What [getNormal] returns. *)
Record Normal : Type := mkNormal { nx : R; ny : R }.

(** What [stepRampConstraint] returns. *)
Record StepResult : Type := mkStepResult {
  newPosition : Vector3;
  newVelocity : Vector3;
  exitedRamp  : bool
}.

Module RampL.

(** The gate normal as [createComputedMeshes] derives it from the gate's
    rotation: the plane's +Z axis, rotated, flattened and normalized. *)
Definition computeGateNormal (rotX rotY rotZ : R) : Vector3 :=
  let quaternion := setFromEulerYXZ rotX rotY rotZ in
  let n := applyQuaternion (Vec3 0 0 1) quaternion in
  (* Keep only horizontal component *)
  let flat := Vec3 n.(_x) 0 n.(_z) in
  if JsMath.ltb 0.001 (length flat) then normalize flat else Vec3 1 0 0.

(** The constructor. *)
Definition new : RampL :=
  mkRampL
    (Vec3 236 (-208) 0)                    (* gateCenter *)
    40                                     (* gateWidth *)
    30                                     (* gateHeight *)
    (computeGateNormal (PI / 4) (PI / 2) 0)
    true                                   (* computedGateMesh *)
    None                                   (* playerPreviousPos *)
    None                                   (* playerPreviousX *)
    30                                     (* L *)
    1.3                                    (* M *)
    9.81                                   (* gravity *)
    4                                      (* substeps *)
    1                                      (* playerRadius *)
    false                                  (* playerRampMode *)
    false                                  (* playerBallisticMode *)
    (mkRampState 0 0 0 0)
    (Vec3 229.4 (-214.65) 0).              (* rampOrigin *)

(** ** Ramp curve functions *)

(** Height function. *)
Definition y (r : RampL) (x : R) : R :=
  let L2 := r.(L) * r.(L) in
  ((r.(M) - 1) / L2) * x * x * x + ((2 - r.(M)) / r.(L)) * x * x - x.

(** Derivative of the height function. *)
Definition dy (r : RampL) (x : R) : R :=
  let L2 := r.(L) * r.(L) in
  3 * ((r.(M) - 1) / L2) * x * x + 2 * ((2 - r.(M)) / r.(L)) * x - 1.

(** Surface normal at [x]. *)
Definition getNormal (r : RampL) (x : R) : Normal :=
  let slope := dy r x in
  let denom := sqrt (1 + slope * slope) in
  mkNormal ((- slope) / denom) (1 / denom).

(** ** The constraint solver *)

(** The body of the substep loop of [stepRampConstraint]: the state after
    one substep, and whether the loop is left ([break]). *)
Definition substep (r : RampL) (subDt : R) (s : RampState) : RampState * bool :=
  let g := r.(gravity) in
  (* Get current slope *)
  let slope := dy r s.(rampX) in
  let slopeSq := slope * slope in
  let denom := sqrt (1 + slopeSq) in
  (* Tangential acceleration from gravity projection *)
  let aT := ((- g) * slope) / denom in
  (* Update speed along arc *)
  let vS1 := s.(vS) + aT * subDt in
  (* Update lateral position with Z velocity *)
  let lateralZ1 := s.(lateralZ) + s.(vZ) * subDt in
  (* Convert arc-length step to dx *)
  let dx := (vS1 * subDt) / denom in
  (* Update ramp X position *)
  let rampX1 := s.(rampX) + dx in
  (* Clamp and check exit conditions *)
  let hitStart := JsMath.ltb rampX1 0 in
  let rampX2 := if hitStart then 0 else rampX1 in
  let vS2 := if hitStart then JsMath.abs vS1 else vS1 in
  if JsMath.leb r.(L) rampX2
  then (mkRampState r.(L) vS2 lateralZ1 s.(vZ), true)
  else (mkRampState rampX2 vS2 lateralZ1 s.(vZ), false).

(** The loop [for (i = 0; i < substeps; i++)], with its [break]. *)
Fixpoint substepLoop (r : RampL) (subDt : R) (n : nat) (s : RampState)
  : RampState * bool :=
  match n with
  | O => (s, false)
  | S n' =>
      let '(s1, exited) := substep r subDt s in
      if exited then (s1, true) else substepLoop r subDt n' s1
  end.

(** [stepRampConstraint (state, dt)]: the updated [state] and the result. *)
Definition stepRampConstraint (r : RampL) (state : RampState) (dt : R)
  : RampState * StepResult :=
  (* Substep for stability *)
  let subDt := dt / INR r.(substeps) in
  let '(s1, exited) := substepLoop r subDt r.(substeps) state in
  (* Final position on curve (local to ramp) *)
  let localY := y r s1.(rampX) in
  (* Surface normal for radius offset *)
  let normal := getNormal r s1.(rampX) in
  (* World position, offset by radius along normal *)
  let position :=
    Vec3 (r.(rampOrigin).(_x) + s1.(rampX) + normal.(nx) * r.(playerRadius))
         (r.(rampOrigin).(_y) + localY + normal.(ny) * r.(playerRadius))
         (r.(rampOrigin).(_z) + s1.(lateralZ)) in
  (* Unit tangent in X-Y plane *)
  let slope := dy r s1.(rampX) in
  let denom := sqrt (1 + slope * slope) in
  let tx := 1 / denom in
  let ty := slope / denom in
  (* Velocity: tangent scaled by speed, plus lateral Z *)
  let velocity := Vec3 (s1.(vS) * tx) (s1.(vS) * ty) s1.(vZ) in
  (s1, mkStepResult position velocity exited).

(** ** Methods that touch the player: state is the ramp and the player *)

Definition onRamp {A : Type} (m : Act RampL A) : Act (RampL * Player) A :=
  zoom fst (fun r s => (r, snd s)) m.

Definition onPlayer {A : Type} (m : Act Player A) : Act (RampL * Player) A :=
  zoom snd (fun p s => (fst s, p)) m.

(** [enterRampMode (player)]: initialize the ramp state from the player's
    position and velocity and snap the body onto the curve. *)
Definition enterRampMode : Act (RampL * Player) unit :=
  b <- onPlayer theBody ;;
  s <- get ;;
  let r := fst s in
  let p := snd s in
  let pos := b.(translation) in
  let vel := b.(linvel) in
  (* Initial rampX from world X position *)
  let localX := pos.(_x) - r.(rampOrigin).(_x) in
  let rampX0 := JsMath.max 0 (JsMath.min localX r.(L)) in
  (* Project velocity onto tangent direction *)
  let slope := dy r rampX0 in
  let denom := sqrt (1 + slope * slope) in
  let tx := 1 / denom in
  let ty := slope / denom in
  let vS0 := vel.(_x) * tx + vel.(_y) * ty in
  (* Store lateral offset and preserve Z velocity *)
  let lateralZ0 := pos.(_z) - r.(rampOrigin).(_z) in
  let vZ0 := vel.(_z) in
  onRamp (modify (set_rampState (mkRampState rampX0 vS0 lateralZ0 vZ0))) ;;
  (* Get player radius from player vars *)
  let radius0 := JsMath.orElse p.(vars).(radius) 1 in
  onRamp (modify (set_playerRadius radius0)) ;;
  (* Snap player to curve position with radius offset *)
  let curveY := y r rampX0 in
  let normal := getNormal r rampX0 in
  let snappedPos :=
    Vec3 (r.(rampOrigin).(_x) + rampX0 + normal.(nx) * radius0)
         (r.(rampOrigin).(_y) + curveY + normal.(ny) * radius0)
         (r.(rampOrigin).(_z) + lateralZ0) in
  (* Velocity tangent to curve, preserving Z velocity *)
  let snappedVel := Vec3 (vS0 * tx) (vS0 * ty) vZ0 in
  (* Apply immediately *)
  onPlayer (bodyCall ByRampL (setTranslation snappedPos)) ;;
  onPlayer (bodyCall ByRampL (setLinvel snappedVel)) ;;
  onRamp (modify (set_playerPreviousX (Some snappedPos.(_x)))) ;;
  onRamp (modify (set_playerRampMode true)) ;;
  onRamp (modify (set_playerBallisticMode false)) ;;
  emit EnteredRampMode.

(** [exitRampMode (exitVelocity)]: switch to ballistic mode. *)
Definition exitRampMode (exitVelocity : Vector3) : Act (RampL * Player) unit :=
  onRamp (modify (set_playerRampMode false)) ;;
  onRamp (modify (set_playerBallisticMode true)) ;;
  emit (ExitedRampMode exitVelocity).

(** The signed distance of a position to the gate plane (Y ignored). *)
Definition signedDistanceTo (r : RampL) (pos : Vector3) : R :=
  let toPlayer := Vec3 (pos.(_x) - r.(gateCenter).(_x)) 0
                       (pos.(_z) - r.(gateCenter).(_z)) in
  dot toPlayer r.(gateNormal).

(** [withinY]: the Y bound of the gate. *)
Definition withinY (r : RampL) (playerPos : Vector3) : bool :=
  let halfHeight := r.(gateHeight) / 2 in
  JsMath.leb (r.(gateCenter).(_y) - halfHeight) playerPos.(_y)
  && JsMath.leb playerPos.(_y) (r.(gateCenter).(_y) + halfHeight).

(** [withinWidth]: the lateral bound along the gate. *)
Definition withinWidth (r : RampL) (playerPos : Vector3) : bool :=
  let halfWidth := r.(gateWidth) / 2 in
  let toPlayer := Vec3 (playerPos.(_x) - r.(gateCenter).(_x)) 0
                       (playerPos.(_z) - r.(gateCenter).(_z)) in
  let gateRight := Vec3 (- r.(gateNormal).(_z)) 0 r.(gateNormal).(_x) in
  let lateralDistance := JsMath.abs (dot toPlayer gateRight) in
  JsMath.leb lateralDistance halfWidth.

Definition crossedForward (prevSignedDistance signedDistance : R) : bool :=
  JsMath.ltb prevSignedDistance 0 && JsMath.leb 0 signedDistance.

Definition crossedBackward (prevSignedDistance signedDistance : R) : bool :=
  JsMath.ltb 0 prevSignedDistance && JsMath.leb signedDistance 0.

(** [update ()] once the player is known to exist. *)
Definition updateWith (env : Env) : Act (RampL * Player) unit :=
  s <- get ;;
  let r := fst s in
  let p := snd s in
  match p.(vars).(body) with
  | None => ret tt
  | Some b =>
      let playerPos := b.(translation) in
      (* Delta time in seconds *)
      let dt := env.(delta) / 1000 in
      if r.(playerRampMode) then
        (* RAMP MODE PHYSICS *)
        let '(state1, result) := stepRampConstraint r r.(rampState) dt in
        onRamp (modify (set_rampState state1)) ;;
        (* Apply position and velocity to rigid body kinematically *)
        onPlayer (bodyCall ByRampL
          (setTranslation (Vec3 result.(newPosition).(_x)
                                result.(newPosition).(_y)
                                result.(newPosition).(_z)))) ;;
        onPlayer (bodyCall ByRampL
          (setLinvel (Vec3 result.(newVelocity).(_x)
                           result.(newVelocity).(_y)
                           result.(newVelocity).(_z)))) ;;
        (* Check if exited ramp; gate detection is skipped in ramp mode *)
        when result.(exitedRamp) (exitRampMode result.(newVelocity))
      else
      (* GATE CROSSING DETECTION *)
      let storePos :=
        onRamp (modify (set_playerPreviousPos
          (Some (Vec3 playerPos.(_x) playerPos.(_y) playerPos.(_z))))) in
      if negb r.(computedGateMesh) then storePos else
      let signedDistance := signedDistanceTo r playerPos in
      let prevSignedDistance :=
        match r.(playerPreviousPos) with
        | Some prev => Some (signedDistanceTo r prev)
        | None => None
        end in
      match prevSignedDistance with
      | Some prev =>
          when (withinY r playerPos && withinWidth r playerPos)
            (let forward := crossedForward prev signedDistance in
             let backward := crossedBackward prev signedDistance in
             when (forward || backward)
               (emit (GateCrossed (if forward then Forward else Backward)) ;;
                (* Enter ramp mode when crossing forward *)
                if forward && negb r.(playerRampMode) then enterRampMode
                else ret tt))
      | None => ret tt
      end ;;
      storePos
  end.

(** [update ()]: nothing happens until the world has a player. *)
Definition update (env : Env) : Act (RampL * option Player) unit :=
  fun s =>
    match snd s with
    | None => Some (tt, s, [])
    | Some p =>
        match updateWith env (fst s, p) with
        | None => None
        | Some (a, (r1, p1), t) => Some (a, (r1, Some p1), t)
        end
    end.

End RampL.

(* ====================================================================== *)
(** * World *)
(* ====================================================================== *)

(** The two members of [World] the tick touches (the ocean surface is
    visual only).  Both are created when the resources are ready. *)
Record World : Type := mkWorld {
  player : option Player;
  rampL  : option RampL
}.

Module World.

(** [update ()]: the player first, then the ramp. *)
Definition update (env : Env) : Act World unit :=
  (fun w =>
     match w.(player) with
     | Some p =>
         zoom (fun _ : World => p) (fun p1 w0 => mkWorld (Some p1) w0.(rampL))
              (Player.update env) w
     | None => Some (tt, w, [])
     end) ;;
  (fun w =>
     match w.(rampL) with
     | Some r =>
         zoom (fun w0 : World => (r, w0.(player)))
              (fun s _ => mkWorld (snd s) (Some (fst s)))
              (RampL.update env) w
     | None => Some (tt, w, [])
     end).

End World.

(* ====================================================================== *)
(** * Runs over several ticks *)
(* ====================================================================== *)

(** Between two ticks the engine steps the world and rewrites the body.  A
    run is therefore driven by the list of body states the engine leaves,
    one per tick. *)
Definition withBody (b : RigidBody) (p : Player) : Player :=
  onVars (set_body (Some b)) p.

(** The answers of [OceanMode.isInOcean] along a run, and the final player. *)
Fixpoint isInOceanRun (bodies : list RigidBody) (p : Player)
  : list bool * Player :=
  match bodies with
  | [] => ([], p)
  | b :: rest =>
      match OceanMode.isInOcean (withBody b p) with
      | Some (answer, p1, _) =>
          let '(answers, p2) := isInOceanRun rest p1 in (answer :: answers, p2)
      | None => ([], p)
      end
  end.

(** [RampL.update] along a run: the player as each tick finds it is the
    previous one with the body the engine left.  The result is the final
    ramp and player and the trace of all ticks. *)
Fixpoint rampRun (env : Env) (bodies : list RigidBody) (s : RampL * Player)
  : option (RampL * Player * Trace) :=
  match bodies with
  | [] => Some (s, [])
  | b :: rest =>
      match RampL.updateWith env (fst s, withBody b (snd s)) with
      | Some (_, s1, t1) =>
          match rampRun env rest s1 with
          | Some (s2, t2) => Some (s2, t1 ++ t2)
          | None => None
          end
      | None => None
      end
  end.

(** ** Reading traces *)

Definition isRun (e : Event) : bool :=
  match e with Run _ => true | _ => false end.

Definition isGateCrossed (e : Event) : bool :=
  match e with GateCrossed _ => true | _ => false end.

Definition isEnteredRampMode (e : Event) : bool :=
  match e with EnteredRampMode => true | _ => false end.

Definition isGravityScaleWrite (e : Event) : bool :=
  match e with BodyWrite _ (setGravityScale _) => true | _ => false end.

(** The class that made a body write touching transform or velocity. *)
Definition bodyWriter (e : Event) : option Component :=
  match e with
  | BodyWrite who c =>
      if writesTransform c || writesVelocity c then Some who else None
  | _ => None
  end.

Definition isModeHandler (c : Component) : bool :=
  match c with
  | ByOceanMode | ByFlightMode | ByGroundMode | ByAirMode => true
  | _ => false
  end.

(** Did a locomotion mode handler write the body's transform or velocity? *)
Definition writtenByHandler (t : Trace) : bool :=
  existsb (fun e => match bodyWriter e with
                    | Some c => isModeHandler c
                    | None => false
                    end) t.

(** Did the ramp constraint solver write them? *)
Definition writtenByRampL (t : Trace) : bool :=
  existsb (fun e => match bodyWriter e with
                    | Some ByRampL => true
                    | _ => false
                    end) t.

(* ====================================================================== *)
(** * Concrete inputs used by the examples below *)
(* ====================================================================== *)

(** A body at height [h], otherwise at rest. *)
Definition bodyAtHeight (h : R) : RigidBody :=
  mkBody (Vec3 0 h 0) (Quat 0 0 0 1) zero zero 1 1 1.

(** A player whose physics has not been set up. *)
Definition freshPlayer : Player :=
  mkPlayer PlayerVariables.new (Some (Quat 0 0 0 1)) false OceanMode.new.


(** A body at [pos] moving with [vel]. *)
Definition bodyMoving (pos vel : Vector3) : RigidBody :=
  mkBody pos (Quat 0 0 0 1) vel zero 1 1 1.

(** A player whose physics is set up, with the body in state [b]. *)
Definition playerOn (b : RigidBody) : Player :=
  mkPlayer (set_collider true (set_body (Some b) PlayerVariables.new))
           (Some (Quat 0 0 0 1)) true OceanMode.new.

(** A 16 ms tick, the camera looking down -Z, nothing touching the ball. *)
Definition tick16 : Env := mkEnv 16 0 (Vec3 0 0 (-1)) [].

(** The ramp of the constructor, with the solver armed. *)
Definition rampArmed : RampL := set_playerRampMode true RampL.new.


(* ====================================================================== *)
(** * Outcomes stated directly, for use in statements *)
(* ====================================================================== *)

(** The outcome of one tick of [RampL.update] in ramp mode: the new ramp,
    the new body and the trace.  Lemma [updateWith_rampMode] proves that
    this is what [RampL.updateWith] computes. *)
Definition rampTick (env : Env) (r : RampL) (b : RigidBody)
  : RampL * RigidBody * Trace :=
  let '(state1, result) :=
    RampL.stepRampConstraint r r.(rampState) (env.(delta) / 1000) in
  let r1 := set_rampState state1 r in
  let b1 := perform (setLinvel result.(newVelocity))
              (perform (setTranslation result.(newPosition)) b) in
  let writes := [BodyWrite ByRampL (setTranslation result.(newPosition));
                 BodyWrite ByRampL (setLinvel result.(newVelocity))] in
  if result.(exitedRamp)
  then (set_playerBallisticMode true (set_playerRampMode false r1), b1,
        writes ++ [ExitedRampMode result.(newVelocity)])
  else (r1, b1, writes).

(** Performing a list of engine calls in order. *)
Definition performAll (calls : list BodyCall) (b : RigidBody) : RigidBody :=
  fold_left (fun b0 c => perform c b0) calls b.

(** The engine calls of [AirMode.update] for the keys held.  Lemma
    [AirMode_update_airborne] proves that these are the calls it makes. *)
Definition airCalls (env : Env) (p : Player) : list BodyCall :=
  let forward := Camera.getForwardDirection env in
  let right := Camera.getRightDirection env in
  let forwardFlat := normalize (Vec3 forward.(_x) 0 forward.(_z)) in
  let rightFlat := normalize (Vec3 right.(_x) 0 right.(_z)) in
  let strength := p.(vars).(airControlStrength) in
  let ks := p.(vars).(keys) in
  (if ks.(key_w)
   then [applyImpulse (Vec3 (forwardFlat.(_x) * strength) 0
                            (forwardFlat.(_z) * strength))] else [])
  ++ (if ks.(key_s)
      then [applyImpulse (Vec3 ((- forwardFlat.(_x)) * strength) 0
                               ((- forwardFlat.(_z)) * strength))] else [])
  ++ (if ks.(key_a)
      then [applyImpulse (Vec3 ((- rightFlat.(_x)) * strength) 0
                               ((- rightFlat.(_z)) * strength))] else [])
  ++ (if ks.(key_d)
      then [applyImpulse (Vec3 (rightFlat.(_x) * strength) 0
                               (rightFlat.(_z) * strength))] else []).

(** The engine calls of [GroundMode.update] for the keys held (lemma
    [GroundMode_update_grounded]). *)
Definition groundCalls (env : Env) (p : Player) : list BodyCall :=
  let forward := Camera.getForwardDirection env in
  let right := Camera.getRightDirection env in
  let strength := p.(vars).(torqueStrength) in
  let aboutForward := normalize (crossVectors (Vec3 0 1 0) forward) in
  let aboutRight := normalize (crossVectors (Vec3 0 1 0) right) in
  let ks := p.(vars).(keys) in
  (if ks.(key_w)
   then [applyTorqueImpulse (Vec3 (aboutForward.(_x) * strength)
                                  (aboutForward.(_y) * strength)
                                  (aboutForward.(_z) * strength))] else [])
  ++ (if ks.(key_s)
      then [applyTorqueImpulse (Vec3 ((- aboutForward.(_x)) * strength)
                                     ((- aboutForward.(_y)) * strength)
                                     ((- aboutForward.(_z)) * strength))] else [])
  ++ (if ks.(key_a)
      then [applyTorqueImpulse (Vec3 ((- aboutRight.(_x)) * strength)
                                     ((- aboutRight.(_y)) * strength)
                                     ((- aboutRight.(_z)) * strength))] else [])
  ++ (if ks.(key_d)
      then [applyTorqueImpulse (Vec3 (aboutRight.(_x) * strength)
                                     (aboutRight.(_y) * strength)
                                     (aboutRight.(_z) * strength))] else []).

(** The Submerged dynamics: the engine calls of [OceanMode.update] on a
    body [b] once flight is disengaged (lemma [OceanMode_update_not_flying]). *)
Definition oceanCalls (o : OceanMode) (b : RigidBody) : list BodyCall :=
  let velocity := b.(linvel) in
  let depthBelowSurface := o.(seaLevel) - b.(translation).(_y) in
  [setLinvel (Vec3 (velocity.(_x) * o.(waterDrag))
                   (velocity.(_y) * o.(waterDrag))
                   (velocity.(_z) * o.(waterDrag)))]
  ++ (if JsMath.ltb 0 depthBelowSurface
      then [applyImpulse
              (Vec3 0 (o.(waterBuoyancy) * JsMath.min depthBelowSurface 1) 0)]
      else [])
  ++ [setAngvel (Vec3 (b.(angvel).(_x) * o.(waterDrag))
                      (b.(angvel).(_y) * o.(waterDrag))
                      (b.(angvel).(_z) * o.(waterDrag)))].

(** The engine calls of the flight exit in [FlightMode.activate] (lemma
    [activate_exit]). *)
Definition flightExitCalls (p : Player) : list BodyCall :=
  match p.(mesh) with
  | Some meshQuat => [setRotation meshQuat]
  | None => []
  end ++ [setGravityScale 1].

Definition isGravityScaleCall (c : BodyCall) : bool :=
  match c with setGravityScale _ => true | _ => false end.

(** [p1] agrees with [p] on everything the mode dispatch reads except the
    body and the flight flag. *)
Definition sameSetup (p p1 : Player) : Prop :=
  p1.(vars).(isGrounded) = p.(vars).(isGrounded)
  /\ p1.(vars).(collider) = p.(vars).(collider)
  /\ p1.(vars).(keys) = p.(vars).(keys)
  /\ p1.(collisionMesh) = p.(collisionMesh)
  /\ p1.(oceanMode) = p.(oceanMode).

(** The answer of [OceanMode.isInOcean] for a body [b], which is also the
    new value of [isActive] (lemma [isInOcean_withBody]). *)
Definition submerged (o : OceanMode) (b : RigidBody) : bool :=
  if JsMath.leb b.(translation).(_y) o.(seaLevel) then true
  else if JsMath.ltb (o.(seaLevel) + o.(exitThreshold)) b.(translation).(_y)
       then false
       else o.(isActive).

(** First match in the order Submerged, Flying, Grounded, else Airborne. *)
Definition resolveMode (inOcean flying grounded : bool) : Component :=
  if inOcean then ByOceanMode
  else if flying then ByFlightMode
  else if grounded then ByGroundMode
  else ByAirMode.

(** The [update] method of a mode controller. *)
Definition handlerOf (m : Component) (env : Env) : Act Player unit :=
  match m with
  | ByOceanMode => OceanMode.update env
  | ByFlightMode => FlightMode.update env
  | ByGroundMode => GroundMode.update env
  | ByAirMode => AirMode.update env
  | _ => ret tt
  end.

(** What [checkGrounded] computes from the contact pairs. *)
Definition hasContact (env : Env) : bool :=
  match env.(contactPairs) with [] => false | _ => true end.

(** The player as [Player.update] hands it to the mode controller: grounded
    flag and ocean flag refreshed. *)
Definition classified (env : Env) (b : RigidBody) (p : Player) : Player :=
  set_oceanMode (set_isActive (submerged p.(oceanMode) b) p.(oceanMode))
    (onVars (set_isGrounded (hasContact env)) p).

(** The end of [Player.update], after the mode controller: the mesh follows
    the body's rotation of the start of the tick unless flying, and the
    velocity of the start of the tick is stored. *)
Definition finishTick (b : RigidBody) (p : Player) : Player :=
  onVars (set_lastVelocity b.(linvel))
    (match p.(mesh) with
     | Some _ => if negb p.(vars).(isFlying)
                 then set_mesh (Some b.(rotation)) p else p
     | None => p
     end).

(** The engine calls of [FlightMode.update] (lemma [FlightMode_update_flying]). *)
Definition flightCalls (env : Env) (p : Player) (b : RigidBody) : list BodyCall :=
  [applyImpulse (FlightMode.impulse (env.(delta) / 1000)
                   p.(vars).(currentPitch) p.(vars).(currentRoll) b);
   setAngvel (Vec3 0 0 0);
   setAngvel (Vec3 0 0 0)].

(** The engine calls of the mode controller [m] on a player with body [b],
    each with the class that makes it.  Entering the ocean while flying
    first makes the calls of the flight exit. *)
Definition handlerCalls (m : Component) (env : Env) (p : Player) (b : RigidBody)
  : list (Component * BodyCall) :=
  match m with
  | ByOceanMode =>
      if p.(vars).(isFlying) && p.(collisionMesh)
      then map (pair ByFlightMode) (flightExitCalls p)
           ++ map (pair ByOceanMode)
                  (oceanCalls p.(oceanMode) (performAll (flightExitCalls p) b))
      else map (pair ByOceanMode) (oceanCalls p.(oceanMode) b)
  | ByFlightMode => map (pair ByFlightMode) (flightCalls env p b)
  | ByGroundMode => map (pair ByGroundMode) (groundCalls env p)
  | ByAirMode => map (pair ByAirMode) (airCalls env p)
  | _ => []
  end.

Definition asEvents (calls : list (Component * BodyCall)) : Trace :=
  map (fun wc => BodyWrite (fst wc) (snd wc)) calls.


(** The gate test of one tick outside ramp mode: the player at [pos], the
    previous position [prev]. *)
Definition inGate (r : RampL) (pos : Vector3) : bool :=
  RampL.withinY r pos && RampL.withinWidth r pos.

Definition forwardAt (r : RampL) (prev pos : Vector3) : bool :=
  RampL.crossedForward (RampL.signedDistanceTo r prev) (RampL.signedDistanceTo r pos).

Definition backwardAt (r : RampL) (prev pos : Vector3) : bool :=
  RampL.crossedBackward (RampL.signedDistanceTo r prev) (RampL.signedDistanceTo r pos).

(** Two ramps with the same gate. *)
Definition sameGate (r r1 : RampL) : Prop :=
  r1.(gateCenter) = r.(gateCenter)
  /\ r1.(gateWidth) = r.(gateWidth)
  /\ r1.(gateHeight) = r.(gateHeight)
  /\ r1.(gateNormal) = r.(gateNormal)
  /\ r1.(computedGateMesh) = r.(computedGateMesh).

(** The ramp of the constructor with a previous player position recorded. *)
Definition rampWithPrevious (prev : Vector3) : RampL :=
  set_playerPreviousPos (Some prev) RampL.new.

(** A player in the air over the ramp, holding W. *)
Definition steeringPlayer : Player :=
  onVars (set_keys (mkKeys true false false false false))
         (playerOn (bodyMoving (Vec3 240 (-210) 0) (Vec3 10 0 0))).

(** A world in which the solver is armed and the player steers. *)
Definition rampWorld : World := mkWorld (Some steeringPlayer) (Some rampArmed).


(* ====================================================================== *)
(** * The states a player can be in *)
(* ====================================================================== *)

(** [createBody] has run: body, collider and collision mesh exist. *)
Definition physicsReady (p : Player) : Prop :=
  p.(vars).(body) <> None
  /\ p.(vars).(collider) = true
  /\ p.(collisionMesh) = true.

(** [createBody] has not run yet. *)
Definition physicsPending (p : Player) : Prop :=
  p.(vars).(body) = None
  /\ p.(vars).(collider) = false
  /\ p.(collisionMesh) = false.

(** The players the modelled code can produce: constructed, then any
    sequence of key events, ticks, submersion queries (the camera asks each
    tick), the engine's 'ready' event while the body is missing, and
    rewrites of an existing body by the engine's step or the ramp solver. *)
Inductive Reachable : Player -> Prop :=
| reach_new (q : Quaternion) (ready : bool) (p : Player) (t : Trace) :
    Player.new q ready = Some (tt, p, t) -> Reachable p
| reach_keydown (key : Key) (now : R) (p p1 : Player) (t : Trace) :
    Reachable p -> PlayerInput.keydown key now p = Some (tt, p1, t) ->
    Reachable p1
| reach_keyup (key : Key) (p p1 : Player) (t : Trace) :
    Reachable p -> PlayerInput.keyup key p = Some (tt, p1, t) -> Reachable p1
| reach_ready (p p1 : Player) (t : Trace) :
    Reachable p -> p.(vars).(body) = None ->
    PlayerPhysics.createBody p = Some (tt, p1, t) -> Reachable p1
| reach_update (env : Env) (p p1 : Player) (t : Trace) :
    Reachable p -> Player.update env p = Some (tt, p1, t) -> Reachable p1
| reach_isInOcean (p p1 : Player) (answer : bool) (t : Trace) :
    Reachable p -> OceanMode.isInOcean p = Some (answer, p1, t) -> Reachable p1
| reach_body (p : Player) (b b1 : RigidBody) :
    Reachable p -> p.(vars).(body) = Some b -> Reachable (withBody b1 p).

(* ====================================================================== *)
(** * RampL: the computed ramp mesh *)
(* ====================================================================== *)

(** What [createComputedRampMesh] hands to the geometry: the flat position
    array (three numbers per vertex) and the triangle indices. *)
Record RampGeometry : Type := mkRampGeometry {
  vertices : list R;
  indices  : list nat
}.

(** One pass of the vertex loop: the left edge vertex and the right edge
    vertex of row [i]. *)
Definition rampMeshRow (r : RampL) (halfWidth : R) (segments i : nat) : list R :=
  let x := (INR i / INR segments) * r.(L) in
  let y := RampL.y r x in
  (* Left edge vertex *)
  [r.(rampOrigin).(_x) + x; r.(rampOrigin).(_y) + y; r.(rampOrigin).(_z) - halfWidth]
  (* Right edge vertex *)
  ++ [r.(rampOrigin).(_x) + x; r.(rampOrigin).(_y) + y; r.(rampOrigin).(_z) + halfWidth].

(** One pass of the index loop: the two triangles of segment [i]. *)
Definition rampMeshQuad (i : nat) : list nat :=
  let baseIndex := (i * 2)%nat in
  [baseIndex; baseIndex + 1; baseIndex + 2]%nat
  ++ [baseIndex + 1; baseIndex + 3; baseIndex + 2]%nat.

(** [createComputedRampMesh ()], for the ramp's width [W] and number of
    segments [rampSegments] (fields the solver does not read):
    [for (i = 0; i <= segments; i++)] pushes the rows,
    [for (i = 0; i < segments; i++)] the triangles. *)
Definition createComputedRampMesh (r : RampL) (W : R) (rampSegments : nat)
  : RampGeometry :=
  let segments := rampSegments in
  let halfWidth := W / 2 in
  mkRampGeometry
    (flat_map (rampMeshRow r halfWidth segments) (seq 0 (S segments)))
    (flat_map rampMeshQuad (seq 0 segments)).

(** Vertex [n] of a position array with item size 3. *)
Definition vertexAt (positions : list R) (n : nat) : Vector3 :=
  Vec3 (nth (3 * n) positions 0) (nth (3 * n + 1) positions 0)
       (nth (3 * n + 2) positions 0).

(* ====================================================================== *)
(** * The follow camera: CameraVariables, the camera modes, Camera.update *)
(* ====================================================================== *)

(** [Vector3.lerp (v, alpha)]. *)
Definition lerp (a v : Vector3) (alpha : R) : Vector3 :=
  Vec3 (a.(_x) + (v.(_x) - a.(_x)) * alpha)
       (a.(_y) + (v.(_y) - a.(_y)) * alpha)
       (a.(_z) + (v.(_z) - a.(_z)) * alpha).

(** The values of [vars.mode]: 'default', 'ramp', 'flight', 'ocean'. *)
Inductive CameraModeName : Type := ModeDefault | ModeRamp | ModeFlight | ModeOcean.

Definition isRamp (m : CameraModeName) : bool :=
  match m with ModeRamp => true | _ => false end.

(** [CameraVariables]: the state shared by [Camera] and its mode
    controllers, except [target], which is the player (below). *)
Record CameraVariables : Type := mkCameraVariables {
  (** set to true to disable following *)
  devMode : bool;
  mode : CameraModeName;
  (** X position where the ramp curve starts *)
  rampThresholdX : R;
  isFreeRoam : bool;
  (** the mode before entering free roam *)
  savedMode : CameraModeName;
  savedPosition : Vector3;
  savedLookAt : Vector3;
  offset : Vector3;
  offsetDistance : R;
  offsetHeight : R;
  currentPosition : Vector3;
  currentAngle : R;
  targetAngle : R;
  positionLerpSpeed : R;
  rotationLerpSpeed : R;
  baseFov : R;
  minFov : R;
  maxFov : R;
  fovLerpSpeed : R;
  currentFov : R;
  (** speed at which the FOV reaches its maximum *)
  maxSpeedForFov : R;
  rampCameraDistance : R;
  rampCameraHeight : R;
  rampFov : R;
  (** current dynamic distance (for the HUD) *)
  currentRampDistance : R;
  rampHeightStart : R;
  rampHeightEnd : R;
  (** milliseconds *)
  rampHeightAnimDuration : R;
  rampHeightAnimStartTime : R;
  currentRampHeight : R;
  flightCameraDistance : R;
  flightCameraHeight : R;
  flightFov : R;
  flightLerpSpeed : R;
  oceanCameraDistance : R;
  oceanCameraHeight : R;
  oceanFov : R;
  oceanLerpSpeed : R
}.

Definition set_mode (v : CameraModeName) (s : CameraVariables) : CameraVariables :=
  mkCameraVariables s.(devMode) v s.(rampThresholdX) s.(isFreeRoam)
    s.(savedMode) s.(savedPosition) s.(savedLookAt) s.(offset)
    s.(offsetDistance) s.(offsetHeight) s.(currentPosition) s.(currentAngle)
    s.(targetAngle) s.(positionLerpSpeed) s.(rotationLerpSpeed) s.(baseFov)
    s.(minFov) s.(maxFov) s.(fovLerpSpeed) s.(currentFov) s.(maxSpeedForFov)
    s.(rampCameraDistance) s.(rampCameraHeight) s.(rampFov)
    s.(currentRampDistance) s.(rampHeightStart) s.(rampHeightEnd)
    s.(rampHeightAnimDuration) s.(rampHeightAnimStartTime)
    s.(currentRampHeight) s.(flightCameraDistance) s.(flightCameraHeight)
    s.(flightFov) s.(flightLerpSpeed) s.(oceanCameraDistance)
    s.(oceanCameraHeight) s.(oceanFov) s.(oceanLerpSpeed).
Definition set_isFreeRoam (v : bool) (s : CameraVariables) : CameraVariables :=
  mkCameraVariables s.(devMode) s.(mode) s.(rampThresholdX) v s.(savedMode)
    s.(savedPosition) s.(savedLookAt) s.(offset) s.(offsetDistance)
    s.(offsetHeight) s.(currentPosition) s.(currentAngle) s.(targetAngle)
    s.(positionLerpSpeed) s.(rotationLerpSpeed) s.(baseFov) s.(minFov)
    s.(maxFov) s.(fovLerpSpeed) s.(currentFov) s.(maxSpeedForFov)
    s.(rampCameraDistance) s.(rampCameraHeight) s.(rampFov)
    s.(currentRampDistance) s.(rampHeightStart) s.(rampHeightEnd)
    s.(rampHeightAnimDuration) s.(rampHeightAnimStartTime)
    s.(currentRampHeight) s.(flightCameraDistance) s.(flightCameraHeight)
    s.(flightFov) s.(flightLerpSpeed) s.(oceanCameraDistance)
    s.(oceanCameraHeight) s.(oceanFov) s.(oceanLerpSpeed).
Definition set_savedMode (v : CameraModeName) (s : CameraVariables) : CameraVariables :=
  mkCameraVariables s.(devMode) s.(mode) s.(rampThresholdX) s.(isFreeRoam) v
    s.(savedPosition) s.(savedLookAt) s.(offset) s.(offsetDistance)
    s.(offsetHeight) s.(currentPosition) s.(currentAngle) s.(targetAngle)
    s.(positionLerpSpeed) s.(rotationLerpSpeed) s.(baseFov) s.(minFov)
    s.(maxFov) s.(fovLerpSpeed) s.(currentFov) s.(maxSpeedForFov)
    s.(rampCameraDistance) s.(rampCameraHeight) s.(rampFov)
    s.(currentRampDistance) s.(rampHeightStart) s.(rampHeightEnd)
    s.(rampHeightAnimDuration) s.(rampHeightAnimStartTime)
    s.(currentRampHeight) s.(flightCameraDistance) s.(flightCameraHeight)
    s.(flightFov) s.(flightLerpSpeed) s.(oceanCameraDistance)
    s.(oceanCameraHeight) s.(oceanFov) s.(oceanLerpSpeed).
Definition set_savedPosition (v : Vector3) (s : CameraVariables) : CameraVariables :=
  mkCameraVariables s.(devMode) s.(mode) s.(rampThresholdX) s.(isFreeRoam)
    s.(savedMode) v s.(savedLookAt) s.(offset) s.(offsetDistance)
    s.(offsetHeight) s.(currentPosition) s.(currentAngle) s.(targetAngle)
    s.(positionLerpSpeed) s.(rotationLerpSpeed) s.(baseFov) s.(minFov)
    s.(maxFov) s.(fovLerpSpeed) s.(currentFov) s.(maxSpeedForFov)
    s.(rampCameraDistance) s.(rampCameraHeight) s.(rampFov)
    s.(currentRampDistance) s.(rampHeightStart) s.(rampHeightEnd)
    s.(rampHeightAnimDuration) s.(rampHeightAnimStartTime)
    s.(currentRampHeight) s.(flightCameraDistance) s.(flightCameraHeight)
    s.(flightFov) s.(flightLerpSpeed) s.(oceanCameraDistance)
    s.(oceanCameraHeight) s.(oceanFov) s.(oceanLerpSpeed).
Definition set_savedLookAt (v : Vector3) (s : CameraVariables) : CameraVariables :=
  mkCameraVariables s.(devMode) s.(mode) s.(rampThresholdX) s.(isFreeRoam)
    s.(savedMode) s.(savedPosition) v s.(offset) s.(offsetDistance)
    s.(offsetHeight) s.(currentPosition) s.(currentAngle) s.(targetAngle)
    s.(positionLerpSpeed) s.(rotationLerpSpeed) s.(baseFov) s.(minFov)
    s.(maxFov) s.(fovLerpSpeed) s.(currentFov) s.(maxSpeedForFov)
    s.(rampCameraDistance) s.(rampCameraHeight) s.(rampFov)
    s.(currentRampDistance) s.(rampHeightStart) s.(rampHeightEnd)
    s.(rampHeightAnimDuration) s.(rampHeightAnimStartTime)
    s.(currentRampHeight) s.(flightCameraDistance) s.(flightCameraHeight)
    s.(flightFov) s.(flightLerpSpeed) s.(oceanCameraDistance)
    s.(oceanCameraHeight) s.(oceanFov) s.(oceanLerpSpeed).
Definition set_currentPosition (v : Vector3) (s : CameraVariables) : CameraVariables :=
  mkCameraVariables s.(devMode) s.(mode) s.(rampThresholdX) s.(isFreeRoam)
    s.(savedMode) s.(savedPosition) s.(savedLookAt) s.(offset)
    s.(offsetDistance) s.(offsetHeight) v s.(currentAngle) s.(targetAngle)
    s.(positionLerpSpeed) s.(rotationLerpSpeed) s.(baseFov) s.(minFov)
    s.(maxFov) s.(fovLerpSpeed) s.(currentFov) s.(maxSpeedForFov)
    s.(rampCameraDistance) s.(rampCameraHeight) s.(rampFov)
    s.(currentRampDistance) s.(rampHeightStart) s.(rampHeightEnd)
    s.(rampHeightAnimDuration) s.(rampHeightAnimStartTime)
    s.(currentRampHeight) s.(flightCameraDistance) s.(flightCameraHeight)
    s.(flightFov) s.(flightLerpSpeed) s.(oceanCameraDistance)
    s.(oceanCameraHeight) s.(oceanFov) s.(oceanLerpSpeed).
Definition set_currentAngle (v : R) (s : CameraVariables) : CameraVariables :=
  mkCameraVariables s.(devMode) s.(mode) s.(rampThresholdX) s.(isFreeRoam)
    s.(savedMode) s.(savedPosition) s.(savedLookAt) s.(offset)
    s.(offsetDistance) s.(offsetHeight) s.(currentPosition) v s.(targetAngle)
    s.(positionLerpSpeed) s.(rotationLerpSpeed) s.(baseFov) s.(minFov)
    s.(maxFov) s.(fovLerpSpeed) s.(currentFov) s.(maxSpeedForFov)
    s.(rampCameraDistance) s.(rampCameraHeight) s.(rampFov)
    s.(currentRampDistance) s.(rampHeightStart) s.(rampHeightEnd)
    s.(rampHeightAnimDuration) s.(rampHeightAnimStartTime)
    s.(currentRampHeight) s.(flightCameraDistance) s.(flightCameraHeight)
    s.(flightFov) s.(flightLerpSpeed) s.(oceanCameraDistance)
    s.(oceanCameraHeight) s.(oceanFov) s.(oceanLerpSpeed).
Definition set_targetAngle (v : R) (s : CameraVariables) : CameraVariables :=
  mkCameraVariables s.(devMode) s.(mode) s.(rampThresholdX) s.(isFreeRoam)
    s.(savedMode) s.(savedPosition) s.(savedLookAt) s.(offset)
    s.(offsetDistance) s.(offsetHeight) s.(currentPosition) s.(currentAngle)
    v s.(positionLerpSpeed) s.(rotationLerpSpeed) s.(baseFov) s.(minFov)
    s.(maxFov) s.(fovLerpSpeed) s.(currentFov) s.(maxSpeedForFov)
    s.(rampCameraDistance) s.(rampCameraHeight) s.(rampFov)
    s.(currentRampDistance) s.(rampHeightStart) s.(rampHeightEnd)
    s.(rampHeightAnimDuration) s.(rampHeightAnimStartTime)
    s.(currentRampHeight) s.(flightCameraDistance) s.(flightCameraHeight)
    s.(flightFov) s.(flightLerpSpeed) s.(oceanCameraDistance)
    s.(oceanCameraHeight) s.(oceanFov) s.(oceanLerpSpeed).
Definition set_currentFov (v : R) (s : CameraVariables) : CameraVariables :=
  mkCameraVariables s.(devMode) s.(mode) s.(rampThresholdX) s.(isFreeRoam)
    s.(savedMode) s.(savedPosition) s.(savedLookAt) s.(offset)
    s.(offsetDistance) s.(offsetHeight) s.(currentPosition) s.(currentAngle)
    s.(targetAngle) s.(positionLerpSpeed) s.(rotationLerpSpeed) s.(baseFov)
    s.(minFov) s.(maxFov) s.(fovLerpSpeed) v s.(maxSpeedForFov)
    s.(rampCameraDistance) s.(rampCameraHeight) s.(rampFov)
    s.(currentRampDistance) s.(rampHeightStart) s.(rampHeightEnd)
    s.(rampHeightAnimDuration) s.(rampHeightAnimStartTime)
    s.(currentRampHeight) s.(flightCameraDistance) s.(flightCameraHeight)
    s.(flightFov) s.(flightLerpSpeed) s.(oceanCameraDistance)
    s.(oceanCameraHeight) s.(oceanFov) s.(oceanLerpSpeed).
Definition set_rampCameraDistance (v : R) (s : CameraVariables) : CameraVariables :=
  mkCameraVariables s.(devMode) s.(mode) s.(rampThresholdX) s.(isFreeRoam)
    s.(savedMode) s.(savedPosition) s.(savedLookAt) s.(offset)
    s.(offsetDistance) s.(offsetHeight) s.(currentPosition) s.(currentAngle)
    s.(targetAngle) s.(positionLerpSpeed) s.(rotationLerpSpeed) s.(baseFov)
    s.(minFov) s.(maxFov) s.(fovLerpSpeed) s.(currentFov) s.(maxSpeedForFov)
    v s.(rampCameraHeight) s.(rampFov) s.(currentRampDistance)
    s.(rampHeightStart) s.(rampHeightEnd) s.(rampHeightAnimDuration)
    s.(rampHeightAnimStartTime) s.(currentRampHeight)
    s.(flightCameraDistance) s.(flightCameraHeight) s.(flightFov)
    s.(flightLerpSpeed) s.(oceanCameraDistance) s.(oceanCameraHeight)
    s.(oceanFov) s.(oceanLerpSpeed).
Definition set_rampHeightAnimStartTime (v : R) (s : CameraVariables) : CameraVariables :=
  mkCameraVariables s.(devMode) s.(mode) s.(rampThresholdX) s.(isFreeRoam)
    s.(savedMode) s.(savedPosition) s.(savedLookAt) s.(offset)
    s.(offsetDistance) s.(offsetHeight) s.(currentPosition) s.(currentAngle)
    s.(targetAngle) s.(positionLerpSpeed) s.(rotationLerpSpeed) s.(baseFov)
    s.(minFov) s.(maxFov) s.(fovLerpSpeed) s.(currentFov) s.(maxSpeedForFov)
    s.(rampCameraDistance) s.(rampCameraHeight) s.(rampFov)
    s.(currentRampDistance) s.(rampHeightStart) s.(rampHeightEnd)
    s.(rampHeightAnimDuration) v s.(currentRampHeight)
    s.(flightCameraDistance) s.(flightCameraHeight) s.(flightFov)
    s.(flightLerpSpeed) s.(oceanCameraDistance) s.(oceanCameraHeight)
    s.(oceanFov) s.(oceanLerpSpeed).
Definition set_currentRampHeight (v : R) (s : CameraVariables) : CameraVariables :=
  mkCameraVariables s.(devMode) s.(mode) s.(rampThresholdX) s.(isFreeRoam)
    s.(savedMode) s.(savedPosition) s.(savedLookAt) s.(offset)
    s.(offsetDistance) s.(offsetHeight) s.(currentPosition) s.(currentAngle)
    s.(targetAngle) s.(positionLerpSpeed) s.(rotationLerpSpeed) s.(baseFov)
    s.(minFov) s.(maxFov) s.(fovLerpSpeed) s.(currentFov) s.(maxSpeedForFov)
    s.(rampCameraDistance) s.(rampCameraHeight) s.(rampFov)
    s.(currentRampDistance) s.(rampHeightStart) s.(rampHeightEnd)
    s.(rampHeightAnimDuration) s.(rampHeightAnimStartTime) v
    s.(flightCameraDistance) s.(flightCameraHeight) s.(flightFov)
    s.(flightLerpSpeed) s.(oceanCameraDistance) s.(oceanCameraHeight)
    s.(oceanFov) s.(oceanLerpSpeed).
Definition set_currentRampDistance (v : R) (s : CameraVariables) : CameraVariables :=
  mkCameraVariables s.(devMode) s.(mode) s.(rampThresholdX) s.(isFreeRoam)
    s.(savedMode) s.(savedPosition) s.(savedLookAt) s.(offset)
    s.(offsetDistance) s.(offsetHeight) s.(currentPosition) s.(currentAngle)
    s.(targetAngle) s.(positionLerpSpeed) s.(rotationLerpSpeed) s.(baseFov)
    s.(minFov) s.(maxFov) s.(fovLerpSpeed) s.(currentFov) s.(maxSpeedForFov)
    s.(rampCameraDistance) s.(rampCameraHeight) s.(rampFov) v
    s.(rampHeightStart) s.(rampHeightEnd) s.(rampHeightAnimDuration)
    s.(rampHeightAnimStartTime) s.(currentRampHeight)
    s.(flightCameraDistance) s.(flightCameraHeight) s.(flightFov)
    s.(flightLerpSpeed) s.(oceanCameraDistance) s.(oceanCameraHeight)
    s.(oceanFov) s.(oceanLerpSpeed).

Module CameraVariables.

(** The constructor. *)
Definition new : CameraVariables :=
  mkCameraVariables
    false                  (* devMode *)
    ModeDefault            (* mode *)
    10                     (* rampThresholdX *)
    false                  (* isFreeRoam *)
    ModeDefault            (* savedMode *)
    (Vec3 0 0 0)           (* savedPosition *)
    (Vec3 0 0 0)           (* savedLookAt *)
    (Vec3 0 3 (-10))       (* offset *)
    10                     (* offsetDistance *)
    2.5                    (* offsetHeight *)
    (Vec3 (-10) 2.5 0)     (* currentPosition: behind the spawn point *)
    (- PI / 2)             (* currentAngle *)
    (- PI / 2)             (* targetAngle *)
    0.02                   (* positionLerpSpeed *)
    0.02                   (* rotationLerpSpeed *)
    35                     (* baseFov *)
    25                     (* minFov *)
    40                     (* maxFov *)
    0.03                   (* fovLerpSpeed *)
    35                     (* currentFov = baseFov *)
    8                      (* maxSpeedForFov *)
    5                      (* rampCameraDistance *)
    3                      (* rampCameraHeight *)
    25                     (* rampFov *)
    10                     (* currentRampDistance *)
    2.5                    (* rampHeightStart *)
    1.0                    (* rampHeightEnd *)
    3000                   (* rampHeightAnimDuration *)
    0                      (* rampHeightAnimStartTime *)
    2.5                    (* currentRampHeight = rampHeightStart *)
    8                      (* flightCameraDistance *)
    1                      (* flightCameraHeight *)
    50                     (* flightFov *)
    0.05                   (* flightLerpSpeed *)
    5                      (* oceanCameraDistance *)
    3                      (* oceanCameraHeight *)
    50                     (* oceanFov *)
    0.005.                 (* oceanLerpSpeed *)

End CameraVariables.

(** The orientation of the three.js camera, by the call that set it last:
    [lookAt (target)] or [quaternion.set (...)]. *)
Inductive Orientation : Type :=
| LookAt (target : Vector3)
| Rotation (q : Quaternion).

(** [camera.instance], a [THREE.PerspectiveCamera]. *)
Record PerspectiveCamera : Type := mkPerspectiveCamera {
  position    : Vector3;
  fov         : R;
  orientation : Orientation
}.

Definition set_position (v : Vector3) (i : PerspectiveCamera) : PerspectiveCamera :=
  mkPerspectiveCamera v i.(fov) i.(orientation).
Definition set_fov (v : R) (i : PerspectiveCamera) : PerspectiveCamera :=
  mkPerspectiveCamera i.(position) v i.(orientation).
Definition set_orientation (v : Orientation) (i : PerspectiveCamera) : PerspectiveCamera :=
  mkPerspectiveCamera i.(position) i.(fov) v.

(** The orbit controls of free roam, as far as the code sets them. *)
Record OrbitControls : Type := mkOrbitControls {
  enabled     : bool;
  (** [controls.target] *)
  orbitTarget : Vector3
}.

(** [Camera] with its free roam controller.  [freeRoamControls] is
    [freeRoamMode.controls]; [controls] tells whether [camera.controls]
    has been pointed at the same object. *)
Record Camera : Type := mkCamera {
  camVars          : CameraVariables;
  instance         : PerspectiveCamera;
  freeRoamControls : option OrbitControls;
  controls         : bool
}.

Definition onCamVars (f : CameraVariables -> CameraVariables) (c : Camera) : Camera :=
  mkCamera (f c.(camVars)) c.(instance) c.(freeRoamControls) c.(controls).
Definition onInstance (f : PerspectiveCamera -> PerspectiveCamera) (c : Camera) : Camera :=
  mkCamera c.(camVars) (f c.(instance)) c.(freeRoamControls) c.(controls).
Definition set_freeRoamControls (v : option OrbitControls) (c : Camera) : Camera :=
  mkCamera c.(camVars) c.(instance) v c.(controls).
Definition set_controls (v : bool) (c : Camera) : Camera :=
  mkCamera c.(camVars) c.(instance) c.(freeRoamControls) v.

(** [vars.target]: the player, with the position of its group (which
    [PlayerPhysics.updateVisuals] moves to the body's position). *)
Record Target : Type := mkTarget {
  followed : Player;
  (** [target.group.position] *)
  group    : Vector3
}.

Module DefaultCameraMode.

(** [while (angleDiff > Math.PI) angleDiff -= Math.PI * 2], for at most
    [rounds] rounds. *)
Fixpoint wrapDown (rounds : nat) (angleDiff : R) : R :=
  match rounds with
  | O => angleDiff
  | Datatypes.S n =>
      if JsMath.ltb PI angleDiff then wrapDown n (angleDiff - PI * 2) else angleDiff
  end.

(** [while (angleDiff < -Math.PI) angleDiff += Math.PI * 2], for at most
    [rounds] rounds. *)
Fixpoint wrapUp (rounds : nat) (angleDiff : R) : R :=
  match rounds with
  | O => angleDiff
  | Datatypes.S n =>
      if JsMath.ltb angleDiff (- PI) then wrapUp n (angleDiff + PI * 2) else angleDiff
  end.

(** A number of rounds after which either loop has stopped. *)
Definition enoughRounds (angleDiff : R) : nat :=
  Z.to_nat (up (Rabs angleDiff / (PI * 2))).

(** The two loops in sequence: the angle difference normalized to
    [-PI, PI]. *)
Definition wrapAngle (angleDiff : R) : R :=
  let a1 := wrapDown (enoughRounds angleDiff) angleDiff in
  wrapUp (enoughRounds a1) a1.

(** [update ()]: the standard follow camera. *)
Definition update (target : option Target) (c : Camera) : Camera :=
  match target with
  | None => c
  | Some t =>
      match t.(followed).(vars).(body) with
      | None => c
      | Some b =>
          let v := c.(camVars) in
          let targetPos := t.(group) in
          let velocity := b.(linvel) in
          let velocityVec := Vec3 velocity.(_x) velocity.(_y) velocity.(_z) in
          let speed := length velocityVec in
          (* Calculate target angle based on velocity direction *)
          let v1 :=
            if JsMath.ltb 0.1 speed
            then set_targetAngle
                   (JsMath.atan2 velocityVec.(_x) velocityVec.(_z) + PI) v
            else v in
          (* Interpolate angle (handle wrapping) *)
          let angleDiff := wrapAngle (v1.(targetAngle) - v1.(currentAngle)) in
          let v2 :=
            set_currentAngle
              (v1.(currentAngle) + angleDiff * v1.(rotationLerpSpeed)) v1 in
          (* Calculate camera position from angle *)
          let targetCameraPos :=
            Vec3 (targetPos.(_x) + sin v2.(currentAngle) * v2.(offsetDistance))
                 (targetPos.(_y) + v2.(offsetHeight))
                 (targetPos.(_z) + cos v2.(currentAngle) * v2.(offsetDistance)) in
          (* Smoothly interpolate to target position *)
          let v3 :=
            set_currentPosition
              (lerp v2.(currentPosition) targetCameraPos v2.(positionLerpSpeed)) v2 in
          let i1 := set_position v3.(currentPosition) c.(instance) in
          (* Adjust FOV based on speed *)
          let speedRatio := JsMath.min (speed / v3.(maxSpeedForFov)) 1 in
          let targetFov := v3.(minFov) + (v3.(maxFov) - v3.(minFov)) * speedRatio in
          let v4 :=
            set_currentFov
              (v3.(currentFov) + (targetFov - v3.(currentFov)) * v3.(fovLerpSpeed))
              v3 in
          let i2 := set_fov v4.(currentFov) i1 in
          (* Look at the sphere *)
          let i3 := set_orientation (LookAt targetPos) i2 in
          mkCamera v4 i3 c.(freeRoamControls) c.(controls)
      end
  end.

End DefaultCameraMode.

Module RampCameraMode.

(** [onEnter ()]. *)
Definition onEnter (env : Env) (c : Camera) : Camera :=
  onCamVars (fun v =>
    set_currentRampHeight v.(rampHeightStart)
      (set_rampHeightAnimStartTime env.(now)
         (set_rampCameraDistance 10 v))) c.

(** [update ()]: follows along the velocity tangent. *)
Definition update (env : Env) (target : option Target) (c : Camera) : Camera :=
  match target with
  | None => c
  | Some t =>
      match t.(followed).(vars).(body) with
      | None => c
      | Some b =>
          let v := c.(camVars) in
          let targetPos := t.(group) in
          let velocity := b.(linvel) in
          let velocityVec := Vec3 velocity.(_x) velocity.(_y) velocity.(_z) in
          let speed := length velocityVec in
          (* Animate height over time *)
          let elapsedTime := env.(now) - v.(rampHeightAnimStartTime) in
          let progress := JsMath.min (elapsedTime / v.(rampHeightAnimDuration)) 1 in
          (* Smooth easing function (ease-out) *)
          let easedProgress := 1 - (1 - progress) ^ 3 in
          let v1 :=
            set_currentRampHeight
              (v.(rampHeightStart)
               + (v.(rampHeightEnd) - v.(rampHeightStart)) * easedProgress) v in
          (* Velocity-based camera adjustments (20 m/s to 120 m/s) *)
          let minSpeed := 20 in
          let maxSpeed := 120 in
          let speedRatio :=
            JsMath.min
              (JsMath.max ((speed - minSpeed) / (maxSpeed - minSpeed)) 0) 1 in
          (* Distance: from 10 to 0.2 over time *)
          let targetDistance := 0.2 in
          let startDistance := 10 in
          let distanceProgress :=
            JsMath.min (elapsedTime / v1.(rampHeightAnimDuration)) 1 in
          let v2 :=
            set_currentRampDistance
              (startDistance + (targetDistance - startDistance) * distanceProgress)
              v1 in
          (* Increase lerp speed at high velocities *)
          let dynamicLerpSpeed := 0.02 + (0.15 * speedRatio) in
          (* FOV: 25 at 20 m/s, 100 at 120 m/s *)
          let minRampFov := 25 in
          let maxRampFov := 100 in
          let dynamicFov := minRampFov + (maxRampFov - minRampFov) * speedRatio in
          (* Direction opposite to velocity (behind the ball) *)
          let '(v3, i1) :=
            if JsMath.ltb 0.1 (length velocityVec) then
              let backwardDir := multiplyScalar (normalize velocityVec) (-1) in
              let along :=
                add targetPos (multiplyScalar backwardDir v2.(currentRampDistance)) in
              let targetCameraPos :=
                Vec3 along.(_x) (along.(_y) + v2.(currentRampHeight)) along.(_z) in
              let v' :=
                set_currentPosition
                  (lerp v2.(currentPosition) targetCameraPos dynamicLerpSpeed) v2 in
              (v', set_position v'.(currentPosition) c.(instance))
            else (v2, c.(instance)) in
          (* Dynamic FOV based on speed *)
          let targetFov := dynamicFov in
          let v4 :=
            set_currentFov
              (v3.(currentFov) + (targetFov - v3.(currentFov)) * v3.(fovLerpSpeed))
              v3 in
          let i2 := set_fov v4.(currentFov) i1 in
          (* Look at the sphere *)
          let i3 := set_orientation (LookAt targetPos) i2 in
          mkCamera v4 i3 c.(freeRoamControls) c.(controls)
      end
  end.

End RampCameraMode.

Module FlightCameraMode.

(** [update ()]: wide angle, follows from further back. *)
Definition update (target : option Target) (c : Camera) : Camera :=
  match target with
  | None => c
  | Some t =>
      match t.(followed).(vars).(body) with
      | None => c
      | Some b =>
          let v := c.(camVars) in
          let targetPos := t.(group) in
          let velocity := b.(linvel) in
          let velocityVec := Vec3 velocity.(_x) velocity.(_y) velocity.(_z) in
          (* Direction opposite to velocity (behind the ball) *)
          let '(v1, i1) :=
            if JsMath.ltb 0.1 (length velocityVec) then
              let backwardDir := multiplyScalar (normalize velocityVec) (-1) in
              let along :=
                add targetPos (multiplyScalar backwardDir v.(flightCameraDistance)) in
              let targetCameraPos :=
                Vec3 along.(_x) (along.(_y) + v.(flightCameraHeight)) along.(_z) in
              let v' :=
                set_currentPosition
                  (lerp v.(currentPosition) targetCameraPos v.(flightLerpSpeed)) v in
              (v', set_position v'.(currentPosition) c.(instance))
            else (v, c.(instance)) in
          (* Set flight FOV *)
          let targetFov := v1.(flightFov) in
          let v2 :=
            set_currentFov
              (v1.(currentFov) + (targetFov - v1.(currentFov)) * v1.(fovLerpSpeed))
              v1 in
          let i2 := set_fov v2.(currentFov) i1 in
          (* Look at the sphere *)
          let i3 := set_orientation (LookAt targetPos) i2 in
          mkCamera v2 i3 c.(freeRoamControls) c.(controls)
      end
  end.

End FlightCameraMode.

Module OceanCameraMode.

(** [update ()]: a fixed offset from the ball, whatever its velocity. *)
Definition update (target : option Target) (c : Camera) : Camera :=
  match target with
  | None => c
  | Some t =>
      let v := c.(camVars) in
      let targetPos := t.(group) in
      (* Fixed offset (behind and above the ball) *)
      let targetCameraPos :=
        Vec3 (targetPos.(_x) - v.(oceanCameraDistance))
             (targetPos.(_y) + v.(oceanCameraHeight))
             (targetPos.(_z) + v.(oceanCameraDistance)) in
      (* Smoothly interpolate to target position *)
      let v1 :=
        set_currentPosition
          (lerp v.(currentPosition) targetCameraPos v.(oceanLerpSpeed)) v in
      let i1 := set_position v1.(currentPosition) c.(instance) in
      (* Set ocean FOV *)
      let targetFov := v1.(oceanFov) in
      let v2 :=
        set_currentFov
          (v1.(currentFov) + (targetFov - v1.(currentFov)) * v1.(fovLerpSpeed)) v1 in
      let i2 := set_fov v2.(currentFov) i1 in
      (* Look at the sphere *)
      let i3 := set_orientation (LookAt targetPos) i2 in
      mkCamera v2 i3 c.(freeRoamControls) c.(controls)
  end.

End OceanCameraMode.

Module FreeRoamMode.

(** [controls.update ()]: what the orbit controls do to the camera is
    given from outside ([orbit]: the pointer input and the damping). *)
Definition controlsUpdate (orbit : PerspectiveCamera -> PerspectiveCamera)
    (c : Camera) : Camera :=
  onInstance orbit c.

(** [enter ()].  [env.(worldDirection)] is what
    [camera.instance.getWorldDirection] returns. *)
Definition enter (env : Env) (orbit : PerspectiveCamera -> PerspectiveCamera)
    (c : Camera) : Camera :=
  (* Entering free roam mode *)
  let c1 := onCamVars (fun v => set_savedMode v.(mode) v) c in
  let c2 := onCamVars (set_savedPosition c1.(instance).(position)) c1 in
  (* Calculate current look-at point *)
  let forward := env.(worldDirection) in
  let c3 :=
    onCamVars (set_savedLookAt
                 (add c2.(instance).(position) (multiplyScalar forward 10))) c2 in
  (* Create orbit controls if they don't exist *)
  let c4 :=
    match c3.(freeRoamControls) with
    | Some _ => c3
    | None => set_freeRoamControls (Some (mkOrbitControls true (Vec3 0 0 0))) c3
    end in
  (* Set default free roam position and rotation *)
  let c5 := onInstance (set_position (Vec3 44 21 (-70))) c4 in
  let c6 :=
    onInstance (set_orientation (Rotation (Quat (-0.035) 0.951 0.117 0.284))) c5 in
  (* Calculate the target based on the camera's direction *)
  let lookDirection :=
    applyQuaternion (Vec3 0 0 (-1)) (Quat (-0.035) 0.951 0.117 0.284) in
  let targetDistance := 100 in
  let orbitAt :=
    add c6.(instance).(position) (multiplyScalar lookDirection targetDistance) in
  let c7 := set_freeRoamControls (Some (mkOrbitControls true orbitAt)) c6 in
  let c8 := controlsUpdate orbit c7 in
  (* Store controls reference on camera for dev mode *)
  set_controls true c8.

(** [exit ()]. *)
Definition exit (c : Camera) : Camera :=
  let c1 :=
    match c.(freeRoamControls) with
    | Some oc => set_freeRoamControls (Some (mkOrbitControls false oc.(orbitTarget))) c
    | None => c
    end in
  (* Restore previous mode *)
  let c2 := onCamVars (fun v => set_mode v.(savedMode) v) c1 in
  onCamVars (fun v => set_currentPosition v.(savedPosition) v) c2.

(** [toggle ()], bound to the R key. *)
Definition toggle (env : Env) (orbit : PerspectiveCamera -> PerspectiveCamera)
    (c : Camera) : Camera :=
  let c1 := onCamVars (fun v => set_isFreeRoam (negb v.(isFreeRoam)) v) c in
  if c1.(camVars).(isFreeRoam) then enter env orbit c1 else exit c1.

(** [update ()]. *)
Definition update (orbit : PerspectiveCamera -> PerspectiveCamera)
    (c : Camera) : Camera :=
  match c.(freeRoamControls) with
  | Some oc => if oc.(enabled) then controlsUpdate orbit c else c
  | None => c
  end.

End FreeRoamMode.

(** The class [Camera] itself: constructor, [setTarget] and [update].  (The
    module [Camera] above holds its two direction getters.) *)
Module CameraRig.

(** [setInstance ()]. *)
Definition setInstance (v : CameraVariables) : PerspectiveCamera :=
  if v.(devMode)
  then mkPerspectiveCamera (Vec3 0 10 15) 35 (LookAt (Vec3 0 0 0))
  else mkPerspectiveCamera v.(currentPosition) 35 (Rotation (Quat 0 0 0 1)).

(** The constructor: fresh variables, the camera instance, and free roam
    switched on. *)
Definition new (env : Env) (orbit : PerspectiveCamera -> PerspectiveCamera)
  : Camera :=
  let vars0 := CameraVariables.new in
  FreeRoamMode.toggle env orbit (mkCamera vars0 (setInstance vars0) None false).

Definition onCamera (f : Camera -> Camera) : Act (Camera * option Target) unit :=
  modify (fun s => (f (fst s), snd s)).

(** The getter [target.isInOcean], which runs [OceanMode.isInOcean] on the
    player. *)
Definition targetIsInOcean : Act (Camera * option Target) bool :=
  fun s =>
    match snd s with
    | None => None
    | Some t =>
        match OceanMode.isInOcean t.(followed) with
        | None => None
        | Some (answer, p1, tr) =>
            Some (answer, (fst s, Some (mkTarget p1 t.(group))), tr)
        end
    end.

(** [update ()]. *)
Definition update (env : Env) (orbit : PerspectiveCamera -> PerspectiveCamera)
  : Act (Camera * option Target) unit :=
  s <- get ;;
  let c := fst s in
  (* Skip camera updates in dev mode *)
  if c.(camVars).(devMode) then
    when c.(controls) (onCamera (FreeRoamMode.controlsUpdate orbit))
  else
  (* Handle free roam mode *)
  if c.(camVars).(isFreeRoam) then onCamera (FreeRoamMode.update orbit)
  else
  match snd s with
  | None => ret tt
  | Some target =>
      match target.(followed).(vars).(body) with
      | None => ret tt
      | Some _ =>
          (* Determine camera mode based on ball position and flight state *)
          let ballX := target.(group).(_x) in
          let previousMode := c.(camVars).(mode) in
          (* Ocean mode takes priority, flight mode next *)
          inOcean <- targetIsInOcean ;;
          (if inOcean then onCamera (onCamVars (set_mode ModeOcean))
           else if target.(followed).(vars).(isFlying)
                then onCamera (onCamVars (set_mode ModeFlight))
           else if JsMath.ltb c.(camVars).(rampThresholdX) ballX
                then onCamera (onCamVars (set_mode ModeRamp))
           else onCamera (onCamVars (set_mode ModeDefault))) ;;
          (* On first frame entering ramp mode, trigger onEnter.  Its
             reading of the clock and that of the mode's update below are
             taken in the same millisecond here; the two readings are kept
             apart where the animation is stated. *)
          s1 <- get ;;
          when (isRamp (fst s1).(camVars).(mode) && negb (isRamp previousMode))
            (onCamera (RampCameraMode.onEnter env)) ;;
          (* Update based on mode *)
          s2 <- get ;;
          match (fst s2).(camVars).(mode) with
          | ModeDefault =>
              modify (fun s => (DefaultCameraMode.update (snd s) (fst s), snd s))
          | ModeRamp =>
              modify (fun s => (RampCameraMode.update env (snd s) (fst s), snd s))
          | ModeFlight =>
              modify (fun s => (FlightCameraMode.update (snd s) (fst s), snd s))
          | ModeOcean =>
              modify (fun s => (OceanCameraMode.update (snd s) (fst s), snd s))
          end
      end
  end.

End CameraRig.

(** ** The camera's tick, stated directly *)

(** The mode [Camera.update] resolves: first match ocean, flight, ramp
    (the ball beyond the ramp threshold), else default. *)
Definition cameraModeFor (inOcean flying : bool) (rampThresholdX ballX : R)
  : CameraModeName :=
  if inOcean then ModeOcean
  else if flying then ModeFlight
  else if JsMath.ltb rampThresholdX ballX then ModeRamp
  else ModeDefault.

(** The [update] of the mode controller for mode [m]. *)
Definition cameraModeUpdate (m : CameraModeName) (env : Env)
    (target : option Target) (c : Camera) : Camera :=
  match m with
  | ModeDefault => DefaultCameraMode.update target c
  | ModeRamp => RampCameraMode.update env target c
  | ModeFlight => FlightCameraMode.update target c
  | ModeOcean => OceanCameraMode.update target c
  end.

(** The camera after a following tick that resolves mode [m] (lemma
    [CameraRig_update_follow]). *)
Definition followTick (m : CameraModeName) (env : Env) (target : option Target)
    (c : Camera) : Camera :=
  let c1 := onCamVars (set_mode m) c in
  let c2 :=
    if isRamp m && negb (isRamp c.(camVars).(mode))
    then RampCameraMode.onEnter env c1 else c1 in
  cameraModeUpdate m env target c2.

(** The camera of the constructor with free roam switched off again (R
    pressed once), following a player. *)
Definition followingCamera : Camera :=
  FreeRoamMode.toggle tick16 (fun i => i) (CameraRig.new tick16 (fun i => i)).

(** Running the ocean camera for [n] ticks on a target that does not move. *)
Definition oceanCameraRun (n : nat) (target : Target) (c : Camera) : Camera :=
  Nat.iter n (OceanCameraMode.update (Some target)) c.

(* ====================================================================== *)
(** * PlayerVisuals: the velocity trail of the graph overlay *)
(* ====================================================================== *)

(** [Vector3.clampLength (min, max)]. *)
Definition clampLength (a : Vector3) (lo hi : R) : Vector3 :=
  let l := length a in
  multiplyScalar (multiplyScalar a (1 / JsMath.orElse l 1))
                 (JsMath.max lo (JsMath.min hi l)).

(** A point of the trail.  [trailMesh] is the opacity of the material of
    the point's sphere, once [renderGraph] has created it. *)
Record TrailPoint : Type := mkTrailPoint {
  trailPosition : Vector3;
  trailTime     : R;
  trailMesh     : option R
}.

(** The arrow of the graph: its direction and its length. *)
Record Arrow : Type := mkArrow { arrowDirection : Vector3; arrowLength : R }.

(** [PlayerVisuals], as far as the velocity graph goes.  The arrow, the
    graph scene and the graph camera exist once [setupVelocityGraph] has
    run. *)
Record PlayerVisuals : Type := mkPlayerVisuals {
  velocityTrail      : list TrailPoint;
  maxTrailLength     : nat;
  trailFadeTime      : R;
  graphVelocityArrow : option Arrow;
  (** [player.graphScene] and [player.graphCamera] exist *)
  graphReady         : bool
}.

Definition set_velocityTrail (v : list TrailPoint) (s : PlayerVisuals) : PlayerVisuals :=
  mkPlayerVisuals v s.(maxTrailLength) s.(trailFadeTime) s.(graphVelocityArrow)
    s.(graphReady).
Definition set_graphVelocityArrow (v : option Arrow) (s : PlayerVisuals) : PlayerVisuals :=
  mkPlayerVisuals s.(velocityTrail) s.(maxTrailLength) s.(trailFadeTime) v
    s.(graphReady).

Module PlayerVisuals.

(** The constructor followed by [setupVelocityGraph ()]. *)
Definition new : PlayerVisuals :=
  mkPlayerVisuals [] 500 5000 (Some (mkArrow (Vec3 1 0 0) 1)) true.

(** [while (trail.length > maxTrailLength) trail.shift ()]. *)
Fixpoint limitTrail (maxLength : nat) (trail : list TrailPoint) : list TrailPoint :=
  match trail with
  | [] => []
  | oldest :: rest =>
      if (maxLength <? List.length trail)%nat then limitTrail maxLength rest
      else trail
  end.

(** [updateVelocityGraph (velocity, velocityMagnitude)]. *)
Definition updateVelocityGraph (env : Env) (velocity : Vector3)
    (velocityMagnitude : R) (s : PlayerVisuals) : PlayerVisuals :=
  match s.(graphVelocityArrow) with
  | None => s
  | Some _ =>
      if JsMath.leb velocityMagnitude 0.01 then s else
      let currentVelocity := Vec3 velocity.(_x) velocity.(_y) velocity.(_z) in
      let velDir := normalize currentVelocity in
      let graphScale := JsMath.min (velocityMagnitude / 10) 2 in
      let s1 := set_graphVelocityArrow (Some (mkArrow velDir graphScale)) s in
      (* Add trail point *)
      let scaledVel := clampLength (multiplyScalar currentVelocity 0.1) 0 2 in
      let s2 :=
        set_velocityTrail
          (s1.(velocityTrail) ++ [mkTrailPoint scaledVel env.(now) None]) s1 in
      (* Limit trail length *)
      set_velocityTrail (limitTrail s2.(maxTrailLength) s2.(velocityTrail)) s2
  end.

(** The loop of [renderGraph] over the trail: points as old as the fade
    time are dropped, the others get their opacity. *)
Fixpoint processTrail (currentTime fadeTime : R) (trail : list TrailPoint)
  : list TrailPoint :=
  match trail with
  | [] => []
  | point :: rest =>
      let age := currentTime - point.(trailTime) in
      if JsMath.leb fadeTime age then processTrail currentTime fadeTime rest
      else
        let opacity := JsMath.max 0 (1 - (age / fadeTime)) in
        mkTrailPoint point.(trailPosition) point.(trailTime) (Some (opacity * 0.6))
        :: processTrail currentTime fadeTime rest
  end.

(** [renderGraph ()]; the drawing itself leaves no state. *)
Definition renderGraph (env : Env) (s : PlayerVisuals) : PlayerVisuals :=
  if negb s.(graphReady) then s else
  set_velocityTrail (processTrail env.(now) s.(trailFadeTime) s.(velocityTrail)) s.

End PlayerVisuals.

(* ====================================================================== *)
(** * Renderer: the underwater effect *)
(* ====================================================================== *)

(** A [THREE.Fog]. *)
Record Fog : Type := mkFog {
  fogColor : String.string;
  fogNear  : R;
  fogFar   : R
}.

(** What [scene.background] holds. *)
Inductive Background : Type :=
| BackgroundColor (color : String.string)
| BackgroundTexture (id : nat).

(** [scene], as far as the renderer touches it. *)
Record Scene : Type := mkScene {
  sceneFog        : option Fog;
  sceneBackground : option Background
}.

(** [Renderer].  [clearColor] is the clear colour of the WebGL renderer,
    [underwaterOverlay] the opacity of the overlay's material. *)
Record Renderer : Type := mkRenderer {
  rendererSeaLevel   : R;
  isUnderwater       : bool;
  normalClearColor   : String.string;
  underwaterColor    : String.string;
  underwaterFogColor : String.string;
  underwaterFogNear  : R;
  underwaterFogFar   : R;
  originalFog        : option Fog;
  originalBackground : option Background;
  clearColor         : String.string;
  underwaterOverlay  : option R
}.

Module Renderer.

Import Stdlib.Strings.String.

(** The constructor. *)
Definition new : Renderer :=
  mkRenderer (-230) false "#ffffff" "#0a4d5c" "#0a5566" 1 500 None None
             "#ffffff" (Some 0).

(** [update ()].  [cameraY] is [camera.instance.position.y]; the player's
    visuals are there once the world has a player. *)
Definition update (env : Env) (cameraY : R)
    (s : Renderer * Scene * option PlayerVisuals)
  : Renderer * Scene * option PlayerVisuals :=
  let '(r, scene, visuals) := s in
  (* Check if camera is underwater *)
  let shouldBeUnderwater := JsMath.ltb cameraY r.(rendererSeaLevel) in
  let '(r1, scene1) :=
    if shouldBeUnderwater && negb r.(isUnderwater) then
      (* Entering water: store original settings, apply underwater fog *)
      (mkRenderer r.(rendererSeaLevel) true r.(normalClearColor)
         r.(underwaterColor) r.(underwaterFogColor) r.(underwaterFogNear)
         r.(underwaterFogFar) scene.(sceneFog) scene.(sceneBackground)
         r.(underwaterColor)
         (match r.(underwaterOverlay) with Some _ => Some 0.3 | None => None end),
       mkScene (Some (mkFog r.(underwaterFogColor) r.(underwaterFogNear)
                            r.(underwaterFogFar)))
               (Some (BackgroundColor r.(underwaterFogColor))))
    else if negb shouldBeUnderwater && r.(isUnderwater) then
      (* Exiting water: restore original settings *)
      (mkRenderer r.(rendererSeaLevel) false r.(normalClearColor)
         r.(underwaterColor) r.(underwaterFogColor) r.(underwaterFogNear)
         r.(underwaterFogFar) r.(originalFog) r.(originalBackground)
         r.(normalClearColor)
         (match r.(underwaterOverlay) with Some _ => Some 0 | None => None end),
       mkScene r.(originalFog) r.(originalBackground))
    else (r, scene) in
  (* Render velocity graph overlay (if player exists) *)
  let visuals1 :=
    match visuals with
    | Some vis => Some (PlayerVisuals.renderGraph env vis)
    | None => None
    end in
  (r1, scene1, visuals1).

End Renderer.
(* ====================================================================== *)
(** * Properties *)
(* ====================================================================== *)

(** ** Comparisons, clamping and constants *)

Lemma leb_true_iff (x y : R) : JsMath.leb x y = true <-> x <= y.
Proof. unfold JsMath.leb; destruct (Rle_dec x y); split; intros; try easy. Qed.

Lemma leb_false_iff (x y : R) : JsMath.leb x y = false <-> y < x.
Proof. unfold JsMath.leb; destruct (Rle_dec x y); split; intros; try easy; lra. Qed.

Lemma ltb_true_iff (x y : R) : JsMath.ltb x y = true <-> x < y.
Proof. unfold JsMath.ltb; destruct (Rlt_dec x y); split; intros; try easy. Qed.

Lemma ltb_false_iff (x y : R) : JsMath.ltb x y = false <-> y <= x.
Proof. unfold JsMath.ltb; destruct (Rlt_dec x y); split; intros; try easy; lra. Qed.

(** Settle the comparisons of the goal that linear arithmetic decides. *)
Ltac cmp :=
  repeat match goal with
  | |- context [JsMath.leb ?x ?y] =>
      first [ rewrite (proj2 (leb_true_iff x y)) by lra
            | rewrite (proj2 (leb_false_iff x y)) by lra ]
  | |- context [JsMath.ltb ?x ?y] =>
      first [ rewrite (proj2 (ltb_true_iff x y)) by lra
            | rewrite (proj2 (ltb_false_iff x y)) by lra ]
  end.

Lemma PI_lower : 3.14 < PI.
Proof.
  generalize (PI_2_3_7_ineq 1).
  unfold sum_f_R0, tg_alt, PI_2_3_7_tg, Ratan_seq; simpl; lra.
Qed.

Lemma PI_upper : PI < 3.15.
Proof.
  generalize (PI_2_3_7_ineq 1).
  unfold sum_f_R0, tg_alt, PI_2_3_7_tg, Ratan_seq; simpl; lra.
Qed.

Lemma clamp_bounds (v lo hi : R) : lo <= hi -> lo <= clamp v lo hi <= hi.
Proof.
  intros H. unfold clamp, JsMath.max, JsMath.min, Rmax, Rmin.
  destruct (Rle_dec hi v); destruct (Rle_dec lo _); lra.
Qed.

Lemma clamp_inside (v lo hi : R) : lo <= v <= hi -> clamp v lo hi = v.
Proof.
  intros H. unfold clamp, JsMath.max, JsMath.min, Rmax, Rmin.
  destruct (Rle_dec hi v); destruct (Rle_dec lo _); lra.
Qed.

Lemma clamp_above (v lo hi : R) : lo <= hi -> hi <= v -> clamp v lo hi = hi.
Proof.
  intros H H'. unfold clamp, JsMath.max, JsMath.min, Rmax, Rmin.
  destruct (Rle_dec hi v); destruct (Rle_dec lo _); lra.
Qed.

Lemma exp_nonpos_le_1 (x : R) : x <= 0 -> 0 < exp x <= 1.
Proof.
  intros H. split; [apply exp_pos|].
  destruct H as [H|H].
  - left. rewrite <- exp_0. now apply exp_increasing.
  - subst. rewrite exp_0. lra.
Qed.

Lemma sign_cases (x : R) :
  (0 < x /\ JsMath.sign x = 1) \/ (x < 0 /\ JsMath.sign x = -1)
  \/ (x = 0 /\ JsMath.sign x = 0).
Proof.
  unfold JsMath.sign. destruct (Rlt_dec 0 x); [left; auto|].
  destruct (Rlt_dec x 0); [right; left; auto|]. right; right; split; lra.
Qed.

(* ---------------------------------------------------------------------- *)
(** ** Submerged hysteresis (OceanMode.isInOcean) *)
(* ---------------------------------------------------------------------- *)

(** One call of [isInOcean] with the body the engine left: it never fails,
    writes nothing to the body, and only [isActive] changes. *)
Lemma isInOcean_withBody (b : RigidBody) (p : Player) :
  OceanMode.isInOcean (withBody b p) =
  let o := p.(oceanMode) in
  let active :=
    if JsMath.leb b.(translation).(_y) o.(seaLevel) then true
    else if JsMath.ltb (o.(seaLevel) + o.(exitThreshold)) b.(translation).(_y)
         then false else o.(isActive) in
  Some (active, set_oceanMode (set_isActive active o) (withBody b p), []).
Proof.
  unfold OceanMode.isInOcean, withBody, bind, get, ret, OceanMode.setActive, modify; simpl.
  destruct (JsMath.leb _ _); simpl; [reflexivity|].
  destruct (JsMath.ltb _ _); simpl; [reflexivity|].
  destruct p as [v m c [sl et ia wd wb]]; reflexivity.
Qed.

Lemma isInOceanRun_levels (bodies : list RigidBody) :
  forall p : Player,
    (snd (isInOceanRun bodies p)).(oceanMode).(seaLevel) = p.(oceanMode).(seaLevel)
    /\ (snd (isInOceanRun bodies p)).(oceanMode).(exitThreshold)
       = p.(oceanMode).(exitThreshold).
Proof.
  induction bodies as [|b rest IH]; intros p; [simpl; auto|].
  cbn [isInOceanRun]. rewrite isInOcean_withBody. cbv beta iota zeta.
  match goal with |- context [isInOceanRun rest ?q] =>
    specialize (IH q); destruct (isInOceanRun rest q) as [answers p2] end.
  simpl in *. exact IH.
Qed.

Lemma isInOceanRun_app (l1 l2 : list RigidBody) :
  forall p : Player,
    fst (isInOceanRun (l1 ++ l2) p)
    = fst (isInOceanRun l1 p) ++ fst (isInOceanRun l2 (snd (isInOceanRun l1 p))).
Proof.
  induction l1 as [|b rest IH]; intros p; [reflexivity|].
  cbn [isInOceanRun app]. rewrite isInOcean_withBody. cbv beta iota zeta.
  match goal with |- context [isInOceanRun rest ?q] =>
    specialize (IH q); destruct (isInOceanRun (rest ++ l2) q) as [a1 p1];
    destruct (isInOceanRun rest q) as [a2 p2] end.
  simpl in *. now rewrite IH.
Qed.

(** While the body stays at or below [seaLevel + exitThreshold], an active
    ocean mode stays active and every answer is [true]. *)
Lemma isInOceanRun_stays :
  forall (bodies : list RigidBody) (p : Player),
    p.(oceanMode).(isActive) = true ->
    Forall (fun b => b.(translation).(_y)
                     <= p.(oceanMode).(seaLevel) + p.(oceanMode).(exitThreshold))
           bodies ->
    fst (isInOceanRun bodies p) = repeat true (List.length bodies)
    /\ (snd (isInOceanRun bodies p)).(oceanMode).(isActive) = true.
Proof.
  induction bodies as [|b rest IH]; intros p Hact Hall.
  - simpl; auto.
  - inversion Hall as [|b' rest' Hb Hrest]; subst.
    cbn [isInOceanRun]. rewrite isInOcean_withBody. cbv zeta.
    set (active := if JsMath.leb _ _ then _ else _).
    assert (Ha : active = true).
    { unfold active. destruct (JsMath.leb _ _) eqn:E1; [reflexivity|].
      rewrite (proj2 (ltb_false_iff _ _)) by lra. exact Hact. }
    rewrite Ha.
    specialize (IH (set_oceanMode (set_isActive true (oceanMode p)) (withBody b p))).
    simpl in IH. specialize (IH eq_refl Hrest).
    destruct (isInOceanRun rest _) as [answers p2]. simpl in *.
    destruct IH as [IH1 IH2]. rewrite IH1. auto.
Qed.

(** C4.  Submerged hysteresis.  Once the mode is entered because the body
    is at or below sea level ([b0]), it stays active on every later tick
    whose height is at most [seaLevel + exitThreshold], however the height
    moves inside that band ([bodies]), and it is left on the tick whose
    height strictly exceeds [seaLevel + exitThreshold] ([bOut]).  The band
    of the constructor is 3. *)
Theorem C4_submerged_hysteresis :
  forall (p : Player) (b0 : RigidBody) (bodies : list RigidBody) (bOut : RigidBody),
    b0.(translation).(_y) <= p.(oceanMode).(seaLevel) ->
    Forall (fun b => b.(translation).(_y)
                     <= p.(oceanMode).(seaLevel) + p.(oceanMode).(exitThreshold))
           bodies ->
    0 <= p.(oceanMode).(exitThreshold) ->
    p.(oceanMode).(seaLevel) + p.(oceanMode).(exitThreshold)
      < bOut.(translation).(_y) ->
    fst (isInOceanRun (b0 :: bodies) p) = repeat true (Datatypes.S (List.length bodies))
    /\ (snd (isInOceanRun (b0 :: bodies) p)).(oceanMode).(isActive) = true
    /\ fst (isInOceanRun (b0 :: bodies ++ [bOut]) p)
       = repeat true (Datatypes.S (List.length bodies)) ++ [false]
    /\ OceanMode.new.(exitThreshold) = 3.
Proof.
  intros p b0 bodies bOut Hin Hband Hthr Hout.
  assert (Hrun : forall tail,
    isInOceanRun (b0 :: tail) p =
    let '(answers, p2) :=
      isInOceanRun tail
        (set_oceanMode (set_isActive true p.(oceanMode)) (withBody b0 p)) in
    (true :: answers, p2)).
  { intros tail. cbn [isInOceanRun]. rewrite isInOcean_withBody. cbv zeta.
    rewrite (proj2 (leb_true_iff _ _)) by exact Hin. reflexivity. }
  set (p1 := set_oceanMode (set_isActive true p.(oceanMode)) (withBody b0 p)) in *.
  destruct (isInOceanRun_stays bodies p1 eq_refl Hband) as [Hs1 Hs2].
  destruct (isInOceanRun_levels bodies p1) as [Hl1 Hl2].
  repeat split.
  - rewrite Hrun. destruct (isInOceanRun bodies p1) as [a q]. simpl in *.
    now rewrite Hs1.
  - rewrite Hrun. destruct (isInOceanRun bodies p1) as [a q]. exact Hs2.
  - change (b0 :: bodies ++ [bOut]) with (b0 :: (bodies ++ [bOut])).
    rewrite Hrun.
    pose proof (isInOceanRun_app bodies [bOut] p1) as Happ.
    destruct (isInOceanRun (bodies ++ [bOut]) p1) as [a q].
    simpl fst in Happ. rewrite Happ, Hs1.
    cbn [isInOceanRun]. rewrite isInOcean_withBody. cbv zeta.
    destruct (isInOceanRun bodies p1) as [a' q']. simpl in Hl1, Hl2, Hs2 |- *.
    rewrite Hl1, Hl2.
    rewrite (proj2 (leb_false_iff _ _)) by lra.
    rewrite (proj2 (ltb_true_iff _ _)) by lra.
    reflexivity.
Qed.

(** A height bouncing between sea level (-230) and the top of the band
    (-227), then rising above it. *)
Lemma C4_witness :
  fst (isInOceanRun
         (map bodyAtHeight [-230; -227; -230; -228.5; -227; -229.9; -226.9])
         freshPlayer)
  = [true; true; true; true; true; true; false].
Proof.
  refine (proj1 (proj2 (proj2
    (C4_submerged_hysteresis freshPlayer (bodyAtHeight (-230))
       (map bodyAtHeight [-227; -230; -228.5; -227; -229.9])
       (bodyAtHeight (-226.9)) _ _ _ _)))); simpl; try lra.
  repeat constructor; simpl; lra.
Defined.

(* ---------------------------------------------------------------------- *)
(** ** Flight: lift coefficient and lift magnitude (FlightMode.applyPhysics) *)
(* ---------------------------------------------------------------------- *)

Lemma alphaStall_bounds : 0.209 < FlightMode.alphaStall < 0.21.
Proof.
  unfold FlightMode.alphaStall, degToRad.
  generalize PI_lower, PI_upper; lra.
Qed.

(** The unclamped peak, 2 pi alphaStall, is about 1.316: above the clamp. *)
Lemma peakCL_bounds : 1.3 < 2 * PI * FlightMode.alphaStall < 1.33.
Proof.
  unfold FlightMode.alphaStall, degToRad.
  generalize PI_lower, PI_upper; nra.
Qed.

Lemma CL_linear (alpha : R) :
  Rabs alpha < FlightMode.alphaStall ->
  FlightMode.CL alpha = clamp (2 * PI * alpha) (-1.2) 1.2.
Proof.
  intros H. unfold FlightMode.CL, JsMath.abs.
  now rewrite (proj2 (ltb_true_iff _ _)).
Qed.

Lemma CL_post_stall (alpha : R) :
  FlightMode.alphaStall <= Rabs alpha ->
  FlightMode.CL alpha =
    2 * PI * FlightMode.alphaStall * JsMath.sign alpha
    * exp ((- (Rabs alpha - FlightMode.alphaStall)) * 8) * 0.3
  /\ Rabs (FlightMode.CL alpha) <= 0.3 * (2 * PI * FlightMode.alphaStall).
Proof.
  intros H. unfold FlightMode.CL, JsMath.abs.
  rewrite (proj2 (ltb_false_iff _ _)) by exact H.
  set (e := exp _).
  assert (He : 0 < e <= 1) by (apply exp_nonpos_le_1; lra).
  pose proof peakCL_bounds as Hp.
  set (pk := 2 * PI * FlightMode.alphaStall) in *.
  assert (Hv : - (0.3 * pk) <= pk * JsMath.sign alpha * e * 0.3 <= 0.3 * pk).
  { destruct (sign_cases alpha) as [[_ ->]|[[_ ->]|[_ ->]]]; split; nra. }
  rewrite clamp_inside by lra.
  split; [reflexivity | now apply Rabs_le].
Qed.

Lemma CL_just_below_stall (eps : R) :
  0 < eps <= 0.01 -> FlightMode.CL (FlightMode.alphaStall - eps) = 1.2.
Proof.
  intros He. pose proof alphaStall_bounds as Ha.
  rewrite CL_linear.
  - apply clamp_above; [lra|].
    unfold FlightMode.alphaStall, degToRad in *.
    generalize PI_lower, PI_upper; nra.
  - apply Rabs_def1; lra.
Qed.

Lemma CL_from_stall_on (eps : R) :
  0 <= eps ->
  FlightMode.CL (FlightMode.alphaStall + eps)
  = 0.3 * (2 * PI * FlightMode.alphaStall) * exp ((- eps) * 8)
  /\ 0 < FlightMode.CL (FlightMode.alphaStall + eps) < 0.4.
Proof.
  intros He. pose proof alphaStall_bounds as Ha. pose proof peakCL_bounds as Hp.
  assert (Habs : Rabs (FlightMode.alphaStall + eps) = FlightMode.alphaStall + eps)
    by (apply Rabs_pos_eq; lra).
  destruct (CL_post_stall (FlightMode.alphaStall + eps)) as [Heq _];
    [rewrite Habs; lra|].
  rewrite Heq, Habs.
  destruct (sign_cases (FlightMode.alphaStall + eps)) as [[_ ->]|[[? _]|[? _]]];
    try lra.
  replace (- (FlightMode.alphaStall + eps - FlightMode.alphaStall)) with (- eps)
    by ring.
  assert (Hx : 0 < exp ((- eps) * 8) <= 1) by (apply exp_nonpos_le_1; lra).
  split; [ring | split; nra].
Qed.

(** C6 (the claim as stated fails).  A thousandth of a radian below the
    stall angle the coefficient is the clamp value 1.2; a thousandth above
    it is below 0.4.  The two sides of the stall boundary do not produce the
    same value: the coefficient is not continuous there. *)
Lemma C6_counterexample :
  FlightMode.CL (FlightMode.alphaStall - 0.001) = 1.2
  /\ FlightMode.CL (FlightMode.alphaStall + 0.001) < 0.4
  /\ FlightMode.CL (FlightMode.alphaStall - 0.001)
     <> FlightMode.CL (FlightMode.alphaStall + 0.001).
Proof.
  pose proof (CL_just_below_stall 0.001) as Hb.
  pose proof (CL_from_stall_on 0.001) as Ha.
  assert (H1 : FlightMode.CL (FlightMode.alphaStall - 0.001) = 1.2) by (apply Hb; lra).
  assert (H2 : FlightMode.CL (FlightMode.alphaStall + 0.001) < 0.4) by (apply Ha; lra).
  repeat split; try assumption. lra.
Qed.

(** C6 (amended).  Below the 12 degree stall angle the lift coefficient is
    2 pi alpha clamped to [-1.2, 1.2]; from the stall angle on it is 30% of
    the signed peak 2 pi alphaStall times exp (-8 (|alpha| - alphaStall));
    it always lies in [-1.2, 1.2].  It is not continuous at the stall
    boundary: up to a hundredth of a radian below it the value is 1.2, at
    the boundary it is 0.3 * 2 pi alphaStall, and above it stays under 0.4. *)
Theorem C6_lift_coefficient :
  forall alpha beta eps : R,
    Rabs alpha < FlightMode.alphaStall ->
    FlightMode.alphaStall <= Rabs beta ->
    0 < eps <= 0.01 ->
    FlightMode.alphaStall = 12 * (PI / 180)
    /\ FlightMode.CL alpha = clamp (2 * PI * alpha) (-1.2) 1.2
    /\ FlightMode.CL beta
       = 0.3 * (2 * PI * FlightMode.alphaStall * JsMath.sign beta)
         * exp (- 8 * (Rabs beta - FlightMode.alphaStall))
    /\ -1.2 <= FlightMode.CL alpha <= 1.2
    /\ -1.2 <= FlightMode.CL beta <= 1.2
    /\ FlightMode.CL (FlightMode.alphaStall - eps) = 1.2
    /\ FlightMode.CL FlightMode.alphaStall = 0.3 * (2 * PI * FlightMode.alphaStall)
    /\ 0 < FlightMode.CL (FlightMode.alphaStall + eps) < 0.4.
Proof.
  intros alpha beta eps Ha Hb He.
  split; [reflexivity|].
  split; [now apply CL_linear|].
  split.
  { destruct (CL_post_stall beta Hb) as [-> _].
    replace (- (Rabs beta - FlightMode.alphaStall) * 8)
      with (- 8 * (Rabs beta - FlightMode.alphaStall)) by ring.
    ring. }
  split; [unfold FlightMode.CL; apply clamp_bounds; lra|].
  split; [unfold FlightMode.CL; apply clamp_bounds; lra|].
  split; [now apply CL_just_below_stall|].
  split.
  { destruct (CL_from_stall_on 0) as [H0 _]; [lra|].
    replace (FlightMode.alphaStall + 0) with FlightMode.alphaStall in H0 by ring.
    rewrite H0. replace (- 0 * 8) with 0 by ring. rewrite exp_0. ring. }
  apply CL_from_stall_on; lra.
Qed.

Lemma C6_witness :
  FlightMode.CL 0.1 = clamp (2 * PI * 0.1) (-1.2) 1.2
  /\ FlightMode.CL (FlightMode.alphaStall - 0.01) = 1.2
  /\ 0 < FlightMode.CL (FlightMode.alphaStall + 0.01) < 0.4.
Proof.
  pose proof alphaStall_bounds as Hs.
  assert (H1 : Rabs 0.1 < FlightMode.alphaStall)
    by (rewrite Rabs_pos_eq; lra).
  assert (H2 : FlightMode.alphaStall <= Rabs 0.25)
    by (rewrite Rabs_pos_eq; lra).
  assert (H3 : 0 < 0.01 <= 0.01) by lra.
  pose proof (C6_lift_coefficient 0.1 0.25 0.01 H1 H2 H3) as H.
  repeat split; apply H.
Defined.

(** The stall blend is 1 from the stall speed on, and 0 at the minimum
    speed itself. *)
Lemma stallFactor_from_stallSpeed (speed : R) :
  FlightMode.stallSpeed <= speed -> FlightMode.stallFactor speed = 1.
Proof.
  intros H. unfold FlightMode.stallFactor.
  rewrite (proj2 (ltb_false_iff _ _)) by exact H. lra.
Qed.

Lemma stallFactor_at_minSpeed : FlightMode.stallFactor FlightMode.minSpeed = 0.
Proof.
  unfold FlightMode.stallFactor, FlightMode.stallSpeed, FlightMode.minSpeed.
  rewrite (proj2 (ltb_true_iff _ _)) by lra.
  unfold JsMath.max, Rmax. destruct (Rle_dec _ _); lra.
Qed.

(** Below the stall speed the blend is the square of the normalized speed:
    the outer [Math.max (0, ...)] never changes a square. *)
Lemma stallFactor_below_stallSpeed (speed : R) :
  speed < FlightMode.stallSpeed ->
  FlightMode.stallFactor speed = ((speed - 5) / 10) ^ 2.
Proof.
  intros H. unfold FlightMode.stallFactor.
  rewrite (proj2 (ltb_true_iff _ _)) by exact H.
  unfold FlightMode.stallSpeed, FlightMode.minSpeed, JsMath.max.
  replace (15 - 5) with 10 by ring.
  apply Rmax_right. apply pow2_ge_0.
Qed.

(** C7 (the code at a failing input).  At speed 2, below the minimum speed
    5, the stall blend is 0.09 and not 0 (at speed 0 it is 0.25), so with an
    angle of attack of 0.1 rad the lift magnitude, dynamic pressure times
    reference area times CL times the blend, is positive. *)
Theorem C7_stallFactor_below_minSpeed :
  FlightMode.stallFactor 2 = 0.09
  /\ FlightMode.stallFactor 0 = 0.25
  /\ FlightMode.liftMagnitude 2 0.1
     = (0.5 * 1.225 * 2 * 2) * 2 * FlightMode.CL 0.1 * FlightMode.stallFactor 2
  /\ 0 < FlightMode.liftMagnitude 2 0.1.
Proof.
  assert (H2 : FlightMode.stallFactor 2 = 0.09).
  { rewrite stallFactor_below_stallSpeed by (unfold FlightMode.stallSpeed; lra). lra. }
  assert (H0 : FlightMode.stallFactor 0 = 0.25).
  { rewrite stallFactor_below_stallSpeed by (unfold FlightMode.stallSpeed; lra). lra. }
  repeat split; try assumption.
  unfold FlightMode.liftMagnitude, FlightMode.q, FlightMode.rho, FlightMode.S.
  rewrite H2, CL_linear.
  - rewrite clamp_inside; generalize PI_lower, PI_upper; intros; lra.
  - pose proof alphaStall_bounds. rewrite Rabs_pos_eq; lra.
Qed.

(* ---------------------------------------------------------------------- *)
(** ** The ramp constraint solver (RampL.stepRampConstraint) *)
(* ---------------------------------------------------------------------- *)

Lemma denom_ge_1 (slope : R) : 1 <= sqrt (1 + slope * slope).
Proof.
  rewrite <- sqrt_1 at 1. apply sqrt_le_1_alt. nra.
Qed.

Lemma denom_sq (slope : R) :
  sqrt (1 + slope * slope) * sqrt (1 + slope * slope) = 1 + slope * slope.
Proof. apply sqrt_sqrt. nra. Qed.

Lemma substep_cases (r : RampL) (subDt : R) (s : RampState) :
  0 < r.(L) ->
  let slope := RampL.dy r s.(rampX) in
  let denom := sqrt (1 + slope * slope) in
  let aT := (- r.(gravity)) * slope / denom in
  let v1 := s.(vS) + aT * subDt in
  let x1 := s.(rampX) + v1 * subDt / denom in
  let s' := fst (RampL.substep r subDt s) in
  let exited := snd (RampL.substep r subDt s) in
  s'.(lateralZ) = s.(lateralZ) + s.(vZ) * subDt
  /\ s'.(vZ) = s.(vZ)
  /\ 0 <= s'.(rampX) <= r.(L)
  /\ ((x1 < 0 /\ s'.(rampX) = 0 /\ s'.(vS) = Rabs v1 /\ exited = false)
      \/ (0 <= x1 < r.(L) /\ s'.(rampX) = x1 /\ s'.(vS) = v1 /\ exited = false)
      \/ (r.(L) <= x1 /\ s'.(rampX) = r.(L) /\ s'.(vS) = v1 /\ exited = true)).
Proof.
  intros HL slope denom aT v1 x1 s' exited.
  unfold s', exited, RampL.substep.
  fold slope. fold denom. fold aT. fold v1. fold x1.
  destruct (JsMath.ltb x1 0) eqn:E1.
  - apply ltb_true_iff in E1.
    rewrite (proj2 (leb_false_iff _ _)) by lra. unfold JsMath.abs. simpl. lra.
  - apply ltb_false_iff in E1. cbv beta iota.
    destruct (JsMath.leb (L r) x1) eqn:E2.
    + apply leb_true_iff in E2. simpl. lra.
    + apply leb_false_iff in E2. simpl. lra.
Qed.

Lemma substep_exit (r : RampL) (subDt : R) (s : RampState) :
  snd (RampL.substep r subDt s) = true ->
  (fst (RampL.substep r subDt s)).(rampX) = r.(L).
Proof.
  unfold RampL.substep. destruct (JsMath.leb _ _); simpl; congruence.
Qed.




Lemma bodyCall_some (who : Component) (c : BodyCall) (p : Player) (b : RigidBody) :
  p.(vars).(body) = Some b ->
  bodyCall who c p = Some (tt, withBody (perform c b) p, [BodyWrite who c]).
Proof. intros H. unfold bodyCall. now rewrite H. Qed.

Lemma withBody_body (b : RigidBody) (p : Player) :
  (withBody b p).(vars).(body) = Some b.
Proof. reflexivity. Qed.

Lemma withBody_withBody (b b' : RigidBody) (p : Player) :
  withBody b (withBody b' p) = withBody b p.
Proof. reflexivity. Qed.

Lemma vec3_eta (v : Vector3) : Vec3 v.(_x) v.(_y) v.(_z) = v.
Proof. now destruct v. Qed.

Lemma updateWith_rampMode (env : Env) (r : RampL) (p : Player) (b : RigidBody) :
  p.(vars).(body) = Some b ->
  r.(playerRampMode) = true ->
  RampL.updateWith env (r, p) =
  let '(r1, b1, t) := rampTick env r b in Some (tt, (r1, withBody b1 p), t).
Proof.
  intros Hb Hm. unfold RampL.updateWith, rampTick, bind, get. cbn [fst snd].
  rewrite Hb, Hm.
  destruct (RampL.stepRampConstraint r (rampState r) (delta env / 1000))
    as [state1 result].
  rewrite !vec3_eta.
  unfold RampL.onRamp, RampL.onPlayer, zoom, modify. cbn [fst snd].
  rewrite (bodyCall_some _ _ _ _ Hb). cbn [fst snd].
  rewrite (bodyCall_some _ _ _ _ (withBody_body _ _)). cbn [fst snd].
  rewrite withBody_withBody.
  destruct (exitedRamp result); unfold when, RampL.exitRampMode, bind, ret, emit,
    RampL.onRamp, zoom, modify; cbn; reflexivity.
Qed.


Lemma stepRampConstraint_state (r : RampL) (s : RampState) (dt : R) :
  fst (RampL.stepRampConstraint r s dt)
  = fst (RampL.substepLoop r (dt / INR r.(substeps)) r.(substeps) s)
  /\ exitedRamp (snd (RampL.stepRampConstraint r s dt))
     = snd (RampL.substepLoop r (dt / INR r.(substeps)) r.(substeps) s).
Proof.
  unfold RampL.stepRampConstraint.
  destruct (RampL.substepLoop _ _ _ _) as [s1 ex]. simpl. auto.
Qed.



(** The height function is a cubic and [dy] is its derivative. *)
Lemma cubic_derivative (a b x : R) :
  derivable_pt_lim (fun u : R => a * u * u * u + b * u * u - u) x
                   (3 * a * x * x + 2 * b * x - 1).
Proof.
  change (derivable_pt_lim
            ((fct_cte a * id * id * id + fct_cte b * id * id) - id)%F x
            (3 * a * x * x + 2 * b * x - 1)).
  replace (3 * a * x * x + 2 * b * x - 1)
    with ((((0 * x + a * 1) * x + a * x * 1) * x + a * x * x * 1
           + ((0 * x + b * 1) * x + b * x * 1)) - 1) by ring.
  apply derivable_pt_lim_minus; [|apply derivable_pt_lim_id].
  apply derivable_pt_lim_plus.
  - apply (derivable_pt_lim_mult (fct_cte a * id * id)%F id).
    + apply (derivable_pt_lim_mult (fct_cte a * id)%F id).
      * apply (derivable_pt_lim_mult (fct_cte a) id).
        -- apply derivable_pt_lim_const.
        -- apply derivable_pt_lim_id.
      * apply derivable_pt_lim_id.
    + apply derivable_pt_lim_id.
  - apply (derivable_pt_lim_mult (fct_cte b * id)%F id).
    + apply (derivable_pt_lim_mult (fct_cte b) id).
      * apply derivable_pt_lim_const.
      * apply derivable_pt_lim_id.
    + apply derivable_pt_lim_id.
Qed.

Lemma ramp_curve (r : RampL) (x : R) :
  let a := (r.(M) - 1) / (r.(L) * r.(L)) in
  let b := (2 - r.(M)) / r.(L) in
  RampL.y r x = a * x * x * x + b * x * x - x
  /\ RampL.dy r x = 3 * a * x * x + 2 * b * x - 1
  /\ derivable_pt_lim (RampL.y r) x (3 * a * x * x + 2 * b * x - 1).
Proof.
  cbv zeta. split; [reflexivity|]. split; [reflexivity|].
  exact (cubic_derivative ((r.(M) - 1) / (r.(L) * r.(L))) ((2 - r.(M)) / r.(L)) x).
Qed.



(* ---------------------------------------------------------------------- *)
(** ** Ramp entry (RampL.enterRampMode) *)
(* ---------------------------------------------------------------------- *)

(** The unit tangent (1, y') / sqrt (1 + y'^2) and the unit normal
    (-y', 1) / sqrt (1 + y'^2) of the curve. *)
Lemma tangent_normal_unit (slope : R) :
  let denom := sqrt (1 + slope * slope) in
  let tx := 1 / denom in
  let ty := slope / denom in
  let nx := (- slope) / denom in
  let ny := 1 / denom in
  tx * tx + ty * ty = 1 /\ nx * nx + ny * ny = 1 /\ tx * nx + ty * ny = 0
  /\ ty = slope * tx /\ 0 < tx.
Proof.
  intros denom tx ty nx ny.
  pose proof (denom_ge_1 slope) as H1. pose proof (denom_sq slope) as H2.
  fold denom in H1, H2.
  unfold tx, ty, nx, ny, Rdiv.
  set (i := / denom).
  assert (Hi : i * denom = 1) by (unfold i; field; lra).
  assert (Hii : i * i * (1 + slope * slope) = 1).
  { rewrite <- H2. replace (i * i * (denom * denom)) with ((i * denom) * (i * denom)) by ring.
    rewrite Hi. ring. }
  assert (Hpos : 0 < i) by (apply Rinv_0_lt_compat; lra).
  repeat split; nra.
Qed.

Lemma enterRampMode_some (r : RampL) (p : Player) (b : RigidBody) :
  p.(vars).(body) = Some b ->
  let pos := b.(translation) in
  let vel := b.(linvel) in
  let rampX0 := Rmax 0 (Rmin (pos.(_x) - r.(rampOrigin).(_x)) r.(L)) in
  let slope := RampL.dy r rampX0 in
  let denom := sqrt (1 + slope * slope) in
  let tx := 1 / denom in
  let ty := slope / denom in
  let vS0 := vel.(_x) * tx + vel.(_y) * ty in
  let lateralZ0 := pos.(_z) - r.(rampOrigin).(_z) in
  let radius0 := JsMath.orElse p.(vars).(radius) 1 in
  let normal := RampL.getNormal r rampX0 in
  let snappedPos :=
    Vec3 (r.(rampOrigin).(_x) + rampX0 + normal.(nx) * radius0)
         (r.(rampOrigin).(_y) + RampL.y r rampX0 + normal.(ny) * radius0)
         (r.(rampOrigin).(_z) + lateralZ0) in
  let snappedVel := Vec3 (vS0 * tx) (vS0 * ty) vel.(_z) in
  RampL.enterRampMode (r, p) =
  Some (tt,
        (set_playerBallisticMode false
           (set_playerRampMode true
              (set_playerPreviousX (Some snappedPos.(_x))
                 (set_playerRadius radius0
                    (set_rampState (mkRampState rampX0 vS0 lateralZ0 vel.(_z)) r)))),
         withBody (perform (setLinvel snappedVel)
                     (perform (setTranslation snappedPos) b)) p),
        [BodyWrite ByRampL (setTranslation snappedPos);
         BodyWrite ByRampL (setLinvel snappedVel);
         EnteredRampMode]).
Proof.
  intros Hb. cbv zeta.
  unfold RampL.enterRampMode, bind, get, RampL.onPlayer, RampL.onRamp, zoom,
    theBody, modify, emit. cbn [fst snd].
  rewrite Hb. cbn [fst snd].
  rewrite (bodyCall_some _ _ _ _ Hb). cbn [fst snd].
  rewrite (bodyCall_some _ _ _ _ (withBody_body _ _)). cbn [fst snd].
  reflexivity.
Qed.

Lemma orElse_nonzero (a b : R) : a <> 0 -> JsMath.orElse a b = a.
Proof. intros H. unfold JsMath.orElse. destruct (Req_dec_T a 0); congruence. Qed.

Lemma max_min_cases (x hi : R) :
  0 < hi ->
  let c := Rmax 0 (Rmin x hi) in
  0 <= c <= hi
  /\ ((x < 0 /\ c = 0) \/ (0 <= x <= hi /\ c = x) \/ (hi < x /\ c = hi)).
Proof.
  intros H. unfold Rmax, Rmin.
  destruct (Rle_dec x hi); destruct (Rle_dec 0 _); lra.
Qed.

(** C3.  Ramp entry.  The progress is the body's world x minus the ramp
    origin's x, clamped to [0, L]; the arc speed is the dot product of the
    pre-entry velocity with the unit tangent (1, y') / sqrt (1 + y'^2) at
    that progress, where y' = 3 a x^2 + 2 b x - 1 is the slope there of the
    curve y = a x^3 + b x^2 - x (a = (M - 1) / L^2, b = (2 - M) / L); the
    lateral position and the lateral z-velocity are captured unchanged; and
    the body is written at once: its position to the curve point offset by
    the player radius along the unit normal, its velocity to the tangent
    times the arc speed plus the lateral z-velocity (so the tangential
    speed is the same before and after entry). *)
Theorem C3_ramp_entry :
  forall (r : RampL) (p : Player) (b : RigidBody),
    p.(vars).(body) = Some b ->
    0 < r.(L) ->
    p.(vars).(radius) <> 0 ->
    let pos := b.(translation) in
    let vel := b.(linvel) in
    let localX := pos.(_x) - r.(rampOrigin).(_x) in
    let k3 := (r.(M) - 1) / (r.(L) * r.(L)) in
    let k2 := (2 - r.(M)) / r.(L) in
    exists (r1 : RampL) (p1 : Player) (b1 : RigidBody),
      let x0 := r1.(rampState).(rampX) in
      let height := k3 * x0 * x0 * x0 + k2 * x0 * x0 - x0 in
      let slope := 3 * k3 * x0 * x0 + 2 * k2 * x0 - 1 in
      let denom := sqrt (1 + slope * slope) in
      let tangent := Vec3 (1 / denom) (slope / denom) 0 in
      let normal := Vec3 ((- slope) / denom) (1 / denom) 0 in
      RampL.enterRampMode (r, p)
      = Some (tt, (r1, p1),
              [BodyWrite ByRampL (setTranslation b1.(translation));
               BodyWrite ByRampL (setLinvel b1.(linvel));
               EnteredRampMode])
      /\ p1.(vars).(body) = Some b1
      (* progress: world x minus the origin's x, clamped to [0, L] *)
      /\ 0 <= x0 <= r.(L)
      /\ ((localX < 0 /\ x0 = 0) \/ (0 <= localX <= r.(L) /\ x0 = localX)
          \/ (r.(L) < localX /\ x0 = r.(L)))
      (* the curve: its height and its slope at the progress *)
      /\ RampL.y r x0 = height
      /\ RampL.dy r x0 = slope
      /\ derivable_pt_lim (RampL.y r) x0 slope
      (* arc speed: the pre-entry velocity along the unit tangent *)
      /\ r1.(rampState).(vS) = dot vel tangent
      /\ dot tangent tangent = 1
      /\ RampL.getNormal r x0 = mkNormal normal.(_x) normal.(_y)
      /\ dot normal normal = 1
      /\ dot normal tangent = 0
      (* lateral position and velocity, captured unchanged *)
      /\ r1.(rampState).(lateralZ) = pos.(_z) - r.(rampOrigin).(_z)
      /\ r1.(rampState).(vZ) = vel.(_z)
      (* the body is written at once: curve point plus radius along the
         normal, tangent times arc speed plus the lateral velocity *)
      /\ b1.(translation)
         = add (Vec3 (r.(rampOrigin).(_x) + x0)
                     (r.(rampOrigin).(_y) + height)
                     pos.(_z))
               (multiplyScalar normal p.(vars).(radius))
      /\ b1.(linvel)
         = add (multiplyScalar tangent r1.(rampState).(vS)) (Vec3 0 0 vel.(_z))
      /\ dot b1.(linvel) tangent = dot vel tangent
      /\ r1.(playerRampMode) = true
      /\ r1.(playerRadius) = p.(vars).(radius).
Proof.
  intros r p b Hb HL Hr pos vel localX k3 k2.
  pose proof (enterRampMode_some r p b Hb) as He. cbv zeta in He.
  rewrite (orElse_nonzero _ _ Hr) in He.
  match type of He with
  | _ = Some (_, (?r1, withBody ?b1 ?pp), _) => exists r1, (withBody b1 pp), b1
  end.
  cbv zeta.
  split; [exact He|].
  cbn [vars body withBody onVars set_body rampState rampX vS lateralZ vZ
       set_playerBallisticMode set_playerRampMode set_playerPreviousX
       set_playerRadius set_rampState playerRampMode playerRadius
       perform translation linvel].
  fold pos. fold vel. fold localX.
  set (x0 := Rmax 0 (Rmin localX (L r))).
  destruct (max_min_cases localX (L r) HL) as [Hrange Hcases]. fold x0 in Hrange, Hcases.
  destruct (ramp_curve r x0) as (Hy & Hdy & Hd).
  cbv zeta in Hy, Hdy, Hd. fold k3 k2 in Hy, Hdy, Hd.
  rewrite <- Hy. rewrite <- Hdy in Hd |- *.
  destruct (tangent_normal_unit (RampL.dy r x0)) as [Ht [Hn [Htn [Hty Htx]]]].
  set (slope := RampL.dy r x0) in *.
  set (denom := sqrt (1 + slope * slope)) in *.
  split; [reflexivity|].
  split; [exact Hrange|].
  split; [exact Hcases|].
  split; [reflexivity|]. split; [reflexivity|]. split; [exact Hd|].
  unfold dot, add, multiplyScalar, RampL.getNormal; cbn [_x _y _z].
  fold slope. fold denom.
  repeat split; try reflexivity; try (f_equal; ring); try nra.
  set (tx := 1 / denom) in *. set (ty := slope / denom) in *.
  set (A := _x vel * tx + _y vel * ty).
  replace (A * tx * tx + A * ty * ty) with (A * (tx * tx + ty * ty)) by ring.
  rewrite Ht. ring.
Qed.

Lemma C3_witness :
  exists (r1 : RampL) (p1 : Player) (t : Trace),
    RampL.enterRampMode
      (RampL.new, playerOn (bodyMoving (Vec3 236 (-208) 2) (Vec3 10 (-5) 1)))
    = Some (tt, (r1, p1), t)
    /\ r1.(rampState).(rampX) = 236 - 229.4
    /\ r1.(rampState).(lateralZ) = 2
    /\ r1.(rampState).(vZ) = 1
    /\ r1.(playerRampMode) = true.
Proof.
  assert (H1 : 0 < RampL.new.(L)) by (simpl; lra).
  assert (H2 : (playerOn (bodyMoving (Vec3 236 (-208) 2) (Vec3 10 (-5) 1))).(vars).(radius) <> 0)
    by (simpl; lra).
  destruct (C3_ramp_entry RampL.new
              (playerOn (bodyMoving (Vec3 236 (-208) 2) (Vec3 10 (-5) 1)))
              (bodyMoving (Vec3 236 (-208) 2) (Vec3 10 (-5) 1))
              eq_refl H1 H2) as [r1 [p1 [b1 H]]].
  cbv zeta in H. simpl _x in H. simpl _z in H. simpl L in H. simpl rampOrigin in H.
  exists r1, p1,
    [BodyWrite ByRampL (setTranslation (translation b1));
     BodyWrite ByRampL (setLinvel (linvel b1)); EnteredRampMode].
  destruct H as (He & _ & _ & Hc & _ & _ & _ & _ & _ & _ & _ & _ & Hl & Hz & _ & _ & _ & Hm & _).
  split; [exact He|].
  repeat split; try assumption; lra.
Defined.

(* ---------------------------------------------------------------------- *)
(** ** The flight toggle and the mode controllers *)
(* ---------------------------------------------------------------------- *)

Lemma withBody_same (p : Player) (b : RigidBody) :
  p.(vars).(body) = Some b -> withBody b p = p.
Proof.
  destruct p as [v m c o]; destruct v; simpl. intros ->. reflexivity.
Qed.

(** The toggle with no collision mesh: only the two flags change. *)
Lemma activate_without_mesh (now : R) (p : Player) :
  p.(collisionMesh) = false ->
  FlightMode.activate now p
  = Some (tt,
          onVars (fun v => set_hasLoggedVelocity false
                             (set_isFlying (negb v.(isFlying)) v)) p,
          []).
Proof.
  intros H. unfold FlightMode.activate, bind, setVars, modify, get. cbn.
  rewrite H. reflexivity.
Qed.

Lemma activate_entry (now : R) (p : Player) (b : RigidBody) :
  p.(vars).(body) = Some b ->
  p.(collisionMesh) = true ->
  p.(vars).(isFlying) = false ->
  let vel := b.(linvel) in
  let velocityPitch :=
    JsMath.atan2 vel.(_y) (sqrt (vel.(_x) * vel.(_x) + vel.(_z) * vel.(_z))) in
  let velocityYaw := - JsMath.atan2 vel.(_z) vel.(_x) + PI in
  FlightMode.activate now p
  = Some (tt,
          onVars (fun v =>
                    set_flightTransitionStartTime now
                      (set_currentYaw velocityYaw
                         (set_currentRoll 0
                            (set_targetRoll 0
                               (set_currentPitch velocityPitch
                                  (set_targetPitch velocityPitch
                                     (set_velocityInitial vel
                                        (set_hasLoggedVelocity false
                                           (set_isFlying true v)))))))))
                 (withBody (perform (setAngvel (Vec3 0 0 0))
                              (perform (setGravityScale 0) b)) p),
          [BodyWrite ByFlightMode (setGravityScale 0);
           BodyWrite ByFlightMode (setAngvel (Vec3 0 0 0))]).
Proof.
  intros Hb Hm Hf. cbv zeta.
  rewrite <- (withBody_same p b Hb) at 1.
  unfold FlightMode.activate, bind, setVars, modify, get, theBody, bodyCall,
    onVars, withBody. cbn.
  rewrite Hm, Hf. cbn. rewrite vec3_eta. reflexivity.
Qed.

Lemma activate_exit (now : R) (p : Player) (b : RigidBody) :
  p.(vars).(body) = Some b ->
  p.(collisionMesh) = true ->
  p.(vars).(isFlying) = true ->
  FlightMode.activate now p
  = Some (tt,
          onVars (fun v =>
                    set_targetRoll 0
                      (set_targetPitch 0
                         (set_currentRoll 0
                            (set_currentPitch 0
                               (set_hasLoggedVelocity false
                                  (set_isFlying false v))))))
                 (withBody (performAll (flightExitCalls p) b) p),
          map (BodyWrite ByFlightMode) (flightExitCalls p)).
Proof.
  intros Hb Hm Hf.
  rewrite <- (withBody_same p b Hb) at 1.
  unfold FlightMode.activate, bind, setVars, modify, get, theBody, bodyCall, ret,
    onVars, withBody, flightExitCalls, performAll. cbn.
  rewrite Hm, Hf. cbn.
  destruct (mesh p) as [[x y z w]|]; cbn; reflexivity.
Qed.

Lemma bodyCall_withBody (who : Component) (c : BodyCall) (b : RigidBody) (p : Player) :
  bodyCall who c (withBody b p)
  = Some (tt, withBody (perform c b) p, [BodyWrite who c]).
Proof. reflexivity. Qed.

Lemma checkGrounded_with_collider (env : Env) (p : Player) :
  p.(vars).(collider) = true ->
  PlayerPhysics.checkGrounded env p
  = Some (tt,
          onVars (set_isGrounded
                    (match env.(contactPairs) with [] => false | _ => true end)) p,
          []).
Proof.
  intros Hc. unfold PlayerPhysics.checkGrounded, bind, get. cbn. rewrite Hc. cbn.
  assert (Hfold : forall (l : list nat) (s : Player),
    s.(vars).(isGrounded) = false \/ l <> [] ->
    fold_right (fun (_ : nat) (rest : Act Player unit) =>
                  bind (setVars (set_isGrounded true)) (fun _ => rest))
               (ret tt) l s
    = Some (tt, onVars (set_isGrounded (match l with [] => false | _ => true end)) s, [])).
  { induction l as [|x rest IH]; intros s Hs.
    - destruct Hs as [Hs|Hs]; [|congruence]. cbn. unfold ret.
      destruct s as [v m c o]; destruct v; cbn in *; subst; reflexivity.
    - cbn [fold_right]. unfold bind at 1. unfold setVars at 1, modify at 1.
      destruct rest as [|y rest'].
      + cbn. reflexivity.
      + rewrite IH by (right; congruence). reflexivity. }
  rewrite Hfold by (left; reflexivity). reflexivity.
Qed.

Lemma AirMode_update_airborne (env : Env) (p : Player) (b : RigidBody) :
  p.(vars).(body) = Some b ->
  p.(vars).(isGrounded) = false ->
  p.(vars).(isFlying) = false ->
  AirMode.update env p
  = Some (tt, withBody (performAll (airCalls env p) b) p,
          map (BodyWrite ByAirMode) (airCalls env p)).
Proof.
  intros Hb Hg Hf.
  rewrite <- (withBody_same p b Hb) at 1.
  unfold AirMode.update, airCalls, bind, get, when, ret. cbn.
  rewrite Hg, Hf. cbn.
  destruct (key_w _), (key_s _), (key_a _), (key_d _); reflexivity.
Qed.

Lemma GroundMode_update_grounded (env : Env) (p : Player) (b : RigidBody) :
  p.(vars).(body) = Some b ->
  p.(vars).(isGrounded) = true ->
  p.(vars).(isFlying) = false ->
  GroundMode.update env p
  = Some (tt, withBody (performAll (groundCalls env p) b) p,
          map (BodyWrite ByGroundMode) (groundCalls env p)).
Proof.
  intros Hb Hg Hf.
  rewrite <- (withBody_same p b Hb) at 1.
  unfold GroundMode.update, groundCalls, bind, get, when, ret. cbn.
  rewrite Hg, Hf. cbn.
  destruct (key_w _), (key_s _), (key_a _), (key_d _); reflexivity.
Qed.

Lemma OceanMode_update_not_flying (env : Env) (p : Player) (b : RigidBody) :
  p.(vars).(body) = Some b ->
  p.(vars).(isFlying) = false ->
  OceanMode.update env p
  = Some (tt, withBody (performAll (oceanCalls p.(oceanMode) b) b) p,
          map (BodyWrite ByOceanMode) (oceanCalls p.(oceanMode) b)).
Proof.
  intros Hb Hf.
  rewrite <- (withBody_same p b Hb) at 1.
  unfold OceanMode.update, oceanCalls, bind, get, when, ret, theBody. cbn.
  rewrite Hf. cbn.
  destruct (JsMath.ltb _ _); reflexivity.
Qed.

Lemma bind_some {S A B : Type} (m : Act S A) (k : A -> Act S B)
    (s s1 : S) (a : A) (t1 : Trace) :
  m s = Some (a, s1, t1) ->
  bind m k s = match k a s1 with
               | None => None
               | Some (b, s2, t2) => Some (b, s2, t1 ++ t2)
               end.
Proof. intros H. unfold bind. now rewrite H. Qed.

Lemma OceanMode_update_flying (env : Env) (p : Player) (b : RigidBody) :
  p.(vars).(body) = Some b ->
  p.(vars).(isFlying) = true ->
  OceanMode.update env p
  = match FlightMode.activate env.(now) p with
    | None => None
    | Some (_, p1, t1) =>
        match p1.(vars).(body) with
        | None => None
        | Some b1 =>
            Some (tt, withBody (performAll (oceanCalls p.(oceanMode) b1) b1) p1,
                  t1 ++ map (BodyWrite ByOceanMode) (oceanCalls p.(oceanMode) b1))
        end
    end.
Proof.
  intros Hb Hf.
  unfold OceanMode.update. unfold bind at 1. unfold get at 1.
  cbv beta iota. rewrite Hb, Hf. unfold when. unfold bind at 1.
  destruct (FlightMode.activate (now env) p) as [[[u p1] t1]|]; [|reflexivity].
  destruct (body (vars p1)) as [b1|] eqn:Hb1.
  - rewrite <- (withBody_same p1 b1 Hb1) at 1.
    unfold oceanCalls, bind, get, ret, theBody. cbn.
    destruct (JsMath.ltb _ _); cbn; rewrite ?app_nil_r; reflexivity.
  - unfold bind, theBody. rewrite Hb1. reflexivity.
Qed.

Lemma applyPhysics_flying (env : Env) (p : Player) (b : RigidBody) :
  p.(vars).(body) = Some b ->
  p.(vars).(isFlying) = true ->
  let j := FlightMode.impulse (env.(delta) / 1000)
             p.(vars).(currentPitch) p.(vars).(currentRoll) b in
  FlightMode.applyPhysics env p
  = Some (tt,
          withBody (performAll [applyImpulse j; setAngvel (Vec3 0 0 0)] b) p,
          map (BodyWrite ByFlightMode) [applyImpulse j; setAngvel (Vec3 0 0 0)]).
Proof.
  intros Hb Hf.
  unfold FlightMode.applyPhysics. unfold bind at 1. unfold get at 1.
  cbv beta iota. rewrite Hb, Hf. cbn [negb]. cbv zeta.
  rewrite vec3_eta. unfold bind.
  rewrite (bodyCall_some _ _ _ _ Hb). cbv beta iota.
  rewrite bodyCall_withBody. reflexivity.
Qed.

Lemma updateControls_flying (p : Player) (b : RigidBody) :
  p.(vars).(body) = Some b ->
  p.(vars).(isFlying) = true ->
  exists p1 : Player,
    FlightMode.updateControls p
    = Some (tt, p1, [BodyWrite ByFlightMode (setAngvel (Vec3 0 0 0))])
    /\ p1.(vars).(body) = Some (perform (setAngvel (Vec3 0 0 0)) b)
    /\ p1.(vars).(isFlying) = true
    /\ sameSetup p p1.
Proof.
  intros Hb Hf.
  unfold FlightMode.updateControls. unfold bind at 1. unfold get at 1.
  cbv beta iota. rewrite Hb, Hf. cbn [negb]. cbv zeta.
  destruct (key_w _) eqn:Hw; [|destruct (key_s _) eqn:Hs];
    (destruct (key_a _) eqn:Ha; [|destruct (key_d _) eqn:Hd]);
    destruct (mesh p) as [mq|] eqn:Hmesh;
    unfold bind, setVars, modify, get, ret, when, bodyCall; cbn;
    rewrite ?Hmesh, ?Hf, ?Hb; cbn; rewrite ?Hmesh, ?Hf, ?Hb; cbn;
    (eexists; split; [reflexivity|]; unfold sameSetup; cbn; repeat split; assumption).
Qed.

Lemma FlightMode_update_flying (env : Env) (p : Player) (b : RigidBody) :
  p.(vars).(body) = Some b ->
  p.(vars).(isFlying) = true ->
  exists p1 : Player,
    FlightMode.update env p
    = Some (tt, p1, map (BodyWrite ByFlightMode) (flightCalls env p b))
    /\ p1.(vars).(body) = Some (performAll (flightCalls env p b) b)
    /\ p1.(vars).(isFlying) = true
    /\ sameSetup p p1.
Proof.
  intros Hb Hf. unfold FlightMode.update.
  rewrite (bind_some _ _ _ _ _ _ (applyPhysics_flying env p b Hb Hf)).
  set (j := FlightMode.impulse _ _ _ _).
  set (p0 := withBody (performAll [applyImpulse j; setAngvel (Vec3 0 0 0)] b) p).
  destruct (updateControls_flying p0 _ (withBody_body _ p) Hf)
    as [p1 [Hu [Hb1 [Hf1 Hs]]]].
  rewrite Hu. exists p1. repeat split; try assumption; apply Hs.
Qed.

Lemma quat_eta (q : Quaternion) : Quat q.(qx) q.(qy) q.(qz) q.(qw) = q.
Proof. now destruct q. Qed.

Lemma isInOcean_some (p : Player) (b : RigidBody) :
  p.(vars).(body) = Some b ->
  OceanMode.isInOcean p
  = Some (submerged p.(oceanMode) b,
          set_oceanMode (set_isActive (submerged p.(oceanMode) b) p.(oceanMode)) p,
          []).
Proof.
  intros Hb. rewrite <- (withBody_same p b Hb) at 1.
  rewrite isInOcean_withBody. cbv zeta. unfold submerged.
  now rewrite (withBody_same p b Hb).
Qed.

(** The shape of a tick of [Player.update] once the physics is set up. *)
Lemma Player_update_tick (env : Env) (p : Player) (b : RigidBody) :
  p.(vars).(body) = Some b ->
  p.(vars).(collider) = true ->
  let m := resolveMode (submerged p.(oceanMode) b) p.(vars).(isFlying)
                       (hasContact env) in
  Player.update env p
  = match handlerOf m env (classified env b p) with
    | None => None
    | Some (_, p1, t) => Some (tt, finishTick b p1, Run m :: t)
    end.
Proof.
  intros Hb Hc m.
  unfold Player.update. unfold bind at 1. unfold get at 1. cbv beta iota.
  rewrite Hb. cbv zeta.
  rewrite (bind_some _ _ _ _ _ _ (checkGrounded_with_collider env p Hc)).
  fold (hasContact env).
  set (pa := onVars (set_isGrounded (hasContact env)) p).
  assert (Hba : pa.(vars).(body) = Some b) by (unfold pa; cbn; exact Hb).
  rewrite (bind_some _ _ _ _ _ _ (isInOcean_some pa b Hba)).
  change (oceanMode pa) with (oceanMode p).
  change (set_oceanMode (set_isActive (submerged (oceanMode p) b) (oceanMode p)) pa)
    with (classified env b p).
  unfold bind at 1. unfold get at 1. cbv beta iota.
  change (isFlying (vars (classified env b p))) with (isFlying (vars p)).
  change (isGrounded (vars (classified env b p))) with (hasContact env).
  assert (Hfin : forall p1 : Player,
    bind (PlayerPhysics.updateVisuals (translation b) (rotation b))
         (fun _ => setVars (set_lastVelocity
                     (Vec3 (_x (linvel b)) (_y (linvel b)) (_z (linvel b))))) p1
    = Some (tt, finishTick b p1, [])).
  { intros p1. unfold PlayerPhysics.updateVisuals, bind, get, when, ret, setVars,
      modify, finishTick. cbn. rewrite vec3_eta, quat_eta.
    destruct (mesh p1); [destruct (isFlying (vars p1))|]; reflexivity. }
  unfold m, resolveMode, handlerOf.
  destruct (submerged (oceanMode p) b); [|destruct (isFlying (vars p));
    [|destruct (hasContact env)]]; cbn [negb];
    unfold bind at 1; unfold bind at 1; unfold emit at 1; cbv beta iota;
    match goal with |- context [?h env (classified env b p)] =>
      destruct (h env (classified env b p)) as [[[u p1] t]|]; [|reflexivity] end;
    rewrite Hfin; rewrite app_nil_r; reflexivity.
Qed.

Lemma sameSetup_refl (p : Player) : sameSetup p p.
Proof. unfold sameSetup; auto. Qed.

Lemma sameSetup_withBody (b : RigidBody) (p : Player) : sameSetup p (withBody b p).
Proof. unfold sameSetup; auto. Qed.

Lemma map_snd_pair {A B : Type} (w : A) (l : list B) :
  map snd (map (pair w) l) = l.
Proof. rewrite map_map. cbn [snd]. apply map_id. Qed.

Lemma asEvents_pair (w : Component) (l : list BodyCall) :
  asEvents (map (pair w) l) = map (BodyWrite w) l.
Proof. unfold asEvents. rewrite map_map. reflexivity. Qed.

Lemma asEvents_app (l1 l2 : list (Component * BodyCall)) :
  asEvents (l1 ++ l2) = asEvents l1 ++ asEvents l2.
Proof. apply map_app. Qed.

Lemma performAll_app (l1 l2 : list BodyCall) (b : RigidBody) :
  performAll (l1 ++ l2) b = performAll l2 (performAll l1 b).
Proof. apply fold_left_app. Qed.

(** What the mode controller selected by the dispatch does: it never fails,
    and makes exactly the engine calls of [handlerCalls]. *)
Lemma handler_outcome (env : Env) (p : Player) (b : RigidBody) (inOcean : bool) :
  p.(vars).(body) = Some b ->
  let m := resolveMode inOcean p.(vars).(isFlying) p.(vars).(isGrounded) in
  exists p1 : Player,
    handlerOf m env p = Some (tt, p1, asEvents (handlerCalls m env p b))
    /\ p1.(vars).(body) = Some (performAll (map snd (handlerCalls m env p b)) b)
    /\ sameSetup p p1
    /\ p1.(vars).(isFlying)
       = match m with ByOceanMode => false | _ => p.(vars).(isFlying) end.
Proof.
  intros Hb m. unfold m, resolveMode.
  destruct inOcean.
  - cbn [handlerOf handlerCalls].
    destruct (isFlying (vars p)) eqn:Hf.
    + rewrite (OceanMode_update_flying env p b Hb Hf).
      destruct (collisionMesh p) eqn:Hm; cbn [andb].
      * rewrite (activate_exit _ _ _ Hb Hm Hf).
        cbn [vars body withBody onVars set_body
          set_targetRoll set_targetPitch set_currentRoll set_currentPitch
          set_hasLoggedVelocity set_isFlying].
        eexists. split.
        { rewrite asEvents_app, !asEvents_pair. reflexivity. }
        split.
        { rewrite map_app, !map_snd_pair, performAll_app. reflexivity. }
        split; [unfold sameSetup; cbn; auto|reflexivity].
      * rewrite (activate_without_mesh _ _ Hm).
        cbn [vars body onVars set_hasLoggedVelocity set_isFlying]. rewrite Hb.
        eexists. split.
        { rewrite asEvents_pair. reflexivity. }
        split.
        { rewrite map_snd_pair. reflexivity. }
        split; [unfold sameSetup; cbn; auto|cbn; now rewrite Hf].
    + rewrite (OceanMode_update_not_flying env p b Hb Hf). cbn [andb].
      eexists. split.
      { rewrite asEvents_pair. reflexivity. }
      split.
      { rewrite map_snd_pair. reflexivity. }
      split; [apply sameSetup_withBody|exact Hf].
  - destruct (isFlying (vars p)) eqn:Hf.
    + cbn [handlerOf handlerCalls].
      destruct (FlightMode_update_flying env p b Hb Hf) as [p1 [Hu [Hb1 [Hf1 Hs]]]].
      exists p1. rewrite Hu. split.
      { rewrite asEvents_pair. reflexivity. }
      split.
      { rewrite Hb1, map_snd_pair. reflexivity. }
      split; assumption.
    + destruct (isGrounded (vars p)) eqn:Hg; cbn [handlerOf handlerCalls].
      * rewrite (GroundMode_update_grounded env p b Hb Hg Hf).
        eexists. split.
        { rewrite asEvents_pair. reflexivity. }
        split.
        { rewrite map_snd_pair. reflexivity. }
        split; [apply sameSetup_withBody|exact Hf].
      * rewrite (AirMode_update_airborne env p b Hb Hg Hf).
        eexists. split.
        { rewrite asEvents_pair. reflexivity. }
        split.
        { rewrite map_snd_pair. reflexivity. }
        split; [apply sameSetup_withBody|exact Hf].
Qed.

(* ---------------------------------------------------------------------- *)
(** ** The locomotion state machine (Player.update) *)
(* ---------------------------------------------------------------------- *)

(** ** Facts about the engine calls of the mode controllers *)

Lemma filter_isRun_asEvents (calls : list (Component * BodyCall)) :
  filter isRun (asEvents calls) = [].
Proof. induction calls as [|c rest IH]; [reflexivity|]. cbn. exact IH. Qed.

Lemma gravityScale_performAll (calls : list BodyCall) :
  forall b : RigidBody,
    existsb isGravityScaleCall calls = false ->
    (performAll calls b).(gravityScale) = b.(gravityScale).
Proof.
  induction calls as [|c rest IH]; intros b H; [reflexivity|].
  cbn in H. apply orb_false_iff in H. destruct H as [Hc Hrest].
  unfold performAll in *. cbn [fold_left]. rewrite (IH _ Hrest).
  destruct c; cbn in *; congruence.
Qed.

Lemma filter_gravity_none (w : Component) (calls : list BodyCall) :
  existsb isGravityScaleCall calls = false ->
  filter isGravityScaleWrite (map (BodyWrite w) calls) = [].
Proof.
  induction calls as [|c rest IH]; intros H; [reflexivity|].
  cbn in H. apply orb_false_iff in H. destruct H as [Hc Hrest].
  cbn. destruct c; cbn in *; try congruence; now apply IH.
Qed.

Lemma airCalls_no_gravity (env : Env) (p : Player) :
  existsb isGravityScaleCall (airCalls env p) = false.
Proof.
  unfold airCalls.
  destruct (key_w _), (key_s _), (key_a _), (key_d _); reflexivity.
Qed.

Lemma groundCalls_no_gravity (env : Env) (p : Player) :
  existsb isGravityScaleCall (groundCalls env p) = false.
Proof.
  unfold groundCalls.
  destruct (key_w _), (key_s _), (key_a _), (key_d _); reflexivity.
Qed.

Lemma oceanCalls_no_gravity (o : OceanMode) (b : RigidBody) :
  existsb isGravityScaleCall (oceanCalls o b) = false.
Proof. unfold oceanCalls. destruct (JsMath.ltb _ _); reflexivity. Qed.

Lemma oceanCalls_isActive (v : bool) (o : OceanMode) (b : RigidBody) :
  oceanCalls (set_isActive v o) b = oceanCalls o b.
Proof. reflexivity. Qed.

Lemma flightCalls_no_gravity (env : Env) (p : Player) (b : RigidBody) :
  existsb isGravityScaleCall (flightCalls env p b) = false.
Proof. reflexivity. Qed.

Lemma flightExitCalls_gravity (p : Player) (b : RigidBody) :
  (performAll (flightExitCalls p) b).(gravityScale) = 1
  /\ filter isGravityScaleWrite (map (BodyWrite ByFlightMode) (flightExitCalls p))
     = [BodyWrite ByFlightMode (setGravityScale 1)].
Proof. unfold flightExitCalls. destruct (mesh p); cbn; auto. Qed.

(** ** The end of the tick keeps what the dispatch decided *)

Lemma finishTick_keeps (b : RigidBody) (p : Player) :
  (finishTick b p).(vars).(body) = p.(vars).(body)
  /\ (finishTick b p).(vars).(isFlying) = p.(vars).(isFlying)
  /\ sameSetup p (finishTick b p).
Proof.
  unfold finishTick, sameSetup.
  destruct (mesh p); [destruct (isFlying (vars p)) eqn:E|]; cbn; rewrite ?E; auto 10.
Qed.

Lemma classified_keeps (env : Env) (b : RigidBody) (p : Player) :
  (classified env b p).(vars).(body) = p.(vars).(body)
  /\ (classified env b p).(vars).(isFlying) = p.(vars).(isFlying)
  /\ (classified env b p).(vars).(isGrounded) = hasContact env
  /\ (classified env b p).(collisionMesh) = p.(collisionMesh)
  /\ (classified env b p).(mesh) = p.(mesh)
  /\ (classified env b p).(oceanMode).(isActive) = submerged p.(oceanMode) b.
Proof. unfold classified; cbn; auto 10. Qed.

(** A whole tick, once the physics is set up: it never fails, runs the mode
    controller the dispatch resolves, and makes its engine calls. *)
Lemma Player_update_outcome (env : Env) (p : Player) (b : RigidBody) :
  p.(vars).(body) = Some b ->
  p.(vars).(collider) = true ->
  let m := resolveMode (submerged p.(oceanMode) b) p.(vars).(isFlying)
                       (hasContact env) in
  let calls := handlerCalls m env (classified env b p) b in
  exists p1 : Player,
    Player.update env p = Some (tt, p1, Run m :: asEvents calls)
    /\ p1.(vars).(body) = Some (performAll (map snd calls) b)
    /\ p1.(vars).(isGrounded) = hasContact env
    /\ p1.(vars).(collider) = true
    /\ p1.(collisionMesh) = p.(collisionMesh)
    /\ p1.(oceanMode).(isActive) = submerged p.(oceanMode) b
    /\ p1.(vars).(isFlying)
       = match m with ByOceanMode => false | _ => p.(vars).(isFlying) end.
Proof.
  intros Hb Hc. cbv zeta.
  rewrite (Player_update_tick env p b Hb Hc). cbv zeta.
  destruct (classified_keeps env b p) as (Kb & Kf & Kg & Km & _ & Ka).
  pose proof (handler_outcome env (classified env b p) b
                (submerged p.(oceanMode) b)) as Ho.
  rewrite Kb, Kf, Kg in Ho. specialize (Ho Hb). cbv zeta in Ho.
  destruct Ho as [pc [Hrun [Hbc [Hs Hfc]]]].
  rewrite Hrun.
  destruct (finishTick_keeps b pc) as (Fb & Ff & Fs).
  exists (finishTick b pc).
  destruct Hs as (S1 & S2 & S3 & S4 & S5).
  destruct Fs as (T1 & T2 & T3 & T4 & T5).
  split; [reflexivity|].
  split; [now rewrite Fb|].
  split; [now rewrite T1, S1|].
  split; [rewrite T2, S2; unfold classified; cbn; exact Hc|].
  split; [now rewrite T4, S4|].
  split; [now rewrite T5, S5|].
  now rewrite Ff, Hfc.
Qed.

Lemma handlerCalls_by (m : Component) (env : Env) (p : Player) (b : RigidBody) :
  Forall (fun wc : Component * BodyCall =>
            fst wc = m \/ (m = ByOceanMode /\ fst wc = ByFlightMode))
         (handlerCalls m env p b).
Proof.
  assert (Hmap : forall (w : Component) (cs : list BodyCall) (P : Component * BodyCall -> Prop),
             (forall c, P (w, c)) -> Forall P (map (pair w) cs)).
  { intros w cs P HP. induction cs as [|c rest IH]; constructor; auto. }
  destruct m; cbn [handlerCalls];
    try (apply Forall_nil);
    try (apply Hmap; intros c; left; reflexivity).
  destruct (isFlying (vars p) && collisionMesh p).
  - apply Forall_app. split; apply Hmap; intros c; cbn [fst]; auto.
  - apply Hmap; intros c; left; reflexivity.
Qed.

(** C5.  One mode handler per tick.  On every tick in which the player body
    exists (with its collider, which is created with it), [Player.update]
    runs exactly one of the four mode handlers, resolved first-match in the
    order Submerged, Flying, contact-determined Grounded, else Airborne: the
    engine calls of the tick are exactly the calls the [update] method of
    that one handler makes on the player with its flags refreshed, and the
    body the tick leaves is the body that handler leaves.  The grounded flag
    is recomputed in that tick from the contact pairs: true exactly when
    there is at least one. *)
Theorem C5_one_mode_per_tick :
  forall (env : Env) (p : Player) (b : RigidBody),
    p.(vars).(body) = Some b ->
    p.(vars).(collider) = true ->
    let grounded := hasContact env in
    let inOcean := submerged p.(oceanMode) b in
    let flying := p.(vars).(isFlying) in
    let m := resolveMode inOcean flying grounded in
    let handler :=
      match m with
      | ByOceanMode => OceanMode.update env
      | ByFlightMode => FlightMode.update env
      | ByGroundMode => GroundMode.update env
      | _ => AirMode.update env
      end in
    exists (p1 ph : Player) (t th : Trace),
      Player.update env p = Some (tt, p1, t)
      (* the handler that runs, and what it is run on *)
      /\ handler (classified env b p) = Some (tt, ph, th)
      /\ t = Run m :: th
      /\ p1.(vars).(body) = ph.(vars).(body)
      /\ p1.(vars).(isFlying) = ph.(vars).(isFlying)
      (* its engine calls, and the body they leave *)
      /\ th = asEvents (handlerCalls m env (classified env b p) b)
      /\ p1.(vars).(body)
         = Some (performAll
                   (map snd (handlerCalls m env (classified env b p) b)) b)
      /\ Forall (fun e : Event =>
                   exists (who : Component) (c : BodyCall),
                     e = BodyWrite who c
                     /\ (who = m \/ (m = ByOceanMode /\ who = ByFlightMode)))
                th
      (* one handler, first match *)
      /\ filter isRun t = [Run m]
      /\ isModeHandler m = true
      /\ (m = ByOceanMode <-> inOcean = true)
      /\ (m = ByFlightMode <-> inOcean = false /\ flying = true)
      /\ (m = ByGroundMode
          <-> inOcean = false /\ flying = false /\ grounded = true)
      /\ (m = ByAirMode
          <-> inOcean = false /\ flying = false /\ grounded = false)
      (* the grounded flag *)
      /\ (classified env b p).(vars).(isGrounded) = grounded
      /\ p1.(vars).(isGrounded) = grounded
      /\ (grounded = true <-> env.(contactPairs) <> []).
Proof.
  intros env p b Hb Hc grounded inOcean flying m handler.
  destruct (Player_update_outcome env p b Hb Hc)
    as (p1 & Hu & Hb1 & Hg & _ & _ & _ & Hf1).
  fold grounded inOcean flying in Hu, Hb1, Hg, Hf1. fold m in Hu, Hb1, Hf1.
  pose proof (Player_update_tick env p b Hb Hc) as Ht. cbv zeta in Ht.
  fold grounded inOcean flying in Ht. fold m in Ht.
  destruct (classified_keeps env b p) as (Kb & Kf & Kg & _).
  pose proof (handler_outcome env (classified env b p) b inOcean) as Ho.
  rewrite Kb, Kf, Kg in Ho. specialize (Ho Hb). cbv zeta in Ho.
  fold grounded flying in Ho. fold m in Ho.
  destruct Ho as (ph & Hrun & Hbh & _ & Hfh).
  assert (Hh : handlerOf m env = handler).
  { unfold handler, m, resolveMode.
    destruct inOcean, flying, grounded; reflexivity. }
  rewrite Hh in Hrun.
  exists p1, ph, (Run m :: asEvents (handlerCalls m env (classified env b p) b)),
    (asEvents (handlerCalls m env (classified env b p) b)).
  split; [exact Hu|]. split; [exact Hrun|]. split; [reflexivity|].
  split; [now rewrite Hb1, Hbh|]. split; [now rewrite Hf1, Hfh|].
  split; [reflexivity|]. split; [exact Hb1|].
  split.
  { unfold asEvents. apply Forall_map.
    eapply Forall_impl; [|apply handlerCalls_by].
    intros [who c] H. exists who, c. split; [reflexivity|exact H]. }
  split; [cbn; now rewrite filter_isRun_asEvents|].
  split; [unfold m, resolveMode; destruct inOcean, flying, grounded; reflexivity|].
  split; [unfold m, resolveMode; destruct inOcean, flying, grounded;
          split; intros; intuition congruence|].
  split; [unfold m, resolveMode; destruct inOcean, flying, grounded;
          split; intros; intuition congruence|].
  split; [unfold m, resolveMode; destruct inOcean, flying, grounded;
          split; intros; intuition congruence|].
  split; [unfold m, resolveMode; destruct inOcean, flying, grounded;
          split; intros; intuition congruence|].
  split; [exact Kg|]. split; [exact Hg|].
  unfold grounded, hasContact. destruct (contactPairs env); split; congruence.
Qed.

Lemma createBody_ready (p : Player) :
  exists (p1 : Player) (b1 : RigidBody),
    PlayerPhysics.createBody p
    = Some (tt, p1, [BodyWrite ByPlayerPhysics (applyImpulse (Vec3 3.0 0 0))])
    /\ p1.(vars).(body) = Some b1
    /\ p1.(vars).(collider) = true
    /\ p1.(collisionMesh) = true
    /\ b1.(gravityScale) = 1
    /\ p1.(vars).(isFlying) = p.(vars).(isFlying)
    /\ p1.(oceanMode) = p.(oceanMode).
Proof.
  unfold PlayerPhysics.createBody, PlayerPhysics.createCollisionMesh,
    bind, get, setVars, modify, bodyCall. cbn.
  eexists _, _. split; [reflexivity|]. cbn. auto 10.
Qed.

(** C8.  Flight entry and exit.  With the physics set up, the toggle on a
    player that is not flying zeroes the angular velocity, sets the gravity
    scale to 0 and initializes target and current pitch from the velocity's
    flight-path angle, with roll 0; on a flying player it restores the
    gravity scale to 1 and zeroes pitch and roll and their targets; each
    writes the gravity scale once.  A tick never enters flight and writes
    the gravity scale only when the player is submerged while flying: then
    the calls of the flight exit come first and the Submerged dynamics
    after them. *)
Theorem C8_flight_entry_exit :
  forall (env : Env) (now : R) (p : Player) (b : RigidBody),
    p.(vars).(body) = Some b ->
    p.(vars).(collider) = true ->
    p.(collisionMesh) = true ->
    (* the toggle: entry when not flying, exit when flying *)
    (exists (p1 : Player) (b1 : RigidBody) (t : Trace),
        FlightMode.activate now p = Some (tt, p1, t)
        /\ p1.(vars).(body) = Some b1
        /\ p1.(vars).(isFlying) = negb p.(vars).(isFlying)
        /\ if p.(vars).(isFlying)
           then b1.(gravityScale) = 1
                /\ p1.(vars).(targetPitch) = 0 /\ p1.(vars).(targetRoll) = 0
                /\ p1.(vars).(currentPitch) = 0 /\ p1.(vars).(currentRoll) = 0
                /\ filter isGravityScaleWrite t
                   = [BodyWrite ByFlightMode (setGravityScale 1)]
           else b1.(gravityScale) = 0
                /\ b1.(angvel) = Vec3 0 0 0
                /\ p1.(vars).(targetPitch)
                   = JsMath.atan2 b.(linvel).(_y)
                       (sqrt (b.(linvel).(_x) * b.(linvel).(_x)
                              + b.(linvel).(_z) * b.(linvel).(_z)))
                /\ p1.(vars).(currentPitch) = p1.(vars).(targetPitch)
                /\ p1.(vars).(targetRoll) = 0 /\ p1.(vars).(currentRoll) = 0
                /\ t = [BodyWrite ByFlightMode (setGravityScale 0);
                        BodyWrite ByFlightMode (setAngvel (Vec3 0 0 0))])
    (* a tick: flight is never entered; it is left, once, when the player
       is submerged while flying, before the Submerged dynamics *)
    /\ (exists (p2 : Player) (b2 : RigidBody) (t2 : Trace),
          Player.update env p = Some (tt, p2, t2)
          /\ p2.(vars).(body) = Some b2
          /\ p2.(vars).(isFlying)
             = p.(vars).(isFlying) && negb (submerged p.(oceanMode) b)
          /\ if submerged p.(oceanMode) b && p.(vars).(isFlying)
             then b2.(gravityScale) = 1
                  /\ t2 = Run ByOceanMode
                          :: map (BodyWrite ByFlightMode) (flightExitCalls p)
                          ++ map (BodyWrite ByOceanMode)
                               (oceanCalls p.(oceanMode)
                                  (performAll (flightExitCalls p) b))
                  /\ filter isGravityScaleWrite t2
                     = [BodyWrite ByFlightMode (setGravityScale 1)]
             else b2.(gravityScale) = b.(gravityScale)
                  /\ filter isGravityScaleWrite t2 = []).
Proof.
  intros env now p b Hb Hc Hm. split.
  - destruct (isFlying (vars p)) eqn:Hf.
    + rewrite (activate_exit now p b Hb Hm Hf).
      destruct (flightExitCalls_gravity p b) as [G1 G2].
      eexists _, _, _. split; [reflexivity|].
      split; [reflexivity|]. split; [reflexivity|].
      repeat split; try reflexivity; assumption.
    + pose proof (activate_entry now p b Hb Hm Hf) as He. cbv zeta in He.
      rewrite He. eexists _, _, _. split; [reflexivity|].
      split; [reflexivity|]. split; [reflexivity|].
      repeat split; reflexivity.
  - destruct (Player_update_outcome env p b Hb Hc)
      as (p2 & Hu & Hb2 & _ & _ & _ & _ & Hf2).
    cbv zeta in Hu, Hb2, Hf2.
    destruct (classified_keeps env b p) as (_ & Kf & _ & Km & Kmesh & _).
    exists p2. eexists _, _. split; [exact Hu|]. split; [exact Hb2|].
    unfold resolveMode, handlerCalls in *.
    destruct (submerged (oceanMode p) b); cbn [andb negb].
    + split; [rewrite Hf2; now destruct (isFlying (vars p))|].
      rewrite Kf, Km, Hm.
      assert (Hexit : flightExitCalls (classified env b p) = flightExitCalls p)
        by (unfold flightExitCalls; now rewrite Kmesh).
      change (oceanMode (classified env b p))
        with (set_isActive (submerged (oceanMode p) b) (oceanMode p)).
      rewrite !oceanCalls_isActive.
      destruct (isFlying (vars p)) eqn:Hf; cbn [andb].
      * rewrite Hexit.
        destruct (flightExitCalls_gravity p b) as [G1 G2].
        rewrite map_app, !map_snd_pair, performAll_app.
        rewrite gravityScale_performAll by apply oceanCalls_no_gravity.
        split; [exact G1|].
        rewrite asEvents_app, !asEvents_pair.
        split; [reflexivity|].
        cbn [filter isGravityScaleWrite]. rewrite filter_app, G2.
        rewrite filter_gravity_none by apply oceanCalls_no_gravity. reflexivity.
      * rewrite map_snd_pair, asEvents_pair.
        rewrite gravityScale_performAll by apply oceanCalls_no_gravity.
        split; [reflexivity|]. cbn [filter isGravityScaleWrite].
        now rewrite filter_gravity_none by apply oceanCalls_no_gravity.
    + split; [rewrite Hf2; destruct (isFlying (vars p)), (hasContact env);
              rewrite ?andb_true_r; reflexivity|].
      destruct (isFlying (vars p)); [|destruct (hasContact env)];
        rewrite map_snd_pair, asEvents_pair;
        cbn [filter isGravityScaleWrite].
      * rewrite gravityScale_performAll by apply flightCalls_no_gravity.
        now rewrite filter_gravity_none by apply flightCalls_no_gravity.
      * rewrite gravityScale_performAll by apply groundCalls_no_gravity.
        now rewrite filter_gravity_none by apply groundCalls_no_gravity.
      * rewrite gravityScale_performAll by apply airCalls_no_gravity.
        now rewrite filter_gravity_none by apply airCalls_no_gravity.
Qed.


Lemma C5_witness :
  exists (p1 : Player) (t : Trace),
    Player.update tick16 (playerOn (bodyAtHeight 1)) = Some (tt, p1, t)
    /\ filter isRun t = [Run ByAirMode]
    /\ p1.(vars).(isGrounded) = false.
Proof.
  destruct (C5_one_mode_per_tick tick16 (playerOn (bodyAtHeight 1))
              (bodyAtHeight 1) eq_refl eq_refl)
    as (p1 & ph & t & th & Hu & _ & _ & _ & _ & _ & _ & _ & Hr & _ & _ & _ & _ & _ & _ & Hg & _).
  exists p1, t. split; [exact Hu|]. split; [|exact Hg].
  rewrite Hr. unfold resolveMode, submerged. cbn.
  rewrite (proj2 (leb_false_iff _ _)) by lra.
  rewrite (proj2 (ltb_true_iff _ _)) by lra. reflexivity.
Defined.

Lemma C8_witness :
  exists (p1 : Player) (b1 : RigidBody) (t : Trace),
    FlightMode.activate 0 (playerOn (bodyMoving (Vec3 0 1 0) (Vec3 3 4 0)))
    = Some (tt, p1, t)
    /\ p1.(vars).(body) = Some b1
    /\ p1.(vars).(isFlying) = true
    /\ b1.(gravityScale) = 0
    /\ b1.(angvel) = Vec3 0 0 0
    /\ p1.(vars).(targetRoll) = 0.
Proof.
  destruct (C8_flight_entry_exit tick16 0
              (playerOn (bodyMoving (Vec3 0 1 0) (Vec3 3 4 0)))
              (bodyMoving (Vec3 0 1 0) (Vec3 3 4 0)) eq_refl eq_refl eq_refl)
    as [(p1 & b1 & t & Ha & Hb & Hf & Hrest) _].
  cbn in Hrest. destruct Hrest as (Hg & Hav & _ & _ & Hr & _).
  exists p1, b1, t. repeat split; assumption.
Defined.


(* ---------------------------------------------------------------------- *)
(** ** Body, collider and collision mesh exist together *)
(* ---------------------------------------------------------------------- *)

Lemma createBody_physicsReady (p p1 : Player) (t : Trace) :
  PlayerPhysics.createBody p = Some (tt, p1, t) -> physicsReady p1.
Proof.
  intros H. destruct (createBody_ready p) as (p2 & b2 & Hc & Hb & Hcol & Hm & _).
  rewrite Hc in H. injection H as <- _. unfold physicsReady.
  rewrite Hb. repeat split; try assumption; discriminate.
Qed.

Lemma activate_keeps_physics (now : R) (p p1 : Player) (t : Trace) :
  physicsReady p \/ physicsPending p ->
  FlightMode.activate now p = Some (tt, p1, t) ->
  (physicsReady p -> physicsReady p1) /\ (physicsPending p -> physicsPending p1).
Proof.
  intros Hp Ha. destruct Hp as [(Hb & Hc & Hm)|(Hb & Hc & Hm)].
  - split; [intros _|intros (Hb' & _); congruence].
    destruct (body (vars p)) as [b|] eqn:Eb; [|congruence].
    destruct (isFlying (vars p)) eqn:Ef.
    + rewrite (activate_exit now p b Eb Hm Ef) in Ha. injection Ha as <- _.
      unfold physicsReady. cbn. repeat split; try assumption; discriminate.
    + pose proof (activate_entry now p b Eb Hm Ef) as He. cbv zeta in He.
      rewrite He in Ha. injection Ha as <- _.
      unfold physicsReady. cbn. repeat split; try assumption; discriminate.
  - split; [intros (Hb' & _); congruence|intros _].
    rewrite (activate_without_mesh now p Hm) in Ha. injection Ha as <- _.
    unfold physicsPending. cbn. auto.
Qed.

(** Every reachable player either has body, collider and collision mesh, or
    none of them. *)
Lemma reachable_physics (p : Player) :
  Reachable p -> physicsReady p \/ physicsPending p.
Proof.
  induction 1 as [q ready p t Hnew
                 | key now p p1 t Hr IH Hk
                 | key p p1 t Hr IH Hk
                 | p p1 t Hr IH Hb Hc
                 | env p p1 t Hr IH Hu
                 | p p1 answer t Hr IH Hq
                 | p b b1 Hr IH Hb].
  - unfold Player.new, PlayerPhysics.setup, when in Hnew. destruct ready.
    + left. eapply createBody_physicsReady; eassumption.
    + right. injection Hnew as <- _. unfold physicsPending. cbn. auto.
  - unfold PlayerInput.keydown in Hk.
    set (pk := onVars (fun v => set_keys (PlayerInput.setKey key true v.(keys)) v) p) in *.
    assert (H0 : setVars (fun v => set_keys (PlayerInput.setKey key true v.(keys)) v) p
                 = Some (tt, pk, [])) by reflexivity.
    rewrite (bind_some _ _ _ _ _ _ H0) in Hk.
    assert (Hpk : physicsReady pk \/ physicsPending pk).
    { destruct IH as [(A & B & C)|(A & B & C)]; [left|right]; repeat split; assumption. }
    destruct key; cbn [app] in Hk;
      try (unfold ret in Hk; injection Hk as <- _; exact Hpk).
    destruct (FlightMode.activate now pk) as [[[[] p2] t2]|] eqn:Ea; [|discriminate].
    cbv beta iota in Hk. injection Hk as <- _.
    destruct (activate_keeps_physics now pk p2 t2 Hpk Ea) as [K1 K2].
    destruct Hpk; [left; auto|right; auto].
  - unfold PlayerInput.keyup, setVars, modify in Hk. injection Hk as <- _.
    destruct IH as [(A & B & C)|(A & B & C)]; [left|right]; repeat split; assumption.
  - left. eapply createBody_physicsReady; eassumption.
  - destruct IH as [(A & B & C)|(A & B & C)].
    + left. destruct (body (vars p)) as [b|] eqn:Eb; [|congruence].
      destruct (Player_update_outcome env p b Eb B) as (p2 & Hu2 & Hb2 & _ & Hc2 & Hm2 & _).
      cbv zeta in Hu2. rewrite Hu2 in Hu. injection Hu as <- _.
      unfold physicsReady. rewrite Hb2, Hc2, Hm2. repeat split; auto; discriminate.
    + right. unfold Player.update, bind, get in Hu. rewrite A in Hu.
      unfold ret in Hu. injection Hu as <- _. repeat split; assumption.
  - destruct IH as [(A & B & C)|(A & B & C)].
    + left. destruct (body (vars p)) as [b|] eqn:Eb; [|congruence].
      rewrite (isInOcean_some p b Eb) in Hq. injection Hq as _ <- _.
      unfold physicsReady. cbn. rewrite Eb. repeat split; auto; discriminate.
    + right. unfold OceanMode.isInOcean, bind, get in Hq. rewrite A in Hq.
      unfold ret in Hq. injection Hq as _ <- _. repeat split; assumption.
  - left. destruct IH as [(A & B & C)|(A & B & C)]; [|congruence].
    unfold physicsReady. cbn. repeat split; auto; discriminate.
Qed.

(** So a body handle implies a collider and a collision mesh. *)
Lemma reachable_body (p : Player) (b : RigidBody) :
  Reachable p -> p.(vars).(body) = Some b ->
  p.(vars).(collider) = true /\ p.(collisionMesh) = true.
Proof.
  intros Hr Hb. destruct (reachable_physics p Hr) as [(_ & B & C)|(A & _)].
  - auto.
  - congruence.
Qed.

(* ---------------------------------------------------------------------- *)
(** ** The gate detector (RampL.update) *)
(* ---------------------------------------------------------------------- *)

(** One tick of [RampL.update] outside ramp mode, with a previous position:
    the gate test, the entry on a forward crossing, and the refresh of the
    previous position. *)
Lemma updateWith_gate (env : Env) (r : RampL) (p : Player) (b : RigidBody)
    (prev : Vector3) :
  p.(vars).(body) = Some b ->
  r.(playerRampMode) = false ->
  r.(computedGateMesh) = true ->
  r.(playerPreviousPos) = Some prev ->
  let pos := b.(translation) in
  RampL.updateWith env (r, p)
  = if inGate r pos && forwardAt r prev pos then
      match RampL.enterRampMode (r, p) with
      | Some (_, (r1, p1), t) =>
          Some (tt, (set_playerPreviousPos (Some pos) r1, p1),
                GateCrossed Forward :: t)
      | None => None
      end
    else if inGate r pos && backwardAt r prev pos then
      Some (tt, (set_playerPreviousPos (Some pos) r, p), [GateCrossed Backward])
    else
      Some (tt, (set_playerPreviousPos (Some pos) r, p), []).
Proof.
  intros Hb Hm Hg Hp pos.
  unfold RampL.updateWith. unfold bind at 1. unfold get at 1.
  cbv beta iota. cbn [fst snd]. rewrite Hb, Hm, Hg, Hp. cbn [negb andb].
  rewrite vec3_eta. fold pos.
  unfold inGate, forwardAt, backwardAt.
  destruct (RampL.withinY r pos && RampL.withinWidth r pos); cbn [andb when].
  - destruct (RampL.crossedForward _ _); cbn [orb andb when].
    + unfold bind, emit. cbv beta iota.
      destruct (RampL.enterRampMode (r, p)) as [[[u [r1 p1]] t]|]; [|reflexivity].
      unfold RampL.onRamp, zoom, modify. cbn [fst snd]. rewrite app_nil_r.
      reflexivity.
    + destruct (RampL.crossedBackward _ _); cbn [orb andb when].
      * unfold bind, emit, ret, RampL.onRamp, zoom, modify. cbn. reflexivity.
      * unfold bind, emit, ret, RampL.onRamp, zoom, modify. cbn. reflexivity.
  - unfold bind, emit, ret, RampL.onRamp, zoom, modify. cbn. reflexivity.
Qed.

Lemma crossedForward_iff (dPrev d : R) :
  RampL.crossedForward dPrev d = true <-> dPrev < 0 /\ 0 <= d.
Proof.
  unfold RampL.crossedForward. rewrite andb_true_iff, ltb_true_iff, leb_true_iff.
  tauto.
Qed.

Lemma crossedBackward_iff (dPrev d : R) :
  RampL.crossedBackward dPrev d = true <-> 0 < dPrev /\ d <= 0.
Proof.
  unfold RampL.crossedBackward. rewrite andb_true_iff, ltb_true_iff, leb_true_iff.
  tauto.
Qed.

Lemma inGate_iff (r : RampL) (pos : Vector3) :
  inGate r pos = true
  <-> (r.(gateCenter).(_y) - r.(gateHeight) / 2 <= pos.(_y)
       <= r.(gateCenter).(_y) + r.(gateHeight) / 2)
      /\ Rabs (dot (Vec3 (pos.(_x) - r.(gateCenter).(_x)) 0
                         (pos.(_z) - r.(gateCenter).(_z)))
                   (Vec3 (- r.(gateNormal).(_z)) 0 r.(gateNormal).(_x)))
         <= r.(gateWidth) / 2.
Proof.
  unfold inGate, RampL.withinY, RampL.withinWidth, JsMath.abs.
  rewrite !andb_true_iff, !leb_true_iff. tauto.
Qed.

Lemma sameGate_refl (r : RampL) : sameGate r r.
Proof. unfold sameGate; auto. Qed.

Lemma sameGate_trans (r r1 r2 : RampL) :
  sameGate r r1 -> sameGate r1 r2 -> sameGate r r2.
Proof.
  unfold sameGate. intros (A1 & A2 & A3 & A4 & A5) (B1 & B2 & B3 & B4 & B5).
  repeat split; congruence.
Qed.

Lemma sameGate_tests (r r1 : RampL) :
  sameGate r r1 ->
  (forall pos, RampL.signedDistanceTo r1 pos = RampL.signedDistanceTo r pos)
  /\ (forall pos, inGate r1 pos = inGate r pos)
  /\ (forall prev pos, forwardAt r1 prev pos = forwardAt r prev pos)
  /\ (forall prev pos, backwardAt r1 prev pos = backwardAt r prev pos).
Proof.
  intros (A1 & A2 & A3 & A4 & A5).
  assert (Hd : forall pos, RampL.signedDistanceTo r1 pos = RampL.signedDistanceTo r pos).
  { intros pos. unfold RampL.signedDistanceTo. now rewrite A1, A4. }
  split; [exact Hd|]. split.
  { intros pos. unfold inGate, RampL.withinY, RampL.withinWidth.
    now rewrite A1, A2, A3, A4. }
  split; intros prev pos; unfold forwardAt, backwardAt; now rewrite !Hd.
Qed.

(** The ramp after [enterRampMode]: armed, same gate, same memory. *)
Lemma enterRampMode_ramp (r : RampL) (p : Player) (b : RigidBody) :
  p.(vars).(body) = Some b ->
  exists (r1 : RampL) (p1 : Player) (c1 c2 : BodyCall),
    RampL.enterRampMode (r, p)
    = Some (tt, (r1, p1), [BodyWrite ByRampL c1; BodyWrite ByRampL c2; EnteredRampMode])
    /\ r1.(playerRampMode) = true
    /\ r1.(playerPreviousPos) = r.(playerPreviousPos)
    /\ sameGate r r1
    /\ (exists b1, p1.(vars).(body) = Some b1).
Proof.
  intros Hb. pose proof (enterRampMode_some r p b Hb) as He. cbv zeta in He.
  rewrite He. eexists _, _, _, _. split; [reflexivity|].
  cbn. repeat split. eexists; reflexivity.
Qed.

(** The ramp after a tick in ramp mode: same gate, same memory, and no
    gate or entry event. *)
Lemma rampTick_quiet (env : Env) (r : RampL) (b : RigidBody) :
  let '(r1, b1, t) := rampTick env r b in
  sameGate r r1
  /\ r1.(playerPreviousPos) = r.(playerPreviousPos)
  /\ filter isGateCrossed t = []
  /\ filter isEnteredRampMode t = [].
Proof.
  unfold rampTick.
  destruct (RampL.stepRampConstraint _ _ _) as [state1 result].
  destruct (exitedRamp result); cbn; unfold sameGate; cbn; auto 10.
Qed.

(** A tick outside ramp mode. *)
Lemma gate_tick (env : Env) (r : RampL) (p : Player) (b : RigidBody) (prev : Vector3) :
  p.(vars).(body) = Some b ->
  r.(playerRampMode) = false ->
  r.(computedGateMesh) = true ->
  r.(playerPreviousPos) = Some prev ->
  let pos := b.(translation) in
  let forward := inGate r pos && forwardAt r prev pos in
  let backward := inGate r pos && backwardAt r prev pos in
  exists (r1 : RampL) (p1 : Player) (t : Trace),
    RampL.updateWith env (r, p) = Some (tt, (r1, p1), t)
    /\ filter isGateCrossed t
       = (if forward then [GateCrossed Forward]
          else if backward then [GateCrossed Backward] else [])
    /\ filter isEnteredRampMode t = (if forward then [EnteredRampMode] else [])
    /\ r1.(playerRampMode) = forward
    /\ r1.(playerPreviousPos) = Some pos
    /\ sameGate r r1.
Proof.
  intros Hb Hm Hg Hp pos forward backward.
  rewrite (updateWith_gate env r p b prev Hb Hm Hg Hp). fold pos.
  fold forward. fold backward.
  destruct forward.
  - destruct (enterRampMode_ramp r p b Hb)
      as (r1 & p1 & c1 & c2 & He & Hm1 & _ & Hs & _).
    rewrite He. eexists _, _, _. split; [reflexivity|].
    cbn. repeat split; try assumption; try apply Hs.
  - destruct backward; eexists _, _, _; (split; [reflexivity|]);
      cbn; repeat split; try assumption; auto.
Qed.

(** A tick in ramp mode: detection is suspended. *)
Lemma ramp_tick (env : Env) (r : RampL) (p : Player) (b : RigidBody) :
  p.(vars).(body) = Some b ->
  r.(playerRampMode) = true ->
  exists (r1 : RampL) (p1 : Player) (t : Trace),
    RampL.updateWith env (r, p) = Some (tt, (r1, p1), t)
    /\ filter isGateCrossed t = []
    /\ filter isEnteredRampMode t = []
    /\ r1.(playerPreviousPos) = r.(playerPreviousPos)
    /\ sameGate r r1.
Proof.
  intros Hb Hm. rewrite (updateWith_rampMode env r p b Hb Hm).
  pose proof (rampTick_quiet env r b) as Hq.
  destruct (rampTick env r b) as [[r1 b1] t].
  destruct Hq as (Hs & Hp & H1 & H2).
  eexists _, _, _. split; [reflexivity|]. auto.
Qed.

Lemma rampRun_app (env : Env) (l1 l2 : list RigidBody) :
  forall s : RampL * Player,
    rampRun env (l1 ++ l2) s
    = match rampRun env l1 s with
      | Some (s1, t1) =>
          match rampRun env l2 s1 with
          | Some (s2, t2) => Some (s2, t1 ++ t2)
          | None => None
          end
      | None => None
      end.
Proof.
  induction l1 as [|b rest IH]; intros s.
  - cbn. destruct (rampRun env l2 s) as [[s2 t2]|]; reflexivity.
  - cbn [app rampRun].
    destruct (RampL.updateWith env (fst s, withBody b (snd s))) as [[[u s1] t1]|];
      [|reflexivity].
    rewrite IH.
    destruct (rampRun env rest s1) as [[s2 t2]|]; [|reflexivity].
    destruct (rampRun env l2 s2) as [[s3 t3]|]; [|reflexivity].
    now rewrite app_assoc.
Qed.

(** Approaching the gate from behind: no event, and the player is still
    behind it. *)
Lemma rampRun_behind (env : Env) (r : RampL) (bodies : list RigidBody) :
  forall (s : RampL * Player) (prev : Vector3),
    sameGate r (fst s) ->
    r.(computedGateMesh) = true ->
    (fst s).(playerRampMode) = false ->
    (fst s).(playerPreviousPos) = Some prev ->
    RampL.signedDistanceTo r prev < 0 ->
    Forall (fun b => RampL.signedDistanceTo r b.(translation) < 0) bodies ->
    exists (s1 : RampL * Player) (t : Trace) (prev1 : Vector3),
      rampRun env bodies s = Some (s1, t)
      /\ filter isGateCrossed t = []
      /\ filter isEnteredRampMode t = []
      /\ sameGate r (fst s1)
      /\ (fst s1).(playerRampMode) = false
      /\ (fst s1).(playerPreviousPos) = Some prev1
      /\ RampL.signedDistanceTo r prev1 < 0.
Proof.
  induction bodies as [|b rest IH]; intros s prev Hs Hg Hm Hp Hd Hall.
  - exists s, [], prev. cbn. auto 10.
  - inversion Hall as [|b' rest' Hb Hrest]; subst.
    destruct (sameGate_tests r (fst s) Hs) as (Td & Ti & Tf & Tb).
    assert (Hg1 : (fst s).(computedGateMesh) = true)
      by (destruct Hs as (_ & _ & _ & _ & ->); exact Hg).
    destruct (gate_tick env (fst s) (withBody b (snd s)) b prev
                (withBody_body _ _) Hm Hg1 Hp)
      as (r1 & p1 & t & Hu & H1 & H2 & Hm1 & Hp1 & Hs1).
    cbv zeta in H1, H2, Hm1.
    assert (Hf : forwardAt (fst s) prev (translation b) = false).
    { rewrite Tf. apply not_true_is_false. intros H.
      apply crossedForward_iff in H. lra. }
    assert (Hbw : backwardAt (fst s) prev (translation b) = false).
    { rewrite Tb. apply not_true_is_false. intros H.
      apply crossedBackward_iff in H. lra. }
    rewrite Hf, Hbw, !andb_false_r in *.
    destruct (IH (r1, p1) (translation b)) as (s2 & t2 & prev2 & Hr & R1 & R2 & R3 & R4 & R5 & R6);
      try assumption.
    { cbn. eapply sameGate_trans; eassumption. }
    exists s2, (t ++ t2), prev2. cbn [rampRun]. rewrite Hu, Hr.
    rewrite !filter_app, H1, H2, R1, R2. auto 10.
Qed.

(** Past the gate: as long as the player stays strictly in front of it, no
    event, whether the solver is still active or not. *)
Lemma rampRun_past (env : Env) (r : RampL) (bodies : list RigidBody) :
  forall (s : RampL * Player) (prev : Vector3),
    sameGate r (fst s) ->
    r.(computedGateMesh) = true ->
    (fst s).(playerPreviousPos) = Some prev ->
    0 <= RampL.signedDistanceTo r prev ->
    Forall (fun b => 0 < RampL.signedDistanceTo r b.(translation)) bodies ->
    exists (s1 : RampL * Player) (t : Trace),
      rampRun env bodies s = Some (s1, t)
      /\ filter isGateCrossed t = []
      /\ filter isEnteredRampMode t = [].
Proof.
  induction bodies as [|b rest IH]; intros s prev Hs Hg Hp Hd Hall.
  - exists s, []. cbn. auto.
  - inversion Hall as [|b' rest' Hb Hrest]; subst.
    destruct (sameGate_tests r (fst s) Hs) as (Td & Ti & Tf & Tb).
    assert (Hg1 : (fst s).(computedGateMesh) = true)
      by (destruct Hs as (_ & _ & _ & _ & ->); exact Hg).
    destruct ((fst s).(playerRampMode)) eqn:Hm.
    + destruct (ramp_tick env (fst s) (withBody b (snd s)) b (withBody_body _ _) Hm)
        as (r1 & p1 & t & Hu & H1 & H2 & Hp1 & Hs1).
      destruct (IH (r1, p1) prev) as (s2 & t2 & Hr & R1 & R2); try assumption.
      { cbn. eapply sameGate_trans; eassumption. }
      { cbn. now rewrite Hp1. }
      exists s2, (t ++ t2). cbn [rampRun]. rewrite Hu, Hr.
      rewrite !filter_app, H1, H2, R1, R2. auto.
    + destruct (gate_tick env (fst s) (withBody b (snd s)) b prev
                  (withBody_body _ _) Hm Hg1 Hp)
        as (r1 & p1 & t & Hu & H1 & H2 & Hm1 & Hp1 & Hs1).
      cbv zeta in H1, H2, Hm1.
      assert (Hf : forwardAt (fst s) prev (translation b) = false).
      { rewrite Tf. apply not_true_is_false. intros H.
        apply crossedForward_iff in H. lra. }
      assert (Hbw : backwardAt (fst s) prev (translation b) = false).
      { rewrite Tb. apply not_true_is_false. intros H.
        apply crossedBackward_iff in H. lra. }
      rewrite Hf, Hbw, !andb_false_r in *.
      destruct (IH (r1, p1) (translation b)) as (s2 & t2 & Hr & R1 & R2);
        try assumption.
      { cbn. eapply sameGate_trans; eassumption. }
      { lra. }
      exists s2, (t ++ t2). cbn [rampRun]. rewrite Hu, Hr.
      rewrite !filter_app, H1, H2, R1, R2. auto.
Qed.

(** One traversal: behind the gate, then through it within bounds, then in
    front of it.  Exactly one forward crossing, the solver armed once. *)
Lemma rampRun_traversal (env : Env) (r : RampL) (p : Player) (prev : Vector3)
    (before : list RigidBody) (bc : RigidBody) (after : list RigidBody) :
  r.(computedGateMesh) = true ->
  r.(playerRampMode) = false ->
  r.(playerPreviousPos) = Some prev ->
  RampL.signedDistanceTo r prev < 0 ->
  Forall (fun b => RampL.signedDistanceTo r b.(translation) < 0) before ->
  0 <= RampL.signedDistanceTo r bc.(translation) ->
  inGate r bc.(translation) = true ->
  Forall (fun b => 0 < RampL.signedDistanceTo r b.(translation)) after ->
  exists (s1 : RampL * Player) (t : Trace),
    rampRun env (before ++ bc :: after) (r, p) = Some (s1, t)
    /\ filter isGateCrossed t = [GateCrossed Forward]
    /\ filter isEnteredRampMode t = [EnteredRampMode].
Proof.
  intros Hg Hm Hp Hd Hbefore Hbc Hin Hafter.
  destruct (rampRun_behind env r before (r, p) prev (sameGate_refl r) Hg Hm Hp Hd Hbefore)
    as (s1 & t1 & prev1 & Hr1 & A1 & A2 & Hs1 & Hm1 & Hp1 & Hd1).
  destruct (sameGate_tests r (fst s1) Hs1) as (Td & Ti & Tf & Tb).
  assert (Hg1 : (fst s1).(computedGateMesh) = true)
    by (destruct Hs1 as (_ & _ & _ & _ & ->); exact Hg).
  destruct (gate_tick env (fst s1) (withBody bc (snd s1)) bc prev1
              (withBody_body _ _) Hm1 Hg1 Hp1)
    as (r2 & p2 & t2 & Hu & B1 & B2 & Hm2 & Hp2 & Hs2).
  cbv zeta in B1, B2, Hm2.
  assert (Hf : forwardAt (fst s1) prev1 (translation bc) = true).
  { rewrite Tf. apply crossedForward_iff. lra. }
  rewrite Ti, Hin, Hf in *. cbn [andb] in *.
  destruct (rampRun_past env r after (r2, p2) (translation bc)) as (s3 & t3 & Hr3 & C1 & C2);
    try assumption.
  { cbn. eapply sameGate_trans; eassumption. }
  exists s3, (t1 ++ t2 ++ t3).
  rewrite rampRun_app, Hr1. cbn [rampRun]. rewrite Hu, Hr3.
  rewrite !filter_app, A1, A2, B1, B2, C1, C2. auto.
Qed.

Lemma new_gateNormal : RampL.computeGateNormal (PI / 4) (PI / 2) 0 = Vec3 1 0 0.
Proof.
  unfold RampL.computeGateNormal, setFromEulerYXZ, applyQuaternion. cbn [qx qy qz qw _x _y _z].
  replace (0 / 2) with 0 by lra. rewrite cos_0, sin_0.
  replace (PI / 2 / 2) with (PI / 4) by lra.
  set (c1 := cos (PI / 4 / 2)). set (s1 := sin (PI / 4 / 2)).
  assert (H1 : s1 * s1 + c1 * c1 = 1).
  { unfold s1, c1. generalize (sin2_cos2 (PI / 4 / 2)). unfold Rsqr. lra. }
  assert (Hc : c1 * c1 - s1 * s1 = cos (PI / 4)).
  { pose proof (cos_2a (PI / 4 / 2)) as H2.
    replace (2 * (PI / 4 / 2)) with (PI / 4) in H2 by lra.
    rewrite H2. reflexivity. }
  assert (Hs4 : sin (PI / 4) = cos (PI / 4)).
  { rewrite sin_PI4, cos_PI4. reflexivity. }
  assert (Hcs : 2 * (cos (PI / 4) * cos (PI / 4)) = 1).
  { generalize (sin2_cos2 (PI / 4)). unfold Rsqr. rewrite Hs4. lra. }
  assert (Hpos : 0 < cos (PI / 4)).
  { rewrite cos_PI4. apply Rdiv_lt_0_compat; [lra|]. apply sqrt_lt_R0; lra. }
  rewrite Hs4.
  set (c := cos (PI / 4)) in *.
  match goal with |- context [JsMath.ltb 0.001 (length ?v)] => set (flat := v) end.
  assert (Hx : flat = Vec3 c 0 0).
  { unfold flat. f_equal; nra. }
  rewrite Hx.
  assert (Hlen : length (Vec3 c 0 0) = c).
  { unfold length, lengthSq, dot. cbn [_x _y _z].
    replace (c * c + 0 * 0 + 0 * 0) with (Rsqr c) by (unfold Rsqr; ring).
    apply sqrt_Rsqr. lra. }
  assert (Hc_lb : 0.7 < c).
  { assert (0.49 < c * c) by lra. nra. }
  rewrite Hlen, (proj2 (ltb_true_iff _ _)) by lra.
  unfold normalize, multiplyScalar. rewrite Hlen. cbn [_x _y _z].
  rewrite orElse_nonzero by lra.
  f_equal; field; lra.
Qed.

Lemma new_signedDistance (prev pos : Vector3) :
  RampL.signedDistanceTo (rampWithPrevious prev) pos = pos.(_x) - 236.
Proof.
  unfold RampL.signedDistanceTo, rampWithPrevious. cbn [gateNormal gateCenter
    set_playerPreviousPos RampL.new _x _y _z].
  rewrite new_gateNormal. unfold dot. cbn [_x _y _z]. ring.
Qed.

Lemma new_inGate (prev pos : Vector3) :
  inGate (rampWithPrevious prev) pos = true
  <-> (-223 <= pos.(_y) <= -193) /\ Rabs pos.(_z) <= 20.
Proof.
  rewrite inGate_iff. unfold rampWithPrevious. cbn [gateNormal gateCenter gateHeight
    gateWidth set_playerPreviousPos RampL.new _x _y _z].
  rewrite new_gateNormal. unfold dot. cbn [_x _y _z].
  replace ((_x pos - 236) * - 0 + 0 * 0 + (_z pos - 0) * 1) with (_z pos) by ring.
  split; intros [H1 H2]; split; lra.
Qed.

(** No notion of sign turns the code's crossing test into a sign change. *)
Lemma crossing_is_no_sign_change (T : Type) (sign : R -> T) :
  ~ (forall dPrev d : R,
       RampL.crossedForward dPrev d || RampL.crossedBackward dPrev d = true
       <-> sign d <> sign dPrev).
Proof.
  intros H.
  assert (H1 : sign 0 <> sign 1).
  { apply H. apply orb_true_iff. right. apply crossedBackward_iff. lra. }
  assert (H2 : ~ sign 1 <> sign 0).
  { intros Hn. apply H in Hn. apply orb_true_iff in Hn.
    destruct Hn as [Hn|Hn];
      [apply crossedForward_iff in Hn | apply crossedBackward_iff in Hn]; lra. }
  apply H2. intros E. apply H1. now symmetry.
Qed.

(** C2 (the claim as stated fails).  With the previous position on the gate
    plane and the current one 5 in front of it, inside the gate and outside
    ramp mode, the sign of the distance differs from the previous tick's
    (0, then positive) and no crossing is detected; and from 5 in front of
    the plane onto it, both distances being non-negative, a backward
    crossing is detected. *)
Lemma C2_counterexample :
  let behind := Vec3 231 (-208) 0 in
  let onPlane := Vec3 236 (-208) 0 in
  let inFront := Vec3 241 (-208) 0 in
  (* from the plane itself to 5 in front of it, inside the gate: the sign
     changes from 0 to +, and nothing is detected *)
  (RampL.signedDistanceTo (rampWithPrevious onPlane) onPlane = 0
   /\ RampL.signedDistanceTo (rampWithPrevious onPlane) inFront = 5
   /\ JsMath.sign 5 <> JsMath.sign 0
   /\ inGate (rampWithPrevious onPlane) inFront = true
   /\ (rampWithPrevious onPlane).(playerRampMode) = false
   /\ exists (r1 : RampL) (p1 : Player),
        RampL.updateWith tick16
          (rampWithPrevious onPlane, playerOn (bodyMoving inFront (Vec3 5 0 0)))
        = Some (tt, (r1, p1), []))
  (* from 5 in front of the plane onto it: both distances are non-negative,
     and a backward crossing is detected *)
  /\ (RampL.signedDistanceTo (rampWithPrevious inFront) inFront = 5
      /\ RampL.signedDistanceTo (rampWithPrevious inFront) onPlane = 0
      /\ exists (r1 : RampL) (p1 : Player),
           RampL.updateWith tick16
             (rampWithPrevious inFront, playerOn (bodyMoving onPlane (Vec3 (-5) 0 0)))
           = Some (tt, (r1, p1), [GateCrossed Backward])).
Proof.
  cbv zeta.
  assert (Hin : forall prev z, Rabs z <= 20 ->
            inGate (rampWithPrevious prev) (Vec3 241 (-208) z) = true
            /\ inGate (rampWithPrevious prev) (Vec3 236 (-208) z) = true).
  { intros prev z Hz. split; apply new_inGate; cbn [_y _z]; split; lra. }
  assert (Hz0 : Rabs 0 <= 20) by (rewrite Rabs_R0; lra).
  split.
  - rewrite !new_signedDistance. cbn [_x].
    split; [lra|]. split; [lra|].
    split.
    { unfold JsMath.sign.
      destruct (Rlt_dec 0 5); [|lra]. destruct (Rlt_dec 0 0); [lra|].
      destruct (Rlt_dec 0 0); lra. }
    split; [apply Hin; exact Hz0|]. split; [reflexivity|].
    rewrite (updateWith_gate tick16 (rampWithPrevious (Vec3 236 (-208) 0))
               (playerOn (bodyMoving (Vec3 241 (-208) 0) (Vec3 5 0 0)))
               (bodyMoving (Vec3 241 (-208) 0) (Vec3 5 0 0))
               (Vec3 236 (-208) 0) eq_refl eq_refl eq_refl eq_refl).
    cbn [translation bodyMoving].
    assert (Hf : forwardAt (rampWithPrevious (Vec3 236 (-208) 0))
                   (Vec3 236 (-208) 0) (Vec3 241 (-208) 0) = false).
    { apply not_true_is_false. intros H. apply crossedForward_iff in H.
      rewrite !new_signedDistance in H. cbn [_x] in H. lra. }
    assert (Hb : backwardAt (rampWithPrevious (Vec3 236 (-208) 0))
                   (Vec3 236 (-208) 0) (Vec3 241 (-208) 0) = false).
    { apply not_true_is_false. intros H. apply crossedBackward_iff in H.
      rewrite !new_signedDistance in H. cbn [_x] in H. lra. }
    rewrite Hf, Hb, !andb_false_r. eexists _, _. reflexivity.
  - rewrite !new_signedDistance. cbn [_x].
    split; [lra|]. split; [lra|].
    rewrite (updateWith_gate tick16 (rampWithPrevious (Vec3 241 (-208) 0))
               (playerOn (bodyMoving (Vec3 236 (-208) 0) (Vec3 (-5) 0 0)))
               (bodyMoving (Vec3 236 (-208) 0) (Vec3 (-5) 0 0))
               (Vec3 241 (-208) 0) eq_refl eq_refl eq_refl eq_refl).
    cbn [translation bodyMoving].
    assert (Hf : forwardAt (rampWithPrevious (Vec3 241 (-208) 0))
                   (Vec3 241 (-208) 0) (Vec3 236 (-208) 0) = false).
    { apply not_true_is_false. intros H. apply crossedForward_iff in H.
      rewrite !new_signedDistance in H. cbn [_x] in H. lra. }
    assert (Hb : backwardAt (rampWithPrevious (Vec3 241 (-208) 0))
                   (Vec3 241 (-208) 0) (Vec3 236 (-208) 0) = true).
    { apply crossedBackward_iff.
      rewrite !new_signedDistance. cbn [_x]. lra. }
    destruct (Hin (Vec3 241 (-208) 0) 0 Hz0) as [_ Hi].
    rewrite Hf, Hb, Hi. cbn [andb]. eexists _, _. reflexivity.
Qed.

(** C2 (amended).  Gate crossing.  On a tick with a previous position
    recorded and ramp mode not active, a crossing is detected exactly when
    the previous signed horizontal distance is negative and the current one
    non-negative (forward), or the previous one is positive and the current
    one non-positive (backward) - a previous distance of exactly zero is
    never a crossing - AND the height is within the gate's height
    half-extent AND the lateral displacement along the in-plane
    perpendicular is within the width half-extent.  A forward crossing arms
    the solver, once per traversal; a backward crossing never arms it; a
    crossing out of bounds yields no event; the previous position is
    refreshed on every such tick.  While the solver is active nothing is
    detected and the previous position is left alone. *)
Theorem C2_gate_crossing :
  forall (env : Env) (r : RampL) (p : Player) (b : RigidBody) (prev : Vector3),
    p.(vars).(body) = Some b ->
    r.(computedGateMesh) = true ->
    r.(playerPreviousPos) = Some prev ->
    let pos := b.(translation) in
    let d := RampL.signedDistanceTo r pos in
    let dPrev := RampL.signedDistanceTo r prev in
    let forward := inGate r pos && forwardAt r prev pos in
    let backward := inGate r pos && backwardAt r prev pos in
    (* the signed horizontal distance and the three tests *)
    d = (pos.(_x) - r.(gateCenter).(_x)) * r.(gateNormal).(_x)
        + (pos.(_z) - r.(gateCenter).(_z)) * r.(gateNormal).(_z)
    /\ (forwardAt r prev pos = true <-> dPrev < 0 /\ 0 <= d)
    /\ (backwardAt r prev pos = true <-> 0 < dPrev /\ d <= 0)
    /\ (inGate r pos = true
        <-> (r.(gateCenter).(_y) - r.(gateHeight) / 2 <= pos.(_y)
             <= r.(gateCenter).(_y) + r.(gateHeight) / 2)
            /\ Rabs (dot (Vec3 (pos.(_x) - r.(gateCenter).(_x)) 0
                               (pos.(_z) - r.(gateCenter).(_z)))
                         (Vec3 (- r.(gateNormal).(_z)) 0 r.(gateNormal).(_x)))
               <= r.(gateWidth) / 2)
    (* one tick *)
    /\ (exists (r1 : RampL) (p1 : Player) (t : Trace),
          RampL.updateWith env (r, p) = Some (tt, (r1, p1), t)
          /\ if r.(playerRampMode)
             then (* detection suspended, memory untouched *)
                  filter isGateCrossed t = []
                  /\ filter isEnteredRampMode t = []
                  /\ r1.(playerPreviousPos) = Some prev
             else filter isGateCrossed t
                  = (if forward then [GateCrossed Forward]
                     else if backward then [GateCrossed Backward] else [])
                  /\ filter isEnteredRampMode t
                     = (if forward then [EnteredRampMode] else [])
                  /\ r1.(playerRampMode) = forward
                  /\ r1.(playerPreviousPos) = Some pos)
    (* one traversal: from behind the gate, through it within bounds, on in
       front of it *)
    /\ (forall (before : list RigidBody) (bc : RigidBody) (after : list RigidBody),
          r.(playerRampMode) = false ->
          dPrev < 0 ->
          Forall (fun b0 => RampL.signedDistanceTo r b0.(translation) < 0) before ->
          0 <= RampL.signedDistanceTo r bc.(translation) ->
          inGate r bc.(translation) = true ->
          Forall (fun b0 => 0 < RampL.signedDistanceTo r b0.(translation)) after ->
          exists (s1 : RampL * Player) (t : Trace),
            rampRun env (before ++ bc :: after) (r, p) = Some (s1, t)
            /\ filter isGateCrossed t = [GateCrossed Forward]
            /\ filter isEnteredRampMode t = [EnteredRampMode]).
Proof.
  intros env r p b prev Hb Hg Hp pos d dPrev forward backward.
  split.
  { unfold d, RampL.signedDistanceTo, dot. cbn [_x _y _z]. fold pos. ring. }
  split; [apply crossedForward_iff|].
  split; [apply crossedBackward_iff|].
  split; [apply inGate_iff|].
  split.
  - destruct (playerRampMode r) eqn:Hm.
    + destruct (ramp_tick env r p b Hb Hm) as (r1 & p1 & t & Hu & H1 & H2 & H3 & _).
      exists r1, p1, t. split; [exact Hu|]. rewrite H3. auto.
    + destruct (gate_tick env r p b prev Hb Hm Hg Hp)
        as (r1 & p1 & t & Hu & H1 & H2 & H3 & H4 & _).
      exists r1, p1, t. split; [exact Hu|]. auto.
  - intros before bc after Hm Hd Hbefore Hbc Hin Hafter.
    now apply (rampRun_traversal env r p prev before bc after).
Qed.

Lemma C2_witness :
  exists (r1 : RampL) (p1 : Player) (t : Trace),
    RampL.updateWith tick16
      (rampWithPrevious (Vec3 231 (-208) 0),
       playerOn (bodyMoving (Vec3 241 (-208) 0) (Vec3 5 0 0)))
    = Some (tt, (r1, p1), t)
    /\ filter isGateCrossed t = [GateCrossed Forward]
    /\ filter isEnteredRampMode t = [EnteredRampMode]
    /\ r1.(playerRampMode) = true.
Proof.
  destruct (C2_gate_crossing tick16 (rampWithPrevious (Vec3 231 (-208) 0))
              (playerOn (bodyMoving (Vec3 241 (-208) 0) (Vec3 5 0 0)))
              (bodyMoving (Vec3 241 (-208) 0) (Vec3 5 0 0))
              (Vec3 231 (-208) 0) eq_refl eq_refl eq_refl)
    as (_ & Hf & _ & Hi & (r1 & p1 & t & Hu & Ht) & _).
  cbn [playerRampMode rampWithPrevious set_playerPreviousPos RampL.new
       translation bodyMoving] in Ht, Hf, Hi.
  assert (Hfw : forwardAt (rampWithPrevious (Vec3 231 (-208) 0))
                  (Vec3 231 (-208) 0) (Vec3 241 (-208) 0) = true).
  { apply Hf. rewrite !new_signedDistance. cbn [_x]. lra. }
  assert (Hin : inGate (rampWithPrevious (Vec3 231 (-208) 0)) (Vec3 241 (-208) 0) = true).
  { apply new_inGate. cbn [_y _z]. rewrite Rabs_R0. lra. }
  change (mkRampL (Vec3 236 (-208) 0) 40 30
            (RampL.computeGateNormal (PI / 4) (PI / 2) 0) true
            (Some (Vec3 231 (-208) 0)) None 30 1.3 9.81 4 1 false false
            (mkRampState 0 0 0 0) (Vec3 229.4 (-214.65) 0))
    with (rampWithPrevious (Vec3 231 (-208) 0)) in Ht.
  rewrite Hfw, Hin in Ht. cbn [andb] in Ht.
  destruct Ht as (A & B & C & _).
  exists r1, p1, t. repeat split; assumption.
Defined.

(* ---------------------------------------------------------------------- *)
(** ** The tick of the world: mode handler, then ramp solver (World.update) *)
(* ---------------------------------------------------------------------- *)

Lemma World_update_some (env : Env) (p p1 p2 : Player) (r r2 : RampL)
    (t1 t2 : Trace) :
  Player.update env p = Some (tt, p1, t1) ->
  RampL.updateWith env (r, p1) = Some (tt, (r2, p2), t2) ->
  World.update env (mkWorld (Some p) (Some r))
  = Some (tt, mkWorld (Some p2) (Some r2), t1 ++ t2).
Proof.
  intros H1 H2. unfold World.update, bind, zoom, RampL.update.
  cbn [player rampL]. rewrite H1. cbn [player rampL fst snd]. rewrite H2.
  reflexivity.
Qed.

Lemma handlerCalls_writers (m : Component) (env : Env) (p : Player) (b : RigidBody) :
  Forall (fun wc => isModeHandler (fst wc) = true) (handlerCalls m env p b).
Proof.
  assert (Hmap : forall (w : Component) (l : list BodyCall),
            isModeHandler w = true ->
            Forall (fun wc => isModeHandler (fst wc) = true) (map (pair w) l)).
  { intros w l Hw. induction l; constructor; auto. }
  destruct m; cbn [handlerCalls]; try (apply Hmap; reflexivity); try constructor.
  destruct (isFlying (vars p) && collisionMesh p).
  - apply Forall_app. split; apply Hmap; reflexivity.
  - apply Hmap; reflexivity.
Qed.

Lemma handler_events_not_by_ramp (calls : list (Component * BodyCall)) :
  Forall (fun wc => isModeHandler (fst wc) = true) calls ->
  writtenByRampL (asEvents calls) = false.
Proof.
  induction 1 as [|[w c] rest Hw _ IH]; [reflexivity|].
  unfold writtenByRampL in *. cbn [asEvents map existsb fst snd bodyWriter].
  fold (asEvents rest). rewrite IH. cbn in Hw.
  destruct (writesTransform c || writesVelocity c); [|reflexivity].
  destruct w; cbn in Hw; try discriminate; reflexivity.
Qed.

(** The trace and the body of a tick in ramp mode. *)
Lemma rampTick_writes (env : Env) (r : RampL) (b : RigidBody) :
  let out := snd (RampL.stepRampConstraint r r.(rampState) (env.(delta) / 1000)) in
  let '(r1, b1, t) := rampTick env r b in
  writtenByRampL t = true
  /\ writtenByHandler t = false
  /\ b1.(translation) = out.(newPosition)
  /\ b1.(linvel) = out.(newVelocity).
Proof.
  unfold rampTick.
  destruct (RampL.stepRampConstraint _ _ _) as [state1 result]. cbn [snd].
  destruct (exitedRamp result); cbn; auto.
Qed.

(** A tick of the world with the solver armed: the player's tick, then the
    ramp's tick on the body the player's tick left. *)
Lemma armed_tick_outcome (env : Env) (p : Player) (r : RampL) (b : RigidBody) :
  p.(vars).(body) = Some b ->
  p.(vars).(collider) = true ->
  r.(playerRampMode) = true ->
  let m := resolveMode (submerged p.(oceanMode) b) p.(vars).(isFlying)
                       (hasContact env) in
  let calls := handlerCalls m env (classified env b p) b in
  exists p1 : Player,
    Player.update env p = Some (tt, p1, Run m :: asEvents calls)
    /\ World.update env (mkWorld (Some p) (Some r))
       = let '(r2, b2, tRamp) := rampTick env r (performAll (map snd calls) b) in
         Some (tt, mkWorld (Some (withBody b2 p1)) (Some r2),
               (Run m :: asEvents calls) ++ tRamp).
Proof.
  intros Hb Hc Hm m calls.
  destruct (Player_update_outcome env p b Hb Hc) as (p1 & Hu & Hb1 & _).
  cbv zeta in Hu, Hb1. fold m in Hu, Hb1. fold calls in Hu, Hb1.
  exists p1. split; [exact Hu|].
  pose proof (updateWith_rampMode env r p1 _ Hb1 Hm) as Hr.
  destruct (rampTick env r (performAll (map snd calls) b)) as [[r2 b2] tRamp].
  apply (World_update_some env p p1 _ r r2 _ _ Hu Hr).
Qed.

(** C9 (amended).  In a tick with ramp mode active the locomotion mode
    handler of the tick still runs, first, and makes its engine calls on
    the body; the ramp constraint solver runs after it in the same tick and
    writes the body's position and linear velocity, which therefore end the
    tick exactly as the solver computed them. *)
Theorem C9_handler_then_solver :
  forall (env : Env) (p : Player) (r : RampL) (b : RigidBody),
    p.(vars).(body) = Some b ->
    p.(vars).(collider) = true ->
    r.(playerRampMode) = true ->
    let m := resolveMode (submerged p.(oceanMode) b) p.(vars).(isFlying)
                         (hasContact env) in
    let out := snd (RampL.stepRampConstraint r r.(rampState) (env.(delta) / 1000)) in
    exists (p1 p2 : Player) (r2 : RampL) (b2 : RigidBody) (tPlayer tRamp : Trace),
      (* the mode handler of the tick runs first, whatever the ramp mode *)
      Player.update env p = Some (tt, p1, tPlayer)
      /\ tPlayer = Run m :: asEvents (handlerCalls m env (classified env b p) b)
      /\ writtenByRampL tPlayer = false
      (* then the solver writes the body *)
      /\ World.update env (mkWorld (Some p) (Some r))
         = Some (tt, mkWorld (Some p2) (Some r2), tPlayer ++ tRamp)
      /\ writtenByRampL tRamp = true
      /\ writtenByHandler tRamp = false
      (* so position and linear velocity end the tick as the solver set them *)
      /\ p2.(vars).(body) = Some b2
      /\ b2.(translation) = out.(newPosition)
      /\ b2.(linvel) = out.(newVelocity).
Proof.
  intros env p r b Hb Hc Hm m out.
  destruct (armed_tick_outcome env p r b Hb Hc Hm) as (p1 & Hu & Hw).
  cbv zeta in Hu, Hw. fold m in Hu, Hw.
  set (calls := handlerCalls m env (classified env b p) b) in *.
  pose proof (rampTick_writes env r (performAll (map snd calls) b)) as Hrt.
  cbv zeta in Hrt. fold out in Hrt.
  destruct (rampTick env r (performAll (map snd calls) b)) as [[r2 b2] tRamp].
  destruct Hrt as (W1 & W2 & W3 & W4).
  exists p1, (withBody b2 p1), r2, b2, (Run m :: asEvents calls), tRamp.
  split; [exact Hu|]. split; [reflexivity|].
  split.
  { unfold writtenByRampL. cbn [existsb bodyWriter].
    apply (handler_events_not_by_ramp calls). apply handlerCalls_writers. }
  split; [exact Hw|].
  repeat split; assumption.
Qed.

Lemma C9_witness :
  exists (w1 : World) (t : Trace),
    World.update tick16 rampWorld = Some (tt, w1, t)
    /\ writtenByRampL t = true.
Proof.
  destruct (C9_handler_then_solver tick16 steeringPlayer rampArmed
              (bodyMoving (Vec3 240 (-210) 0) (Vec3 10 0 0)) eq_refl eq_refl eq_refl)
    as (p1 & p2 & r2 & b2 & tP & tR & _ & _ & _ & Hw & W1 & _).
  exists (mkWorld (Some p2) (Some r2)), (tP ++ tR).
  split; [exact Hw|].
  unfold writtenByRampL in *. rewrite existsb_app, W1. apply orb_true_r.
Defined.

(** C9 (the claim as stated fails).  With the solver armed and the player
    airborne over the ramp holding W, one tick of the world contains an
    impulse applied to the body by the air controller and the position and
    velocity writes of the ramp solver. *)
Lemma C9_counterexample :
  exists (w1 : World) (t : Trace),
    World.update tick16 rampWorld = Some (tt, w1, t)
    /\ rampArmed.(playerRampMode) = true
    /\ writtenByHandler t = true
    /\ writtenByRampL t = true.
Proof.
  destruct (armed_tick_outcome tick16 steeringPlayer rampArmed
              (bodyMoving (Vec3 240 (-210) 0) (Vec3 10 0 0)) eq_refl eq_refl eq_refl)
    as (p1 & _ & Hw).
  cbv zeta in Hw.
  assert (Hsub : submerged (oceanMode steeringPlayer)
                   (bodyMoving (Vec3 240 (-210) 0) (Vec3 10 0 0)) = false).
  { unfold submerged. cbn.
    rewrite (proj2 (leb_false_iff _ _)) by lra.
    rewrite (proj2 (ltb_true_iff _ _)) by lra. reflexivity. }
  rewrite Hsub in Hw.
  cbn [resolveMode isFlying vars steeringPlayer onVars set_keys
    playerOn set_collider set_body PlayerVariables.new hasContact contactPairs tick16
    handlerCalls] in Hw.
  set (calls := map (pair ByAirMode) _) in Hw.
  pose proof (rampTick_writes tick16 rampArmed (performAll (map snd calls) 
                (bodyMoving (Vec3 240 (-210) 0) (Vec3 10 0 0)))) as Hrt.
  cbv zeta in Hrt.
  destruct (rampTick tick16 rampArmed _) as [[r2 b2] tRamp].
  destruct Hrt as (W1 & _).
  eexists _, _. split; [exact Hw|]. split; [reflexivity|].
  unfold writtenByHandler, writtenByRampL in *.
  rewrite !existsb_app, W1.
  split; [|apply orb_true_r].
  apply orb_true_iff. left.
  unfold calls, airCalls.
  cbn [keys vars classified set_oceanMode onVars set_isGrounded
    steeringPlayer set_keys key_w key_s key_a key_d app map asEvents].
  cbn [existsb bodyWriter fst snd writesTransform writesVelocity orb isModeHandler].
  reflexivity.
Qed.

(* ---------------------------------------------------------------------- *)
(** ** More about the ramp: curve, solver output, gate normal, mesh *)
(* ---------------------------------------------------------------------- *)

Lemma derivable_pt_lim_ext (f g : R -> R) (x l : R) :
  (forall t : R, f t = g t) -> derivable_pt_lim f x l -> derivable_pt_lim g x l.
Proof.
  intros E H eps He. destruct (H eps He) as [d Hd]. exists d.
  intros h Hh Hlt. rewrite <- !E. now apply Hd.
Qed.

(** X1.  [dy] is the derivative of [y]: the slope the solver integrates with
    is the slope of the height function the ramp surface is drawn from, at
    every position and for every length and shape parameter. *)
Theorem X1_dy_is_derivative_of_y :
  forall (r : RampL) (x : R), derivable_pt_lim (RampL.y r) x (RampL.dy r x).
Proof.
  intros r x.
  set (a := (r.(M) - 1) / (r.(L) * r.(L))).
  set (b := (2 - r.(M)) / r.(L)).
  apply derivable_pt_lim_ext
    with (f := ((fct_cte a * id * id * id + fct_cte b * id * id) - id)%F).
  { intros t. unfold RampL.y, plus_fct, minus_fct, mult_fct, fct_cte, id.
    fold a b. reflexivity. }
  replace (RampL.dy r x)
    with ((((0 * x + a * 1) * x + a * x * 1) * x + a * x * x * 1
           + ((0 * x + b * 1) * x + b * x * 1)) - 1).
  2:{ unfold RampL.dy. fold a b. cbv zeta. ring. }
  apply derivable_pt_lim_minus; [|apply derivable_pt_lim_id].
  apply derivable_pt_lim_plus.
  - apply (derivable_pt_lim_mult (fct_cte a * id * id)%F id).
    + apply (derivable_pt_lim_mult (fct_cte a * id)%F id).
      * apply (derivable_pt_lim_mult (fct_cte a) id).
        -- apply derivable_pt_lim_const.
        -- apply derivable_pt_lim_id.
      * apply derivable_pt_lim_id.
    + apply derivable_pt_lim_id.
  - apply (derivable_pt_lim_mult (fct_cte b * id)%F id).
    + apply (derivable_pt_lim_mult (fct_cte b) id).
      * apply derivable_pt_lim_const.
      * apply derivable_pt_lim_id.
    + apply derivable_pt_lim_id.
Qed.

(** X2.  The ends of the ramp.  The curve starts and ends at height 0; it
    is entered going down at 45 degrees (slope -1) and left with slope [M]:
    the shape parameter is the launch slope. *)
Theorem X2_ramp_ends :
  forall r : RampL,
    r.(L) <> 0 ->
    RampL.y r 0 = 0 /\ RampL.y r r.(L) = 0
    /\ RampL.dy r 0 = -1 /\ RampL.dy r r.(L) = r.(M).
Proof.
  intros r HL. unfold RampL.y, RampL.dy. cbv zeta.
  repeat split; field; assumption.
Qed.

Lemma X2_witness :
  RampL.y RampL.new 0 = 0 /\ RampL.y RampL.new 30 = 0
  /\ RampL.dy RampL.new 0 = -1 /\ RampL.dy RampL.new 30 = 1.3.
Proof.
  assert (H : RampL.new.(L) <> 0) by (simpl; lra).
  exact (X2_ramp_ends RampL.new H).
Defined.

Lemma stepRampConstraint_result (r : RampL) (s : RampState) (dt : R) :
  let s1 := fst (RampL.stepRampConstraint r s dt) in
  let res := snd (RampL.stepRampConstraint r s dt) in
  let slope := RampL.dy r s1.(rampX) in
  let denom := sqrt (1 + slope * slope) in
  res.(newPosition)
  = Vec3 (r.(rampOrigin).(_x) + s1.(rampX) + (- slope) / denom * r.(playerRadius))
         (r.(rampOrigin).(_y) + RampL.y r s1.(rampX) + 1 / denom * r.(playerRadius))
         (r.(rampOrigin).(_z) + s1.(lateralZ))
  /\ res.(newVelocity)
     = Vec3 (s1.(vS) * (1 / denom)) (s1.(vS) * (slope / denom)) s1.(vZ).
Proof.
  unfold RampL.stepRampConstraint.
  destruct (RampL.substepLoop r (dt / INR (substeps r)) (substeps r) s) as [s1 e].
  cbn. split; reflexivity.
Qed.

(** X3.  What the solver hands to the body.  After any call of
    [stepRampConstraint] the position is the point of the curve at the new
    progress, moved by exactly the player radius along the unit normal of
    the curve there, and the velocity is tangent to the curve (its y
    component is the slope times its x component, and it is perpendicular
    to the offset from the curve) with squared speed vS^2 + vZ^2. *)
Theorem X3_solver_keeps_ball_on_curve :
  forall (r : RampL) (s : RampState) (dt : R),
    let s1 := fst (RampL.stepRampConstraint r s dt) in
    let res := snd (RampL.stepRampConstraint r s dt) in
    let curvePoint :=
      Vec3 (r.(rampOrigin).(_x) + s1.(rampX))
           (r.(rampOrigin).(_y) + RampL.y r s1.(rampX))
           (r.(rampOrigin).(_z) + s1.(lateralZ)) in
    let offset := add res.(newPosition) (multiplyScalar curvePoint (-1)) in
    let normal := RampL.getNormal r s1.(rampX) in
    offset = multiplyScalar (Vec3 normal.(nx) normal.(ny) 0) r.(playerRadius)
    /\ normal.(nx) * normal.(nx) + normal.(ny) * normal.(ny) = 1
    /\ 0 < normal.(ny)
    /\ lengthSq offset = r.(playerRadius) * r.(playerRadius)
    /\ res.(newVelocity).(_y) = RampL.dy r s1.(rampX) * res.(newVelocity).(_x)
    /\ dot res.(newVelocity) offset = 0
    /\ lengthSq res.(newVelocity) = s1.(vS) * s1.(vS) + s1.(vZ) * s1.(vZ).
Proof.
  intros r s dt. cbv zeta.
  destruct (stepRampConstraint_result r s dt) as [Hp Hv]. cbv zeta in Hp, Hv.
  rewrite Hp, Hv. clear Hp Hv.
  set (s1 := fst (RampL.stepRampConstraint r s dt)).
  unfold RampL.getNormal. cbv zeta.
  destruct (tangent_normal_unit (RampL.dy r (rampX s1))) as (Ht & Hn & Hp & Hy & Hx).
  cbv zeta in Ht, Hn, Hp, Hy, Hx.
  set (slope := RampL.dy r (rampX s1)) in *.
  set (denom := sqrt (1 + slope * slope)) in *.
  set (tx := 1 / denom) in *. set (ty := slope / denom) in *.
  set (n1 := - slope / denom) in *.
  unfold add, multiplyScalar, lengthSq, dot. cbn.
  set (R0 := playerRadius r).
  split; [f_equal; ring|].
  split; [exact Hn|].
  split; [exact Hx|].
  split.
  { replace ((_x (rampOrigin r) + rampX s1 + n1 * R0
              + (_x (rampOrigin r) + rampX s1) * -1)) with (n1 * R0) by ring.
    replace ((_y (rampOrigin r) + RampL.y r (rampX s1) + tx * R0
              + (_y (rampOrigin r) + RampL.y r (rampX s1)) * -1)) with (tx * R0) by ring.
    replace ((_z (rampOrigin r) + lateralZ s1
              + (_z (rampOrigin r) + lateralZ s1) * -1)) with 0 by ring.
    replace (n1 * R0 * (n1 * R0) + tx * R0 * (tx * R0) + 0 * 0)
      with (R0 * R0 * (n1 * n1 + tx * tx)) by ring.
    rewrite Hn. ring. }
  split; [rewrite Hy; ring|].
  split.
  { replace (vS s1 * tx * (_x (rampOrigin r) + rampX s1 + n1 * R0
                            + (_x (rampOrigin r) + rampX s1) * -1)
             + vS s1 * ty * (_y (rampOrigin r) + RampL.y r (rampX s1) + tx * R0
                             + (_y (rampOrigin r) + RampL.y r (rampX s1)) * -1)
             + vZ s1 * (_z (rampOrigin r) + lateralZ s1
                        + (_z (rampOrigin r) + lateralZ s1) * -1))
      with (vS s1 * R0 * (tx * n1 + ty * tx)) by ring.
    rewrite Hp. ring. }
  replace (vS s1 * tx * (vS s1 * tx) + vS s1 * ty * (vS s1 * ty) + vZ s1 * vZ s1)
    with (vS s1 * vS s1 * (tx * tx + ty * ty) + vZ s1 * vZ s1) by ring.
  rewrite Ht. ring.
Qed.

Lemma substepLoop_lateral (r : RampL) (subDt : R) (n : nat) :
  forall s : RampState,
    let out := RampL.substepLoop r subDt n s in
    (fst out).(vZ) = s.(vZ)
    /\ (snd out = false ->
        (fst out).(lateralZ) = s.(lateralZ) + INR n * (s.(vZ) * subDt)).
Proof.
  induction n as [|n IH]; intros s; cbv zeta.
  - simpl. split; [reflexivity|]. intros _. lra.
  - cbn [RampL.substepLoop].
    assert (Hz : vZ (fst (RampL.substep r subDt s)) = vZ s
                 /\ lateralZ (fst (RampL.substep r subDt s))
                    = lateralZ s + vZ s * subDt).
    { unfold RampL.substep. cbv zeta.
      destruct (JsMath.leb _ _); cbn; auto. }
    destruct (RampL.substep r subDt s) as [s1 e] eqn:E. cbn [fst snd] in Hz.
    destruct Hz as [Hz Hl]. destruct e.
    + cbn. split; [exact Hz|discriminate].
    + specialize (IH s1). cbv zeta in IH. destruct IH as [IH1 IH2].
      split; [congruence|]. intros Hne. rewrite (IH2 Hne), Hl, Hz, S_INR. ring.
Qed.

Lemma substepLoop_range (r : RampL) (subDt : R) (n : nat) :
  0 < r.(L) ->
  forall s : RampState,
    0 <= s.(rampX) <= r.(L) ->
    let out := RampL.substepLoop r subDt n s in
    0 <= (fst out).(rampX) <= r.(L)
    /\ (snd out = true -> (fst out).(rampX) = r.(L)).
Proof.
  intros HL. induction n as [|n IH]; intros s Hs; cbv zeta.
  - simpl. split; [exact Hs|discriminate].
  - cbn [RampL.substepLoop].
    pose proof (substep_cases r subDt s HL) as Hc. cbv zeta in Hc.
    destruct Hc as (_ & _ & Hr & _).
    pose proof (substep_exit r subDt s) as He.
    destruct (RampL.substep r subDt s) as [s1 e]. cbn [fst snd] in Hr, He.
    destruct e.
    + cbn. split; [exact Hr|]. intros _. now apply He.
    + apply IH. exact Hr.
Qed.

(** X4.  One call of the solver, as a whole.  For a ramp of positive length
    and a state whose progress is on the ramp, the progress stays within
    [0, L] and is L when the exit is reported; the lateral velocity is never
    changed; and a call that does not leave the ramp moves the ball sideways
    by exactly vZ * dt, whatever the (positive) number of substeps. *)
Theorem X4_solver_call :
  forall (r : RampL) (s : RampState) (dt : R),
    0 < r.(L) ->
    0 <= s.(rampX) <= r.(L) ->
    (0 < r.(substeps))%nat ->
    let s1 := fst (RampL.stepRampConstraint r s dt) in
    let res := snd (RampL.stepRampConstraint r s dt) in
    0 <= s1.(rampX) <= r.(L)
    /\ (res.(exitedRamp) = true -> s1.(rampX) = r.(L))
    /\ s1.(vZ) = s.(vZ)
    /\ res.(newVelocity).(_z) = s.(vZ)
    /\ (res.(exitedRamp) = false -> s1.(lateralZ) = s.(lateralZ) + s.(vZ) * dt).
Proof.
  intros r s dt HL Hs HN. cbv zeta.
  destruct (stepRampConstraint_result r s dt) as [_ Hv]. cbv zeta in Hv.
  rewrite Hv. cbn [_z].
  destruct (stepRampConstraint_state r s dt) as [-> ->].
  pose proof (substepLoop_range r (dt / INR (substeps r)) (substeps r) HL s Hs) as Hr.
  pose proof (substepLoop_lateral r (dt / INR (substeps r)) (substeps r) s) as Hl.
  cbv zeta in Hr, Hl. destruct Hr as [Hr1 Hr2]. destruct Hl as [Hl1 Hl2].
  repeat split; try tauto.
  intros Hne. rewrite (Hl2 Hne).
  assert (HI : 0 < INR (substeps r)) by (apply lt_0_INR; exact HN).
  field. lra.
Qed.

Lemma X4_witness :
  let s1 := fst (RampL.stepRampConstraint RampL.new (mkRampState 10 2 0 3) 0.016) in
  0 <= s1.(rampX) <= 30 /\ s1.(vZ) = 3.
Proof.
  assert (H1 : 0 < RampL.new.(L)) by (simpl; lra).
  assert (H2 : 0 <= (mkRampState 10 2 0 3).(rampX) <= RampL.new.(L)) by (simpl; lra).
  assert (H3 : (0 < RampL.new.(substeps))%nat) by (simpl; lia).
  pose proof (X4_solver_call RampL.new (mkRampState 10 2 0 3) 0.016 H1 H2 H3) as H.
  cbv zeta in H. destruct H as (Ha & _ & Hb & _). split; [exact Ha|exact Hb].
Defined.

Lemma normalize_unit (a : Vector3) :
  length a <> 0 -> lengthSq (normalize a) = 1.
Proof.
  intros H. unfold normalize. rewrite (orElse_nonzero _ _ H).
  unfold multiplyScalar, lengthSq, dot. cbn.
  assert (Hs : length a * length a = lengthSq a).
  { unfold length. apply sqrt_sqrt. unfold lengthSq, dot. nra. }
  unfold lengthSq, dot in Hs.
  set (l := length a) in *.
  replace (_x a * (1 / l) * (_x a * (1 / l)) + _y a * (1 / l) * (_y a * (1 / l))
           + _z a * (1 / l) * (_z a * (1 / l)))
    with ((_x a * _x a + _y a * _y a + _z a * _z a) * (/ l * / l))
    by (unfold Rdiv; ring).
  rewrite <- Hs. field. exact H.
Qed.

(** X5.  The gate normal.  Whatever rotation the gate is given, the normal
    [createComputedMeshes] and [updateComputedMeshes] derive from it is a
    horizontal unit vector.  For a gate with such a normal the signed
    distance and the lateral distance the detector computes are the two
    coordinates of the player's horizontal offset from the gate centre in an
    orthonormal frame: the width test holds exactly when the squared
    horizontal offset minus the squared signed distance is at most the
    squared half width. *)
Theorem X5_gate_normal :
  forall (rotX rotY rotZ : R) (r : RampL) (pos : Vector3),
    r.(gateNormal) = RampL.computeGateNormal rotX rotY rotZ ->
    0 <= r.(gateWidth) ->
    let dx := pos.(_x) - r.(gateCenter).(_x) in
    let dz := pos.(_z) - r.(gateCenter).(_z) in
    let d := RampL.signedDistanceTo r pos in
    r.(gateNormal).(_y) = 0
    /\ lengthSq r.(gateNormal) = 1
    /\ d * d <= dx * dx + dz * dz
    /\ (RampL.withinWidth r pos = true
        <-> dx * dx + dz * dz - d * d <= (r.(gateWidth) / 2) * (r.(gateWidth) / 2)).
Proof.
  intros rotX rotY rotZ r pos Hn Hw. cbv zeta.
  assert (Hu : r.(gateNormal).(_y) = 0 /\ lengthSq r.(gateNormal) = 1).
  { rewrite Hn. unfold RampL.computeGateNormal. cbv zeta.
    set (n := applyQuaternion (Vec3 0 0 1) (setFromEulerYXZ rotX rotY rotZ)).
    destruct (JsMath.ltb 0.001 (length (Vec3 (_x n) 0 (_z n)))) eqn:E.
    - apply ltb_true_iff in E. split.
      + unfold normalize, multiplyScalar. cbn. ring.
      + apply normalize_unit. lra.
    - split; [reflexivity|]. unfold lengthSq, dot. cbn. ring. }
  destruct Hu as [Hy H1]. split; [exact Hy|]. split; [exact H1|].
  unfold RampL.signedDistanceTo, RampL.withinWidth, lengthSq, dot in *. cbn in *.
  set (dx := _x pos - _x (gateCenter r)).
  set (dz := _z pos - _z (gateCenter r)).
  set (n1 := _x (gateNormal r)) in *. set (n3 := _z (gateNormal r)) in *.
  rewrite Hy in *.
  assert (Hn1 : n1 * n1 + n3 * n3 = 1) by lra.
  assert (Hid : (dx * n1 + 0 * 0 + dz * n3) * (dx * n1 + 0 * 0 + dz * n3)
                + (dx * - n3 + 0 * 0 + dz * n1) * (dx * - n3 + 0 * 0 + dz * n1)
                = dx * dx + dz * dz).
  { replace ((dx * n1 + 0 * 0 + dz * n3) * (dx * n1 + 0 * 0 + dz * n3)
             + (dx * - n3 + 0 * 0 + dz * n1) * (dx * - n3 + 0 * 0 + dz * n1))
      with ((dx * dx + dz * dz) * (n1 * n1 + n3 * n3)) by ring.
    rewrite Hn1. ring. }
  set (d := dx * n1 + 0 * 0 + dz * n3) in *.
  set (l := dx * - n3 + 0 * 0 + dz * n1) in *.
  split; [nra|].
  rewrite leb_true_iff. unfold JsMath.abs.
  replace (dx * dx + dz * dz - d * d) with (l * l) by lra.
  set (h := gateWidth r / 2). assert (Hh : 0 <= h) by (unfold h; lra).
  split; intros H.
  - assert (H0 : 0 <= Rabs l) by apply Rabs_pos.
    replace (l * l) with (Rabs l * Rabs l).
    + nra.
    + unfold Rabs. destruct (Rcase_abs l); ring.
  - apply Rabs_le. split; nra.
Qed.

Lemma X5_witness :
  RampL.new.(gateNormal).(_y) = 0 /\ lengthSq RampL.new.(gateNormal) = 1.
Proof.
  assert (H1 : RampL.new.(gateNormal) = RampL.computeGateNormal (PI / 4) (PI / 2) 0)
    by reflexivity.
  assert (H2 : 0 <= RampL.new.(gateWidth)) by (simpl; lra).
  pose proof (X5_gate_normal (PI / 4) (PI / 2) 0 RampL.new (Vec3 0 0 0) H1 H2) as H.
  cbv zeta in H. destruct H as (Ha & Hb & _). split; [exact Ha|exact Hb].
Defined.

Lemma flat_map_block_length {A : Type} (f : nat -> list A) (m : nat) :
  (forall i : nat, List.length (f i) = m) ->
  forall l : list nat, List.length (flat_map f l) = (m * List.length l)%nat.
Proof.
  intros Hm l. induction l as [|a l IH]; cbn [flat_map List.length].
  - lia.
  - rewrite length_app, Hm, IH. lia.
Qed.

Lemma nth_flat_map_block {A : Type} (f : nat -> list A) (m : nat) (d : A) :
  (forall i : nat, List.length (f i) = m) ->
  forall (n s i k : nat),
    (i < n)%nat -> (k < m)%nat ->
    nth (m * i + k) (flat_map f (seq s n)) d = nth k (f (s + i)%nat) d.
Proof.
  intros Hm n. induction n as [|n IH]; intros s i k Hi Hk; [lia|].
  cbn [seq flat_map]. destruct i as [|i].
  - rewrite Nat.mul_0_r, Nat.add_0_l, Nat.add_0_r.
    apply app_nth1. rewrite Hm. exact Hk.
  - rewrite app_nth2 by (rewrite Hm; lia). rewrite Hm.
    replace (m * S i + k - m)%nat with (m * i + k)%nat by lia.
    rewrite IH by lia. f_equal. f_equal. lia.
Qed.

(** X6.  The computed ramp mesh.  For a positive number of segments the
    mesh has two vertices per row, segments + 1 rows and two triangles per
    segment; every triangle index refers to an existing vertex; and the
    vertices of row i are the points of the curve the solver uses, at
    x = (i / segments) L, on the two edges of the ramp: the first row
    is at the ramp origin's x, the last at L beyond it. *)
Theorem X6_ramp_mesh :
  forall (r : RampL) (W : R) (segments : nat),
    (0 < segments)%nat ->
    let g := createComputedRampMesh r W segments in
    let count := (2 * (segments + 1))%nat in
    List.length g.(vertices) = (3 * count)%nat
    /\ List.length g.(indices) = (3 * (2 * segments))%nat
    /\ Forall (fun k : nat => (k < count)%nat) g.(indices)
    /\ (forall i : nat,
           (i <= segments)%nat ->
           let x := INR i / INR segments * r.(L) in
           vertexAt g.(vertices) (2 * i)
           = Vec3 (r.(rampOrigin).(_x) + x) (r.(rampOrigin).(_y) + RampL.y r x)
                  (r.(rampOrigin).(_z) - W / 2)
           /\ vertexAt g.(vertices) (2 * i + 1)
              = Vec3 (r.(rampOrigin).(_x) + x) (r.(rampOrigin).(_y) + RampL.y r x)
                     (r.(rampOrigin).(_z) + W / 2))
    /\ (vertexAt g.(vertices) 0).(_x) = r.(rampOrigin).(_x)
    /\ (vertexAt g.(vertices) (2 * segments)).(_x) = r.(rampOrigin).(_x) + r.(L).
Proof.
  intros r W segments Hs. cbv zeta.
  unfold createComputedRampMesh. cbv zeta. cbn [vertices indices].
  assert (Hrow : forall i, List.length (rampMeshRow r (W / 2) segments i) = 6%nat)
    by reflexivity.
  assert (Hquad : forall i, List.length (rampMeshQuad i) = 6%nat) by reflexivity.
  assert (Hv : forall i : nat,
             (i <= segments)%nat ->
             let x := INR i / INR segments * r.(L) in
             vertexAt (flat_map (rampMeshRow r (W / 2) segments) (seq 0 (S segments)))
                      (2 * i)
             = Vec3 (r.(rampOrigin).(_x) + x) (r.(rampOrigin).(_y) + RampL.y r x)
                    (r.(rampOrigin).(_z) - W / 2)
             /\ vertexAt (flat_map (rampMeshRow r (W / 2) segments) (seq 0 (S segments)))
                         (2 * i + 1)
                = Vec3 (r.(rampOrigin).(_x) + x) (r.(rampOrigin).(_y) + RampL.y r x)
                       (r.(rampOrigin).(_z) + W / 2)).
  { intros i Hi. cbv zeta. unfold vertexAt.
    replace (3 * (2 * i) + 1)%nat with (6 * i + 1)%nat by lia.
    replace (3 * (2 * i) + 2)%nat with (6 * i + 2)%nat by lia.
    replace (3 * (2 * i + 1) + 1)%nat with (6 * i + 4)%nat by lia.
    replace (3 * (2 * i + 1) + 2)%nat with (6 * i + 5)%nat by lia.
    replace (3 * (2 * i + 1))%nat with (6 * i + 3)%nat by lia.
    replace (3 * (2 * i))%nat with (6 * i + 0)%nat by lia.
    rewrite !(nth_flat_map_block _ 6 0 Hrow) by lia.
    cbn [Nat.add]. split; reflexivity. }
  split; [rewrite (flat_map_block_length _ 6 Hrow), length_seq; lia|].
  split; [rewrite (flat_map_block_length _ 6 Hquad), length_seq; lia|].
  split.
  { apply Forall_forall. intros k Hk. apply in_flat_map in Hk.
    destruct Hk as (i & Hi & Hk). apply in_seq in Hi.
    unfold rampMeshQuad in Hk. cbv zeta in Hk. cbn [app In] in Hk.
    destruct Hk as [H|[H|[H|[H|[H|[H|[]]]]]]]; lia. }
  split; [exact Hv|].
  split.
  - destruct (Hv 0%nat ltac:(lia)) as [H0 _]. cbv zeta in H0.
    change (2 * 0)%nat with 0%nat in H0. rewrite H0. cbn [_x].
    change (INR 0) with 0. unfold Rdiv. ring.
  - destruct (Hv segments ltac:(lia)) as [H0 _]. cbv zeta in H0.
    rewrite H0. cbn [_x].
    assert (HI : 0 < INR segments) by (apply lt_0_INR; exact Hs).
    f_equal. field. lra.
Qed.

Lemma X6_witness :
  let g := createComputedRampMesh RampL.new 40 32 in
  List.length g.(vertices) = 198%nat
  /\ List.length g.(indices) = 192%nat
  /\ Forall (fun k : nat => (k < 66)%nat) g.(indices).
Proof.
  assert (H : (0 < 32)%nat) by lia.
  pose proof (X6_ramp_mesh RampL.new 40 32 H) as Hx. cbv zeta in Hx.
  destruct Hx as (H1 & H2 & H3 & _). repeat split; assumption.
Defined.

(* ---------------------------------------------------------------------- *)
(** ** More about the player: set-up, flight, water, controls *)
(* ---------------------------------------------------------------------- *)

Lemma activate_defined (now : R) (p : Player) :
  physicsReady p \/ physicsPending p -> FlightMode.activate now p <> None.
Proof.
  intros [(Hb & Hc & Hm)|(Hb & Hc & Hm)].
  - destruct (body (vars p)) as [b|] eqn:Eb; [|congruence].
    destruct (isFlying (vars p)) eqn:Ef.
    + rewrite (activate_exit now p b Eb Hm Ef). discriminate.
    + pose proof (activate_entry now p b Eb Hm Ef) as He. cbv zeta in He.
      rewrite He. discriminate.
  - rewrite (activate_without_mesh now p Hm). discriminate.
Qed.

(** X7.  Body, collider and collision mesh exist together.  In every state
    the player can reach (constructed with or without the engine ready, then
    any sequence of key events, ticks, submersion queries, the engine's
    'ready' event and engine steps) either all three exist or none does.
    Hence no reachable state makes the flight toggle, a key listener or a
    tick dereference a null body. *)
Theorem X7_physics_set_up_together :
  forall (p : Player) (env : Env) (now : R) (key : Key),
    Reachable p ->
    (p.(vars).(body) = None <-> p.(vars).(collider) = false)
    /\ (p.(vars).(body) = None <-> p.(collisionMesh) = false)
    /\ FlightMode.activate now p <> None
    /\ PlayerInput.keydown key now p <> None
    /\ Player.update env p <> None.
Proof.
  intros p env now key Hr.
  pose proof (reachable_physics p Hr) as Hp.
  assert (Hk : PlayerInput.keydown key now p <> None).
  { unfold PlayerInput.keydown.
    rewrite (bind_some _ _ p _ tt [] eq_refl).
    destruct key; try discriminate.
    destruct (FlightMode.activate now _) as [[[u p2] t2]|] eqn:Ea; [discriminate|].
    exfalso. revert Ea. apply activate_defined.
    destruct Hp as [(A & B & C)|(A & B & C)]; [left|right]; repeat split; assumption. }
  destruct Hp as [(Hb & Hc & Hm)|(Hb & Hc & Hm)].
  - split; [split; intros H; congruence|].
    split; [split; intros H; congruence|].
    split; [apply activate_defined; left; repeat split; assumption|].
    split; [exact Hk|].
    destruct (body (vars p)) as [b|] eqn:Eb; [|congruence].
    destruct (Player_update_outcome env p b Eb Hc) as (p2 & Hu & _).
    cbv zeta in Hu. rewrite Hu. discriminate.
  - split; [tauto|]. split; [tauto|].
    split; [apply activate_defined; right; repeat split; assumption|].
    split; [exact Hk|].
    unfold Player.update, bind, get. rewrite Hb. discriminate.
Qed.

Lemma X7_witness :
  (freshPlayer.(vars).(body) = None <-> freshPlayer.(collisionMesh) = false)
  /\ FlightMode.activate 0 freshPlayer <> None
  /\ Player.update tick16 freshPlayer <> None.
Proof.
  assert (Hr : Reachable freshPlayer).
  { apply (reach_new (Quat 0 0 0 1) false freshPlayer []). reflexivity. }
  destruct (X7_physics_set_up_together freshPlayer tick16 0 KeyW Hr)
    as (_ & H2 & H3 & _ & H5).
  repeat split; try assumption; apply H2.
Defined.

(** X8.  Toggling flight twice.  With the physics set up and the player not
    flying, two presses of the flight toggle leave the player not flying,
    with gravity scale 1, the position and linear velocity it had and zero
    pitch and roll (current and target); but it is not the identity: the
    angular velocity is lost (zeroed on entry) and the body's rotation is
    replaced by the ball mesh's. *)
Theorem X8_toggle_twice :
  forall (now1 now2 : R) (p : Player) (b : RigidBody),
    p.(vars).(body) = Some b ->
    p.(collisionMesh) = true ->
    p.(vars).(isFlying) = false ->
    exists (p2 : Player) (b2 : RigidBody),
      (FlightMode.activate now1 ;; FlightMode.activate now2) p
      = Some (tt, p2,
              [BodyWrite ByFlightMode (setGravityScale 0);
               BodyWrite ByFlightMode (setAngvel (Vec3 0 0 0))]
              ++ map (BodyWrite ByFlightMode) (flightExitCalls p))
      /\ p2.(vars).(body) = Some b2
      /\ p2.(vars).(isFlying) = false
      /\ b2.(gravityScale) = 1
      /\ b2.(translation) = b.(translation)
      /\ b2.(linvel) = b.(linvel)
      /\ b2.(angvel) = Vec3 0 0 0
      /\ b2.(rotation) = match p.(mesh) with Some q => q | None => b.(rotation) end
      /\ p2.(vars).(currentPitch) = 0 /\ p2.(vars).(targetPitch) = 0
      /\ p2.(vars).(currentRoll) = 0 /\ p2.(vars).(targetRoll) = 0
      /\ p2.(vars).(keys) = p.(vars).(keys).
Proof.
  intros now1 now2 p b Hb Hm Hf.
  pose proof (activate_entry now1 p b Hb Hm Hf) as He. cbv zeta in He.
  rewrite (bind_some _ _ _ _ _ _ He).
  match type of He with _ = Some (_, ?q, _) => set (p1 := q) in * end.
  set (b1 := perform (setAngvel (Vec3 0 0 0)) (perform (setGravityScale 0) b)).
  assert (Hb1 : p1.(vars).(body) = Some b1) by reflexivity.
  assert (Hm1 : p1.(collisionMesh) = true) by exact Hm.
  assert (Hf1 : p1.(vars).(isFlying) = true) by reflexivity.
  rewrite (activate_exit now2 p1 b1 Hb1 Hm1 Hf1).
  assert (Hcalls : flightExitCalls p1 = flightExitCalls p) by reflexivity.
  rewrite Hcalls.
  eexists. exists (performAll (flightExitCalls p) b1).
  split; [reflexivity|].
  split; [reflexivity|]. split; [reflexivity|].
  unfold flightExitCalls. destruct (mesh p) as [q|]; cbn;
    repeat split; reflexivity.
Qed.

Lemma X8_witness :
  exists (p2 : Player) (b2 : RigidBody) (t : Trace),
    (FlightMode.activate 0 ;; FlightMode.activate 1)
      (playerOn (bodyMoving (Vec3 0 1 0) (Vec3 3 4 0)))
    = Some (tt, p2, t)
    /\ p2.(vars).(body) = Some b2
    /\ p2.(vars).(isFlying) = false
    /\ b2.(gravityScale) = 1
    /\ b2.(linvel) = Vec3 3 4 0.
Proof.
  destruct (X8_toggle_twice 0 1 (playerOn (bodyMoving (Vec3 0 1 0) (Vec3 3 4 0)))
              (bodyMoving (Vec3 0 1 0) (Vec3 3 4 0)) eq_refl eq_refl eq_refl)
    as (p2 & b2 & H1 & H2 & H3 & H4 & _ & H6 & _).
  exists p2, b2. eexists. repeat split; eassumption.
Defined.

(** X9.  No control in the water.  In a tick in which the player is
    submerged, neither the keys held, nor the direction of the camera, nor
    the contacts of the ball, nor the clock have any effect: the engine
    calls of the tick and the body they leave are the same. *)
Theorem X9_no_control_in_ocean :
  forall (env env' : Env) (ks : Keys) (p : Player) (b : RigidBody),
    p.(vars).(body) = Some b ->
    p.(vars).(collider) = true ->
    submerged p.(oceanMode) b = true ->
    exists (p1 p1' : Player) (t : Trace),
      Player.update env p = Some (tt, p1, t)
      /\ Player.update env' (onVars (set_keys ks) p) = Some (tt, p1', t)
      /\ hd_error t = Some (Run ByOceanMode)
      /\ p1'.(vars).(body) = p1.(vars).(body)
      /\ p1.(vars).(isFlying) = false
      /\ p1'.(vars).(isFlying) = false.
Proof.
  intros env env' ks p b Hb Hc Hs.
  destruct (Player_update_outcome env p b Hb Hc)
    as (p1 & Hu & Hb1 & _ & _ & _ & _ & Hf1).
  destruct (Player_update_outcome env' (onVars (set_keys ks) p) b Hb Hc)
    as (p1' & Hu' & Hb1' & _ & _ & _ & _ & Hf1').
  cbv zeta in *. cbn [oceanMode onVars] in *. rewrite Hs in *.
  cbn [resolveMode] in *.
  exists p1, p1'. eexists. split; [exact Hu|].
  split; [exact Hu'|]. split; [reflexivity|].
  split; [rewrite Hb1, Hb1'; reflexivity|]. split; assumption.
Qed.

Lemma X9_witness :
  exists (p1 p1' : Player) (t : Trace),
    Player.update tick16 (playerOn (bodyAtHeight (-231))) = Some (tt, p1, t)
    /\ Player.update tick16
         (onVars (set_keys (mkKeys true false false true false))
                 (playerOn (bodyAtHeight (-231)))) = Some (tt, p1', t)
    /\ p1'.(vars).(body) = p1.(vars).(body).
Proof.
  assert (Hs : submerged (playerOn (bodyAtHeight (-231))).(oceanMode)
                 (bodyAtHeight (-231)) = true).
  { unfold submerged. cbn. cmp. reflexivity. }
  destruct (X9_no_control_in_ocean tick16 tick16 (mkKeys true false false true false)
              (playerOn (bodyAtHeight (-231))) (bodyAtHeight (-231))
              eq_refl eq_refl Hs)
    as (p1 & p1' & t & H1 & H2 & _ & H4 & _).
  exists p1, p1', t. repeat split; assumption.
Defined.

Lemma atan2_nonneg_x_bounds (y x : R) :
  0 <= x -> - (PI / 2) <= JsMath.atan2 y x <= PI / 2.
Proof.
  intros Hx. pose proof PI_RGT_0 as Hpi. unfold JsMath.atan2.
  destruct (Rlt_dec 0 x).
  - pose proof (atan_bound (y / x)). lra.
  - destruct (Rlt_dec x 0); [lra|].
    destruct (Rlt_dec 0 y); [lra|]. destruct (Rlt_dec y 0); lra.
Qed.

(** X10.  The pitch at flight entry.  Entering flight sets the current and
    the target pitch to the flight-path angle of the velocity, which lies
    between -PI/2 and PI/2: its tangent is the vertical speed over the
    horizontal speed when the ball moves horizontally, it is 0 for a ball
    with no vertical speed and PI/2 for a ball rising straight up.  It is
    not clamped to [maxPitch]: for the constructor's limit of PI/4 a ball
    rising straight up enters flight with its pitch target beyond the
    limit. *)
Theorem X10_entry_pitch :
  forall (now : R) (p : Player) (b : RigidBody),
    p.(vars).(body) = Some b ->
    p.(collisionMesh) = true ->
    p.(vars).(isFlying) = false ->
    let vel := b.(linvel) in
    let horizontalSpeed := sqrt (vel.(_x) * vel.(_x) + vel.(_z) * vel.(_z)) in
    exists (p1 : Player) (t : Trace),
      FlightMode.activate now p = Some (tt, p1, t)
      /\ p1.(vars).(currentPitch) = p1.(vars).(targetPitch)
      /\ - (PI / 2) <= p1.(vars).(targetPitch) <= PI / 2
      /\ (0 < horizontalSpeed ->
          p1.(vars).(targetPitch) = atan (vel.(_y) / horizontalSpeed))
      /\ (vel.(_y) = 0 -> p1.(vars).(targetPitch) = 0)
      /\ (horizontalSpeed = 0 -> 0 < vel.(_y) ->
          p1.(vars).(targetPitch) = PI / 2
          /\ PlayerVariables.new.(maxPitch) < p1.(vars).(targetPitch))
      /\ p1.(vars).(maxPitch) = p.(vars).(maxPitch).
Proof.
  intros now p b Hb Hm Hf. cbv zeta.
  pose proof (activate_entry now p b Hb Hm Hf) as He. cbv zeta in He.
  rewrite He. eexists. eexists. split; [reflexivity|].
  cbn [vars onVars currentPitch targetPitch maxPitch set_flightTransitionStartTime
       set_currentYaw set_currentRoll set_targetRoll set_currentPitch
       set_targetPitch set_velocityInitial set_hasLoggedVelocity set_isFlying
       withBody set_body].
  set (hs := sqrt (_x (linvel b) * _x (linvel b) + _z (linvel b) * _z (linvel b))).
  assert (Hhs : 0 <= hs) by apply sqrt_pos.
  split; [reflexivity|]. split; [apply atan2_nonneg_x_bounds; exact Hhs|].
  pose proof PI_RGT_0 as Hpi.
  split.
  { intros Hpos. unfold JsMath.atan2. destruct (Rlt_dec 0 hs); [reflexivity|lra]. }
  split.
  { intros Hy. rewrite Hy. unfold JsMath.atan2.
    destruct (Rlt_dec 0 hs).
    - unfold Rdiv. rewrite Rmult_0_l. apply atan_0.
    - destruct (Rlt_dec hs 0); [lra|].
      destruct (Rlt_dec 0 0); [lra|]. destruct (Rlt_dec 0 0); [lra|reflexivity]. }
  split; [|reflexivity].
  intros H0 Hy. rewrite H0. unfold JsMath.atan2.
  destruct (Rlt_dec 0 0); [lra|].
  destruct (Rlt_dec 0 (_y (linvel b))); [|lra].
  split; [reflexivity|]. cbn. lra.
Qed.

Lemma X10_witness :
  exists (p1 : Player) (t : Trace),
    FlightMode.activate 0 (playerOn (bodyMoving (Vec3 0 1 0) (Vec3 0 5 0)))
    = Some (tt, p1, t)
    /\ p1.(vars).(targetPitch) = PI / 2.
Proof.
  destruct (X10_entry_pitch 0 (playerOn (bodyMoving (Vec3 0 1 0) (Vec3 0 5 0)))
              (bodyMoving (Vec3 0 1 0) (Vec3 0 5 0)) eq_refl eq_refl eq_refl)
    as (p1 & t & H1 & _ & _ & _ & _ & H6 & _).
  exists p1, t. split; [exact H1|]. apply H6.
  - cbn. replace (0 * 0 + 0 * 0) with 0 by ring. apply sqrt_0.
  - cbn. lra.
Defined.

Lemma updateControls_angles (p : Player) (b : RigidBody) :
  p.(vars).(body) = Some b ->
  p.(vars).(isFlying) = true ->
  let v := p.(vars) in
  let ks := v.(keys) in
  exists p1 : Player,
    FlightMode.updateControls p
    = Some (tt, p1, [BodyWrite ByFlightMode (setAngvel (Vec3 0 0 0))])
    /\ p1.(vars).(targetPitch)
       = (if ks.(key_w) then Rmax (v.(targetPitch) - v.(pitchSpeed)) (- v.(maxPitch))
          else if ks.(key_s) then Rmin (v.(targetPitch) + v.(pitchSpeed)) v.(maxPitch)
          else v.(targetPitch))
    /\ p1.(vars).(targetRoll)
       = (if ks.(key_a) then Rmax (v.(targetRoll) - v.(rollSpeed)) (- v.(maxRoll))
          else if ks.(key_d) then Rmin (v.(targetRoll) + v.(rollSpeed)) v.(maxRoll)
          else v.(targetRoll))
    /\ p1.(vars).(currentPitch)
       = v.(currentPitch) + (p1.(vars).(targetPitch) - v.(currentPitch)) * 0.1
    /\ p1.(vars).(currentRoll)
       = v.(currentRoll) + (p1.(vars).(targetRoll) - v.(currentRoll)) * 0.1
    /\ p1.(vars).(currentYaw)
       = - JsMath.atan2 b.(linvel).(_z) b.(linvel).(_x) + PI
    /\ p1.(vars).(maxPitch) = v.(maxPitch) /\ p1.(vars).(maxRoll) = v.(maxRoll)
    /\ p1.(vars).(pitchSpeed) = v.(pitchSpeed)
    /\ p1.(vars).(rollSpeed) = v.(rollSpeed).
Proof.
  intros Hb Hf. cbv zeta.
  unfold FlightMode.updateControls. unfold bind at 1. unfold get at 1.
  cbv beta iota. rewrite Hb, Hf. cbn [negb]. cbv zeta.
  destruct (key_w _) eqn:Hw; [|destruct (key_s _) eqn:Hs];
    (destruct (key_a _) eqn:Ha; [|destruct (key_d _) eqn:Hd]);
    destruct (mesh p) as [mq|] eqn:Hmesh;
    unfold bind, setVars, modify, get, ret, when, bodyCall; cbn;
    rewrite ?Hmesh, ?Hf, ?Hb; cbn; rewrite ?Hmesh, ?Hf, ?Hb; cbn;
    (eexists; split; [reflexivity|]; cbn; repeat split; reflexivity).
Qed.

Lemma lerp_tenth_between (lo hi c t : R) :
  lo <= c <= hi -> lo <= t <= hi -> lo <= c + (t - c) * 0.1 <= hi.
Proof. intros. lra. Qed.

(** X11.  Flight controls stay within their limits.  In a flying tick the
    pitch target moves by at most [pitchSpeed], down for W, up for S (W wins
    when both are held), and the roll target by at most [rollSpeed], left
    for A, right for D; targets and current angles that are within
    [-maxPitch, maxPitch] and [-maxRoll, maxRoll] stay there; and the current
    angles close a tenth of their distance to the new targets. *)
Theorem X11_flight_controls_bounded :
  forall (p : Player) (b : RigidBody),
    p.(vars).(body) = Some b ->
    p.(vars).(isFlying) = true ->
    let v := p.(vars) in
    0 <= v.(pitchSpeed) -> 0 <= v.(rollSpeed) ->
    - v.(maxPitch) <= v.(targetPitch) <= v.(maxPitch) ->
    - v.(maxPitch) <= v.(currentPitch) <= v.(maxPitch) ->
    - v.(maxRoll) <= v.(targetRoll) <= v.(maxRoll) ->
    - v.(maxRoll) <= v.(currentRoll) <= v.(maxRoll) ->
    exists (p1 : Player) (t : Trace),
      FlightMode.updateControls p = Some (tt, p1, t)
      /\ (let v1 := p1.(vars) in
          - v.(maxPitch) <= v1.(targetPitch) <= v.(maxPitch)
          /\ - v.(maxPitch) <= v1.(currentPitch) <= v.(maxPitch)
          /\ - v.(maxRoll) <= v1.(targetRoll) <= v.(maxRoll)
          /\ - v.(maxRoll) <= v1.(currentRoll) <= v.(maxRoll)
          /\ Rabs (v1.(targetPitch) - v.(targetPitch)) <= v.(pitchSpeed)
          /\ Rabs (v1.(targetRoll) - v.(targetRoll)) <= v.(rollSpeed)
          /\ (v.(keys).(key_w) = true -> v1.(targetPitch) <= v.(targetPitch))
          /\ (v.(keys).(key_w) = false -> v.(targetPitch) <= v1.(targetPitch))
          /\ (v.(keys).(key_a) = true -> v1.(targetRoll) <= v.(targetRoll))
          /\ (v.(keys).(key_a) = false -> v.(targetRoll) <= v1.(targetRoll))
          /\ v1.(targetPitch) - v1.(currentPitch)
             = 0.9 * (v1.(targetPitch) - v.(currentPitch))
          /\ v1.(targetRoll) - v1.(currentRoll)
             = 0.9 * (v1.(targetRoll) - v.(currentRoll))).
Proof.
  intros p b Hb Hf v Hps Hrs Htp Hcp Htr Hcr.
  destruct (updateControls_angles p b Hb Hf)
    as (p1 & Hu & Etp & Etr & Ecp & Ecr & _).
  cbv zeta in Etp, Etr, Ecp, Ecr. fold v in Etp, Etr, Ecp, Ecr.
  exists p1. eexists. split; [exact Hu|]. cbv zeta.
  set (tp1 := targetPitch (vars p1)) in *.
  set (tr1 := targetRoll (vars p1)) in *.
  assert (Bp : - maxPitch v <= tp1 <= maxPitch v
               /\ Rabs (tp1 - targetPitch v) <= pitchSpeed v
               /\ (key_w (keys v) = true -> tp1 <= targetPitch v)
               /\ (key_w (keys v) = false -> targetPitch v <= tp1)).
  { rewrite Etp. unfold Rmax, Rmin.
    destruct (key_w (keys v)); [|destruct (key_s (keys v))];
      repeat match goal with |- context [Rle_dec ?a ?b] => destruct (Rle_dec a b) end;
      (split; [lra|]); (split; [apply Rabs_le; lra|]);
      split; intros; try discriminate; lra. }
  assert (Br : - maxRoll v <= tr1 <= maxRoll v
               /\ Rabs (tr1 - targetRoll v) <= rollSpeed v
               /\ (key_a (keys v) = true -> tr1 <= targetRoll v)
               /\ (key_a (keys v) = false -> targetRoll v <= tr1)).
  { rewrite Etr. unfold Rmax, Rmin.
    destruct (key_a (keys v)); [|destruct (key_d (keys v))];
      repeat match goal with |- context [Rle_dec ?a ?b] => destruct (Rle_dec a b) end;
      (split; [lra|]); (split; [apply Rabs_le; lra|]);
      split; intros; try discriminate; lra. }
  destruct Bp as (Bp1 & Bp2 & Bp3 & Bp4). destruct Br as (Br1 & Br2 & Br3 & Br4).
  rewrite Ecp, Ecr.
  repeat split; try assumption; try lra.
Qed.

Lemma X11_witness :
  exists (p1 : Player) (t : Trace),
    FlightMode.updateControls
      (onVars (set_isFlying true)
         (onVars (set_keys (mkKeys false true false false false))
                 (playerOn (bodyMoving (Vec3 0 50 0) (Vec3 20 0 0)))))
    = Some (tt, p1, t)
    /\ 0 <= p1.(vars).(targetPitch) <= PI / 4.
Proof.
  pose proof PI_lower as HPI.
  set (p := onVars (set_isFlying true)
              (onVars (set_keys (mkKeys false true false false false))
                      (playerOn (bodyMoving (Vec3 0 50 0) (Vec3 20 0 0))))).
  assert (H1 : 0 <= p.(vars).(pitchSpeed)) by (cbn; lra).
  assert (H2 : 0 <= p.(vars).(rollSpeed)) by (cbn; lra).
  assert (H3 : - p.(vars).(maxPitch) <= p.(vars).(targetPitch) <= p.(vars).(maxPitch))
    by (cbn; lra).
  assert (H4 : - p.(vars).(maxPitch) <= p.(vars).(currentPitch) <= p.(vars).(maxPitch))
    by (cbn; lra).
  assert (H5 : - p.(vars).(maxRoll) <= p.(vars).(targetRoll) <= p.(vars).(maxRoll))
    by (cbn; lra).
  assert (H6 : - p.(vars).(maxRoll) <= p.(vars).(currentRoll) <= p.(vars).(maxRoll))
    by (cbn; lra).
  destruct (X11_flight_controls_bounded p (bodyMoving (Vec3 0 50 0) (Vec3 20 0 0))
              eq_refl eq_refl H1 H2 H3 H4 H5 H6)
    as (p1 & t & Hu & Hb1 & _ & _ & _ & _ & _ & _ & Hup & _).
  exists p1, t. split; [exact Hu|].
  cbn in Hb1, Hup. specialize (Hup eq_refl). lra.
Defined.

Lemma dot_cross_right (r a : Vector3) : dot (crossVectors r a) a = 0.
Proof. unfold dot, crossVectors. cbn. ring. Qed.

Lemma dot_multiplyScalar_l (u a : Vector3) (s : R) :
  dot (multiplyScalar u s) a = s * dot u a.
Proof. unfold dot, multiplyScalar. cbn. ring. Qed.

Lemma dot_axis_rotation (u a : Vector3) (angle : R) :
  dot (applyQuaternion u (setFromAxisAngle a angle)) a = dot u a.
Proof.
  unfold applyQuaternion, setFromAxisAngle, dot. cbn. ring.
Qed.

Lemma orElse_one_pos (l : R) : 0 <= l -> 0 < JsMath.orElse l 1.
Proof.
  intros H. unfold JsMath.orElse. destruct (Req_dec_T l 0); lra.
Qed.

Lemma length_nonneg (a : Vector3) : 0 <= length a.
Proof. unfold length. apply sqrt_pos. Qed.

(** The velocity direction of [impulse] is the velocity times a positive
    factor. *)
Lemma velDir_parallel (velocity : Vector3) (speed : R) :
  let velDir0 := Vec3 velocity.(_x) velocity.(_y) velocity.(_z) in
  let velDir := if JsMath.ltb 0.1 speed then normalize velDir0 else velDir0 in
  exists c : R, 0 < c /\ velDir = multiplyScalar velocity c.
Proof.
  cbv zeta. rewrite vec3_eta. destruct (JsMath.ltb 0.1 speed).
  - exists (1 / JsMath.orElse (length velocity) 1). split; [|reflexivity].
    apply Rdiv_lt_0_compat; [lra|]. apply orElse_one_pos, length_nonneg.
  - exists 1. split; [lra|]. destruct velocity as [x y z].
    unfold multiplyScalar. cbn. f_equal; ring.
Qed.

Lemma CD_nonneg (alpha : R) : 0 <= FlightMode.CD alpha.
Proof.
  unfold FlightMode.CD, FlightMode.CD0, FlightMode.k.
  assert (0 <= FlightMode.CL alpha * FlightMode.CL alpha) by nra. nra.
Qed.

Lemma dragMagnitude_nonneg (speed alpha : R) :
  0 <= FlightMode.dragMagnitude speed alpha.
Proof.
  unfold FlightMode.dragMagnitude, FlightMode.q, FlightMode.rho, FlightMode.S.
  pose proof (CD_nonneg alpha). assert (0 <= speed * speed) by nra. nra.
Qed.

(** X12.  The aerodynamic forces of the flight model take energy out, never
    put it in.  The impulse of a flying tick is the impulse of gravity plus
    an aerodynamic part (lift and drag); the lift is perpendicular to the
    velocity whatever the roll, the drag opposes it, so the aerodynamic part
    never has a positive component along the velocity.  A body at rest
    receives the impulse of gravity alone. *)
Theorem X12_aerodynamics_dissipative :
  forall (dt pitch roll : R) (b : RigidBody),
    0 <= dt ->
    let j := FlightMode.impulse dt pitch roll b in
    let gravityImpulse := Vec3 0 ((- b.(mass)) * 9.8 * dt) 0 in
    let aero := add j (multiplyScalar gravityImpulse (-1)) in
    dot aero b.(linvel) <= 0
    /\ (b.(linvel) = Vec3 0 0 0 -> j = gravityImpulse).
Proof.
  intros dt pitch roll b Hdt. cbv zeta. split.
  - unfold FlightMode.impulse. cbv zeta.
    set (velocity := linvel b).
    set (speed := sqrt (_x velocity * _x velocity + _y velocity * _y velocity
                        + _z velocity * _z velocity)).
    destruct (velDir_parallel velocity speed) as (c & Hc & Evd). cbv zeta in Evd.
    set (velDir := if JsMath.ltb 0.1 speed
                   then normalize (Vec3 (_x velocity) (_y velocity) (_z velocity))
                   else Vec3 (_x velocity) (_y velocity) (_z velocity)) in *.
    set (alpha := FlightMode.alphaRad pitch velocity).
    set (lift := FlightMode.liftMagnitude speed alpha).
    pose proof (dragMagnitude_nonneg speed alpha) as Hd.
    set (drag := FlightMode.dragMagnitude speed alpha) in *.
    set (right := normalize
                    (if JsMath.ltb (lengthSq (crossVectors velDir (Vec3 0 1 0))) 1e-6
                     then crossVectors velDir (Vec3 1 0 0)
                     else crossVectors velDir (Vec3 0 1 0))).
    set (liftDir0 := normalize (crossVectors right velDir)).
    assert (H0 : dot liftDir0 velDir = 0).
    { unfold liftDir0, normalize. rewrite dot_multiplyScalar_l, dot_cross_right. ring. }
    set (liftDir := if JsMath.ltb 0.001 (JsMath.abs roll)
                    then applyQuaternion liftDir0 (setFromAxisAngle velDir roll)
                    else liftDir0).
    assert (H1 : dot liftDir velDir = 0).
    { unfold liftDir. destruct (JsMath.ltb 0.001 (JsMath.abs roll)).
      - rewrite dot_axis_rotation. exact H0.
      - exact H0. }
    clearbody liftDir lift drag velDir. clear H0 liftDir0 right.
    subst velDir.
    assert (H2 : dot liftDir velocity = 0).
    { unfold dot, multiplyScalar in H1. cbn in H1. unfold dot.
      assert (c * (_x liftDir * _x velocity + _y liftDir * _y velocity
                   + _z liftDir * _z velocity) = 0) by lra.
      nra. }
    unfold dot in *. unfold add, multiplyScalar, zero. cbn.
    set (vx := _x velocity) in *. set (vy := _y velocity) in *.
    set (vz := _z velocity) in *.
    set (lx := _x liftDir) in *. set (ly := _y liftDir) in *.
    set (lz := _z liftDir) in *.
    replace ((((0 + 0 + lx * lift + vx * c * - drag) * dt + 0 * -1) * vx
              + ((0 + - mass b * 9.8 + ly * lift + vy * c * - drag) * dt
                 + - mass b * 9.8 * dt * -1) * vy
              + ((0 + 0 + lz * lift + vz * c * - drag) * dt + 0 * -1) * vz))
      with (dt * lift * (lx * vx + ly * vy + lz * vz)
            - dt * drag * c * (vx * vx + vy * vy + vz * vz)) by ring.
    rewrite H2.
    assert (0 <= vx * vx + vy * vy + vz * vz) by nra.
    assert (0 <= dt * drag) by nra.
    assert (0 <= dt * drag * c) by nra.
    nra.
  - intros Hv. unfold FlightMode.impulse. cbv zeta. rewrite Hv. cbn [_x _y _z].
    replace (0 * 0 + 0 * 0 + 0 * 0) with 0 by ring. rewrite sqrt_0.
    assert (Hl : forall a, FlightMode.liftMagnitude 0 a = 0).
    { intros a. unfold FlightMode.liftMagnitude, FlightMode.q. ring. }
    assert (Hd : forall a, FlightMode.dragMagnitude 0 a = 0).
    { intros a. unfold FlightMode.dragMagnitude, FlightMode.q. ring. }
    rewrite Hl, Hd. unfold add, multiplyScalar, zero. cbn [_x _y _z].
    f_equal; ring.
Qed.

Lemma X12_witness :
  FlightMode.impulse 0.016 0.1 0 (bodyAtHeight 50)
  = Vec3 0 ((- 1) * 9.8 * 0.016) 0.
Proof.
  assert (H : 0 <= 0.016) by lra.
  exact (proj2 (X12_aerodynamics_dissipative 0.016 0.1 0 (bodyAtHeight 50) H) eq_refl).
Defined.

(** X13.  Buoyancy.  The Submerged dynamics push the ball only straight up,
    by at most [waterBuoyancy] per tick, exactly when it is strictly below
    sea level (in the band between sea level and the exit threshold there is
    drag but no lift), and by the full [waterBuoyancy] from one unit below
    the surface on; the linear velocity is first scaled by [waterDrag]. *)
Theorem X13_buoyancy :
  forall (env : Env) (p : Player) (b : RigidBody),
    p.(vars).(body) = Some b ->
    p.(vars).(isFlying) = false ->
    0 <= p.(oceanMode).(waterBuoyancy) ->
    let o := p.(oceanMode) in
    exists (p1 : Player) (t : Trace),
      OceanMode.update env p = Some (tt, p1, t)
      /\ (forall (who : Component) (j : Vector3),
             In (BodyWrite who (applyImpulse j)) t ->
             j.(_x) = 0 /\ j.(_z) = 0 /\ 0 <= j.(_y) <= o.(waterBuoyancy))
      /\ ((exists (who : Component) (j : Vector3),
              In (BodyWrite who (applyImpulse j)) t)
          <-> b.(translation).(_y) < o.(seaLevel))
      /\ (b.(translation).(_y) <= o.(seaLevel) - 1 ->
          In (BodyWrite ByOceanMode (applyImpulse (Vec3 0 o.(waterBuoyancy) 0))) t)
      /\ hd_error t
         = Some (BodyWrite ByOceanMode
                   (setLinvel (multiplyScalar b.(linvel) o.(waterDrag)))).
Proof.
  intros env p b Hb Hf Hw o. fold o in Hw.
  rewrite (OceanMode_update_not_flying env p b Hb Hf).
  eexists. eexists. split; [reflexivity|].
  unfold oceanCalls. fold o. cbv zeta.
  set (depth := seaLevel o - _y (translation b)).
  destruct (JsMath.ltb 0 depth) eqn:E.
  - apply ltb_true_iff in E. cbn.
    assert (Hmin : 0 <= Rmin depth 1 <= 1).
    { unfold Rmin. destruct (Rle_dec depth 1); lra. }
    split.
    { intros who j [H|[H|[H|[]]]]; try discriminate.
      injection H as _ <-. cbn. unfold JsMath.min.
      repeat split; try nra. }
    split.
    { split; [intros _; unfold depth in E; lra|].
      intros _. eexists. eexists. right. left. reflexivity. }
    split; [|reflexivity].
    intros Hd. right. left.
    replace (JsMath.min depth 1) with 1; [rewrite Rmult_1_r; reflexivity|].
    unfold JsMath.min, Rmin.
    destruct (Rle_dec depth 1); [unfold depth in *; lra|reflexivity].
  - apply ltb_false_iff in E. cbn.
    split.
    { intros who j [H|[H|[]]]; discriminate. }
    split.
    { split.
      - intros (who & j & [H|[H|[]]]); discriminate.
      - unfold depth in E. lra. }
    split; [|reflexivity].
    unfold depth in E. lra.
Qed.

Lemma X13_witness :
  exists (p1 : Player) (t : Trace),
    OceanMode.update tick16 (playerOn (bodyAtHeight (-232))) = Some (tt, p1, t)
    /\ In (BodyWrite ByOceanMode (applyImpulse (Vec3 0 5 0))) t.
Proof.
  assert (H3 : 0 <= (playerOn (bodyAtHeight (-232))).(oceanMode).(waterBuoyancy))
    by (cbn; lra).
  destruct (X13_buoyancy tick16 (playerOn (bodyAtHeight (-232))) (bodyAtHeight (-232))
              eq_refl eq_refl H3) as (p1 & t & H & _ & _ & Hfull & _).
  exists p1, t. split; [exact H|]. apply Hfull. cbn. lra.
Defined.

Lemma perform_torque_pair (T : Vector3) (b : RigidBody) :
  perform (applyTorqueImpulse (Vec3 (- _x T) (- _y T) (- _z T)))
    (perform (applyTorqueImpulse T) b) = b.
Proof.
  destruct b as [tr ro lv [ax ay az] gs m i]. destruct T as [tx ty tz].
  unfold perform, add, multiplyScalar. cbn. do 2 f_equal; ring.
Qed.

Lemma perform_impulse_pair (J : Vector3) (b : RigidBody) :
  perform (applyImpulse (Vec3 (- _x J) (- _y J) (- _z J)))
    (perform (applyImpulse J) b) = b.
Proof.
  destruct b as [tr ro [vx vy vz] av gs m i]. destruct J as [jx jy jz].
  unfold perform, add, multiplyScalar. cbn. do 2 f_equal; ring.
Qed.

Lemma neg_scaled (a s : R) : - a * s = - (a * s).
Proof. ring. Qed.

(** X14.  Opposite keys cancel.  When W and S are held together, and A and D
    are held together (or neither of a pair is held), a grounded tick of the
    ground controller and an airborne tick of the air controller leave the
    body exactly as it was: opposite torque impulses, and opposite impulses,
    add up to nothing. *)
Theorem X14_opposite_keys_cancel :
  forall (env : Env) (p : Player) (b : RigidBody),
    p.(vars).(body) = Some b ->
    p.(vars).(isFlying) = false ->
    p.(vars).(keys).(key_w) = p.(vars).(keys).(key_s) ->
    p.(vars).(keys).(key_a) = p.(vars).(keys).(key_d) ->
    (p.(vars).(isGrounded) = true ->
     exists t : Trace, GroundMode.update env p = Some (tt, p, t))
    /\ (p.(vars).(isGrounded) = false ->
        exists t : Trace, AirMode.update env p = Some (tt, p, t)).
Proof.
  intros env p b Hb Hf Hws Had. split; intros Hg.
  - rewrite (GroundMode_update_grounded env p b Hb Hg Hf).
    assert (Hsame : performAll (groundCalls env p) b = b).
    { unfold groundCalls. cbv zeta. rewrite Hws, Had.
      set (T1 := normalize (crossVectors (Vec3 0 1 0) (Camera.getForwardDirection env))).
      set (T2 := normalize (crossVectors (Vec3 0 1 0) (Camera.getRightDirection env))).
      set (s := torqueStrength (vars p)).
      rewrite !neg_scaled.
      pose proof (perform_torque_pair (Vec3 (_x T1 * s) (_y T1 * s) (_z T1 * s))) as P1.
      pose proof (perform_torque_pair
                    (Vec3 (- (_x T2 * s)) (- (_y T2 * s)) (- (_z T2 * s)))) as P2.
      cbn [_x _y _z] in P1, P2. rewrite !Ropp_involutive in P2.
      unfold performAll.
      destruct (key_s (keys (vars p))), (key_d (keys (vars p)));
        cbn [app fold_left]; rewrite ?P1, ?P2; reflexivity. }
    rewrite Hsame, (withBody_same p b Hb). eexists. reflexivity.
  - rewrite (AirMode_update_airborne env p b Hb Hg Hf).
    assert (Hsame : performAll (airCalls env p) b = b).
    { unfold airCalls. cbv zeta. rewrite Hws, Had.
      set (F := normalize (Vec3 (_x (Camera.getForwardDirection env)) 0
                                (_z (Camera.getForwardDirection env)))).
      set (G := normalize (Vec3 (_x (Camera.getRightDirection env)) 0
                                (_z (Camera.getRightDirection env)))).
      set (s := airControlStrength (vars p)).
      rewrite !neg_scaled.
      pose proof (perform_impulse_pair (Vec3 (_x F * s) 0 (_z F * s))) as P1.
      pose proof (perform_impulse_pair (Vec3 (- (_x G * s)) 0 (- (_z G * s)))) as P2.
      cbn [_x _y _z] in P1, P2. rewrite !Ropp_involutive in P2.
      rewrite Ropp_0 in P1, P2.
      unfold performAll.
      destruct (key_s (keys (vars p))), (key_d (keys (vars p)));
        cbn [app fold_left]; rewrite ?P1, ?P2; reflexivity. }
    rewrite Hsame, (withBody_same p b Hb). eexists. reflexivity.
Qed.

Lemma X14_witness :
  exists t : Trace,
    AirMode.update tick16
      (onVars (set_keys (mkKeys true true false false false))
              (playerOn (bodyAtHeight 1)))
    = Some (tt, onVars (set_keys (mkKeys true true false false false))
                       (playerOn (bodyAtHeight 1)), t).
Proof.
  apply (X14_opposite_keys_cancel tick16
           (onVars (set_keys (mkKeys true true false false false))
                   (playerOn (bodyAtHeight 1)))
           (bodyAtHeight 1) eq_refl eq_refl eq_refl eq_refl).
  reflexivity.
Defined.

Lemma normalize_of_unit (a : Vector3) : lengthSq a = 1 -> normalize a = a.
Proof.
  intros H. unfold normalize, length. rewrite H, sqrt_1.
  unfold JsMath.orElse. destruct (Req_dec_T 1 0) as [E|_]; [lra|].
  destruct a as [x y z]. unfold multiplyScalar. cbn. f_equal; field.
Qed.

Lemma normalize_zero : normalize (Vec3 0 0 0) = Vec3 0 0 0.
Proof.
  unfold normalize, multiplyScalar. cbn. f_equal; ring.
Qed.

Lemma forward_right_frame (env : Env) :
  env.(worldDirection).(_x) <> 0 \/ env.(worldDirection).(_z) <> 0 ->
  let f := Camera.getForwardDirection env in
  let g := Camera.getRightDirection env in
  f.(_y) = 0 /\ lengthSq f = 1
  /\ g = Vec3 (- f.(_z)) 0 f.(_x) /\ lengthSq g = 1.
Proof.
  intros Hw. cbv zeta.
  set (w := worldDirection env) in *.
  assert (Hl : length (Vec3 (_x w) 0 (_z w)) <> 0).
  { unfold length, lengthSq, dot. cbn. intros H0.
    apply sqrt_eq_0 in H0; [|nra].
    assert (_x w * _x w = 0 /\ _z w * _z w = 0) as [H1 H2] by nra.
    destruct Hw as [Hx|Hz]; [apply Hx|apply Hz]; nra. }
  assert (Hf : lengthSq (Camera.getForwardDirection env) = 1).
  { unfold Camera.getForwardDirection. cbv zeta. fold w. now apply normalize_unit. }
  assert (Hy : _y (Camera.getForwardDirection env) = 0).
  { unfold Camera.getForwardDirection, normalize, multiplyScalar. cbn. ring. }
  split; [exact Hy|]. split; [exact Hf|].
  unfold Camera.getRightDirection.
  set (f := Camera.getForwardDirection env) in *. clearbody f.
  assert (Hc : crossVectors f (Vec3 0 1 0) = Vec3 (- _z f) 0 (_x f)).
  { destruct f as [fx fy fz]. cbn in Hy. subst fy.
    unfold crossVectors. cbn. f_equal; ring. }
  rewrite Hc.
  assert (Hu : lengthSq (Vec3 (- _z f) 0 (_x f)) = 1).
  { unfold lengthSq, dot in *. cbn. rewrite Hy in Hf. nra. }
  rewrite (normalize_of_unit _ Hu). split; [reflexivity|exact Hu].
Qed.

(** X15.  The controls follow the camera.  When the camera does not look
    straight up or down, its forward direction is a horizontal unit vector
    and its right direction is the forward direction turned a quarter turn
    about the vertical.  Airborne, W pushes the ball along forward and D
    along right, with the air control strength.  Grounded, W and D apply a
    torque impulse about a horizontal axis such that (torque x up) is the
    forward, respectively right, direction times the torque strength: the
    ball is rolled towards where the camera looks, respectively to its
    right. *)
Theorem X15_controls_follow_camera :
  forall (env : Env) (p : Player) (b : RigidBody),
    p.(vars).(body) = Some b ->
    p.(vars).(isFlying) = false ->
    env.(worldDirection).(_x) <> 0 \/ env.(worldDirection).(_z) <> 0 ->
    let f := Camera.getForwardDirection env in
    let g := Camera.getRightDirection env in
    let up := Vec3 0 1 0 in
    let pW := onVars (set_keys (mkKeys true false false false false)) p in
    let pD := onVars (set_keys (mkKeys false false false true false)) p in
    f.(_y) = 0 /\ lengthSq f = 1 /\ g.(_y) = 0 /\ lengthSq g = 1 /\ dot f g = 0
    /\ (p.(vars).(isGrounded) = false ->
        traceOf (AirMode.update env pW)
        = [BodyWrite ByAirMode
             (applyImpulse (multiplyScalar f p.(vars).(airControlStrength)))]
        /\ traceOf (AirMode.update env pD)
           = [BodyWrite ByAirMode
                (applyImpulse (multiplyScalar g p.(vars).(airControlStrength)))])
    /\ (p.(vars).(isGrounded) = true ->
        exists tW tD : Vector3,
          traceOf (GroundMode.update env pW)
          = [BodyWrite ByGroundMode (applyTorqueImpulse tW)]
          /\ traceOf (GroundMode.update env pD)
             = [BodyWrite ByGroundMode (applyTorqueImpulse tD)]
          /\ crossVectors tW up = multiplyScalar f p.(vars).(torqueStrength)
          /\ crossVectors tD up = multiplyScalar g p.(vars).(torqueStrength)).
Proof.
  intros env p b Hb Hf Hw. cbv zeta.
  destruct (forward_right_frame env Hw) as (Hy & H1 & Hg & Hg1). cbv zeta in *.
  assert (EA : forall q : Player, airCalls env q = airCalls env q) by reflexivity.
  assert (EG : forall q : Player, groundCalls env q = groundCalls env q) by reflexivity.
  unfold airCalls in EA at 2. unfold groundCalls in EG at 2. cbv zeta in EA, EG.
  set (f := Camera.getForwardDirection env) in *.
  set (g := Camera.getRightDirection env) in *. clearbody f g.
  assert (Hgy : _y g = 0) by (rewrite Hg; reflexivity).
  split; [exact Hy|]. split; [exact H1|]. split; [exact Hgy|].
  split; [exact Hg1|].
  split; [rewrite Hg; unfold dot; cbn; rewrite Hy; ring|].
  assert (Hff : normalize (Vec3 (_x f) 0 (_z f)) = f).
  { rewrite <- Hy. rewrite vec3_eta. now apply normalize_of_unit. }
  assert (Hgg : normalize (Vec3 (_x g) 0 (_z g)) = g).
  { rewrite <- Hgy. rewrite vec3_eta. now apply normalize_of_unit. }
  assert (Hcf : normalize (crossVectors (Vec3 0 1 0) f) = Vec3 (_z f) 0 (- _x f)).
  { assert (Hc : crossVectors (Vec3 0 1 0) f = Vec3 (_z f) 0 (- _x f)).
    { destruct f as [fx fy fz]. unfold crossVectors. cbn. f_equal; ring. }
    rewrite Hc. apply normalize_of_unit.
    unfold lengthSq, dot in *. cbn. rewrite Hy in H1. nra. }
  assert (Hcg : normalize (crossVectors (Vec3 0 1 0) g) = Vec3 (_z g) 0 (- _x g)).
  { assert (Hc : crossVectors (Vec3 0 1 0) g = Vec3 (_z g) 0 (- _x g)).
    { destruct g as [gx gy gz]. unfold crossVectors. cbn. f_equal; ring. }
    rewrite Hc. apply normalize_of_unit.
    unfold lengthSq, dot in *. cbn. rewrite Hgy in Hg1. nra. }
  split.
  - intros Hgr. split.
    + rewrite (AirMode_update_airborne env (onVars (set_keys (mkKeys true false false false false)) p) b Hb Hgr Hf).
      rewrite EA, Hff. cbn.
      unfold multiplyScalar. rewrite Hy. do 4 f_equal. ring.
    + rewrite (AirMode_update_airborne env (onVars (set_keys (mkKeys false false false true false)) p) b Hb Hgr Hf).
      rewrite EA, Hgg. cbn.
      unfold multiplyScalar. rewrite Hgy. do 4 f_equal. ring.
  - intros Hgr.
    exists (multiplyScalar (Vec3 (_z f) 0 (- _x f)) (torqueStrength (vars p))),
           (multiplyScalar (Vec3 (_z g) 0 (- _x g)) (torqueStrength (vars p))).
    split.
    { rewrite (GroundMode_update_grounded env (onVars (set_keys (mkKeys true false false false false)) p) b Hb Hgr Hf).
      rewrite EG, Hcf. reflexivity. }
    split.
    { rewrite (GroundMode_update_grounded env (onVars (set_keys (mkKeys false false false true false)) p) b Hb Hgr Hf).
      rewrite EG, Hcg. reflexivity. }
    unfold crossVectors, multiplyScalar. cbn.
    split; [rewrite Hy|rewrite Hgy]; f_equal; ring.
Qed.

Lemma X15_witness :
  traceOf (AirMode.update tick16
             (onVars (set_keys (mkKeys true false false false false))
                     (playerOn (bodyAtHeight 1))))
  = [BodyWrite ByAirMode
       (applyImpulse (multiplyScalar (Camera.getForwardDirection tick16) 1))].
Proof.
  assert (Hw : tick16.(worldDirection).(_x) <> 0 \/ tick16.(worldDirection).(_z) <> 0)
    by (right; cbn; lra).
  pose proof (X15_controls_follow_camera tick16 (playerOn (bodyAtHeight 1))
                (bodyAtHeight 1) eq_refl eq_refl Hw) as H.
  cbv zeta in H. destruct H as (_ & _ & _ & _ & _ & Hair & _).
  exact (proj1 (Hair eq_refl)).
Defined.

(** X16.  Looking straight down.  When the camera's direction has no
    horizontal part, the forward and right directions degenerate to the zero
    vector and the ground and air controllers, whatever keys are held, leave
    the body as it was: there is no control. *)
Theorem X16_no_control_looking_down :
  forall (env : Env) (p : Player) (b : RigidBody),
    p.(vars).(body) = Some b ->
    p.(vars).(isFlying) = false ->
    env.(worldDirection).(_x) = 0 ->
    env.(worldDirection).(_z) = 0 ->
    Camera.getForwardDirection env = Vec3 0 0 0
    /\ Camera.getRightDirection env = Vec3 0 0 0
    /\ (p.(vars).(isGrounded) = true ->
        exists t : Trace, GroundMode.update env p = Some (tt, p, t))
    /\ (p.(vars).(isGrounded) = false ->
        exists t : Trace, AirMode.update env p = Some (tt, p, t)).
Proof.
  intros env p b Hb Hf Hx Hz.
  assert (H0 : Camera.getForwardDirection env = Vec3 0 0 0).
  { unfold Camera.getForwardDirection. cbv zeta. rewrite Hx, Hz.
    apply normalize_zero. }
  assert (Hcz : forall u : Vector3, crossVectors u (Vec3 0 0 0) = Vec3 0 0 0).
  { intros u. unfold crossVectors. cbn. f_equal; ring. }
  assert (Hzc : forall u : Vector3, crossVectors (Vec3 0 0 0) u = Vec3 0 0 0).
  { intros u. unfold crossVectors. cbn. f_equal; ring. }
  assert (H1 : Camera.getRightDirection env = Vec3 0 0 0).
  { unfold Camera.getRightDirection. rewrite H0, Hzc. apply normalize_zero. }
  assert (Pt : forall b0 : RigidBody,
             perform (applyTorqueImpulse (Vec3 0 0 0)) b0 = b0).
  { intros [tr ro lv [ax ay az] gs m i]. unfold perform, add, multiplyScalar. cbn.
    do 2 f_equal; ring. }
  assert (Pi : forall b0 : RigidBody, perform (applyImpulse (Vec3 0 0 0)) b0 = b0).
  { intros [tr ro [vx vy vz] av gs m i]. unfold perform, add, multiplyScalar. cbn.
    do 2 f_equal; ring. }
  split; [exact H0|]. split; [exact H1|]. split; intros Hg.
  - rewrite (GroundMode_update_grounded env p b Hb Hg Hf).
    assert (Hsame : performAll (groundCalls env p) b = b).
    { unfold groundCalls. cbv zeta. rewrite H0, H1, Hcz, normalize_zero.
      cbn [_x _y _z]. rewrite Ropp_0, Rmult_0_l. unfold performAll.
      destruct (key_w _), (key_s _), (key_a _), (key_d _);
        cbn [app fold_left]; rewrite ?Pt; reflexivity. }
    rewrite Hsame, (withBody_same p b Hb). eexists. reflexivity.
  - rewrite (AirMode_update_airborne env p b Hb Hg Hf).
    assert (Hsame : performAll (airCalls env p) b = b).
    { unfold airCalls. cbv zeta. rewrite H0, H1. cbn [_x _y _z].
      rewrite normalize_zero. cbn [_x _y _z]. rewrite Ropp_0, Rmult_0_l.
      unfold performAll.
      destruct (key_w _), (key_s _), (key_a _), (key_d _);
        cbn [app fold_left]; rewrite ?Pi; reflexivity. }
    rewrite Hsame, (withBody_same p b Hb). eexists. reflexivity.
Qed.

Lemma X16_witness :
  Camera.getForwardDirection (mkEnv 16 0 (Vec3 0 (-1) 0) []) = Vec3 0 0 0.
Proof.
  exact (proj1 (X16_no_control_looking_down (mkEnv 16 0 (Vec3 0 (-1) 0) [])
                  (playerOn (bodyAtHeight 1)) (bodyAtHeight 1)
                  eq_refl eq_refl eq_refl eq_refl)).
Defined.

Lemma submerged_idempotent (o : OceanMode) (b : RigidBody) :
  submerged (set_isActive (submerged o b) o) b = submerged o b.
Proof.
  unfold submerged. cbn.
  destruct (JsMath.leb _ _); [reflexivity|].
  destruct (JsMath.ltb _ _); reflexivity.
Qed.

(** X17.  Asking whether the player is in the ocean is harmless.  The
    query [isInOcean] updates the hysteresis flag, but asking again at the
    same position gives the same answer and changes nothing more, and a tick
    of the player run after the query (the camera asks before the world
    updates) is the tick that would have run without it: same engine calls,
    same resulting player.  Without a body the answer is false and nothing
    changes. *)
Theorem X17_isInOcean_query_harmless :
  forall (env : Env) (p : Player),
    (p.(vars).(body) = None -> OceanMode.isInOcean p = Some (false, p, []))
    /\ (forall b : RigidBody,
           p.(vars).(body) = Some b ->
           p.(vars).(collider) = true ->
           exists (answer : bool) (p1 : Player),
             OceanMode.isInOcean p = Some (answer, p1, [])
             /\ OceanMode.isInOcean p1 = Some (answer, p1, [])
             /\ p1.(vars) = p.(vars)
             /\ Player.update env p1 = Player.update env p).
Proof.
  intros env p. split.
  - intros Hb. unfold OceanMode.isInOcean, bind, get. rewrite Hb. reflexivity.
  - intros b Hb Hc.
    exists (submerged p.(oceanMode) b),
           (set_oceanMode (set_isActive (submerged p.(oceanMode) b) p.(oceanMode)) p).
    split; [apply (isInOcean_some p b Hb)|].
    set (p1 := set_oceanMode (set_isActive (submerged p.(oceanMode) b) p.(oceanMode)) p).
    assert (Hb1 : p1.(vars).(body) = Some b) by exact Hb.
    assert (Hc1 : p1.(vars).(collider) = true) by exact Hc.
    split.
    { rewrite (isInOcean_some p1 b Hb1). unfold p1 at 1 2. cbn [oceanMode set_oceanMode].
      rewrite submerged_idempotent. reflexivity. }
    split; [reflexivity|].
    pose proof (Player_update_tick env p1 b Hb1 Hc1) as H1.
    pose proof (Player_update_tick env p b Hb Hc) as H0.
    cbv zeta in H1, H0. rewrite H1, H0.
    assert (Hs : submerged (oceanMode p1) b = submerged (oceanMode p) b)
      by apply submerged_idempotent.
    assert (Hcl : classified env b p1 = classified env b p).
    { unfold classified. rewrite Hs. reflexivity. }
    rewrite Hs, Hcl. reflexivity.
Qed.

Lemma X17_witness :
  exists p1 : Player,
    OceanMode.isInOcean (playerOn (bodyAtHeight (-231))) = Some (true, p1, [])
    /\ OceanMode.isInOcean p1 = Some (true, p1, []).
Proof.
  assert (Hs : submerged (playerOn (bodyAtHeight (-231))).(oceanMode)
                 (bodyAtHeight (-231)) = true).
  { unfold submerged. cbn. cmp. reflexivity. }
  destruct (proj2 (X17_isInOcean_query_harmless tick16 (playerOn (bodyAtHeight (-231))))
              (bodyAtHeight (-231)) eq_refl eq_refl)
    as (a & p1 & H1 & H2 & _).
  assert (Ha : a = true).
  { rewrite (isInOcean_some (playerOn (bodyAtHeight (-231))) (bodyAtHeight (-231)) eq_refl) in H1.
    rewrite Hs in H1.
    injection H1 as <- _. reflexivity. }
  subst a. exists p1. split; assumption.
Defined.

(** X18.  Before the physics is ready.  While the player has no body (the
    engine is still loading), or the world has no player yet, a tick of the
    world does nothing at all: no engine call, no event, no change of the
    player or of the ramp; in particular the gate detector records no
    previous position. *)
Theorem X18_tick_without_body :
  forall (env : Env) (p : Player) (r : option RampL),
    p.(vars).(body) = None ->
    World.update env (mkWorld (Some p) r) = Some (tt, mkWorld (Some p) r, [])
    /\ World.update env (mkWorld None r) = Some (tt, mkWorld None r, []).
Proof.
  intros env p r Hb.
  assert (Hp : Player.update env p = Some (tt, p, [])).
  { unfold Player.update, bind, get. rewrite Hb. reflexivity. }
  assert (Hr : forall r0 : RampL,
             RampL.updateWith env (r0, p) = Some (tt, (r0, p), [])).
  { intros r0. unfold RampL.updateWith, bind, get. cbn [fst snd]. rewrite Hb.
    reflexivity. }
  split.
  - unfold World.update, bind, zoom. cbn [player rampL]. rewrite Hp.
    cbn [player rampL]. destruct r as [r0|]; [|reflexivity].
    unfold RampL.update. cbn [fst snd player rampL]. rewrite Hr. reflexivity.
  - unfold World.update, bind, zoom. cbn [player rampL].
    destruct r as [r0|]; reflexivity.
Qed.

Lemma X18_witness :
  World.update tick16 (mkWorld (Some freshPlayer) (Some RampL.new))
  = Some (tt, mkWorld (Some freshPlayer) (Some RampL.new), []).
Proof.
  exact (proj1 (X18_tick_without_body tick16 freshPlayer (Some RampL.new) eq_refl)).
Defined.

(* ---------------------------------------------------------------------- *)
(** ** The follow camera *)
(* ---------------------------------------------------------------------- *)

Ltac camproj :=
  cbn [camVars instance freeRoamControls controls
       position fov orientation set_position set_fov set_orientation
       currentFov fovLerpSpeed minFov maxFov maxSpeedForFov flightFov oceanFov
       currentPosition currentAngle targetAngle rotationLerpSpeed
       positionLerpSpeed offsetDistance offsetHeight
       currentRampHeight currentRampDistance rampHeightStart rampHeightEnd
       rampHeightAnimDuration rampHeightAnimStartTime rampCameraDistance
       flightCameraDistance flightCameraHeight flightLerpSpeed
       oceanCameraDistance oceanCameraHeight oceanLerpSpeed
       mode isFreeRoam savedMode savedPosition devMode rampThresholdX
       set_currentFov set_currentPosition set_currentAngle set_targetAngle
       set_currentRampHeight set_currentRampDistance set_rampCameraDistance
       set_rampHeightAnimStartTime set_mode set_isFreeRoam set_savedMode
       set_savedPosition set_savedLookAt onCamVars onInstance
       set_freeRoamControls set_controls fst snd].

Lemma two_PI_pos : 0 < PI * 2.
Proof. pose proof PI_RGT_0. lra. Qed.

Lemma wrapDown_spec (n : nat) :
  forall a : R,
    a <= PI + PI * 2 * INR n ->
    let r := DefaultCameraMode.wrapDown n a in
    r <= PI /\ (a <= PI -> r = a) /\ (PI < a -> - PI < r)
    /\ exists k : nat, r = a - PI * 2 * INR k.
Proof.
  pose proof two_PI_pos as H2.
  induction n as [|n IH]; intros a Ha; cbv zeta.
  - cbn [DefaultCameraMode.wrapDown]. change (INR 0) with 0 in *.
    split; [lra|]. split; [reflexivity|]. split; [lra|].
    exists 0%nat. change (INR 0) with 0. ring.
  - cbn [DefaultCameraMode.wrapDown]. rewrite S_INR in Ha.
    destruct (JsMath.ltb PI a) eqn:E.
    + apply ltb_true_iff in E.
      destruct (IH (a - PI * 2)) as (I1 & I2 & I3 & k & I4); [lra|].
      split; [exact I1|]. split; [lra|]. split.
      * intros _. destruct (Rle_or_lt (a - PI * 2) PI) as [Hle|Hlt].
        -- rewrite (I2 Hle). lra.
        -- apply (I3 Hlt).
      * exists (Datatypes.S k). rewrite I4, S_INR. ring.
    + apply ltb_false_iff in E.
      split; [exact E|]. split; [reflexivity|]. split; [lra|].
      exists 0%nat. change (INR 0) with 0. ring.
Qed.

Lemma wrapUp_spec (n : nat) :
  forall a : R,
    - PI - PI * 2 * INR n <= a ->
    let r := DefaultCameraMode.wrapUp n a in
    - PI <= r /\ (- PI <= a -> r = a) /\ (a < - PI -> r < PI)
    /\ exists k : nat, r = a + PI * 2 * INR k.
Proof.
  pose proof two_PI_pos as H2.
  induction n as [|n IH]; intros a Ha; cbv zeta.
  - cbn [DefaultCameraMode.wrapUp]. change (INR 0) with 0 in *.
    split; [lra|]. split; [reflexivity|]. split; [lra|].
    exists 0%nat. change (INR 0) with 0. ring.
  - cbn [DefaultCameraMode.wrapUp]. rewrite S_INR in Ha.
    destruct (JsMath.ltb a (- PI)) eqn:E.
    + apply ltb_true_iff in E.
      destruct (IH (a + PI * 2)) as (I1 & I2 & I3 & k & I4); [lra|].
      split; [exact I1|]. split; [lra|]. split.
      * intros _. destruct (Rle_or_lt (- PI) (a + PI * 2)) as [Hle|Hlt].
        -- rewrite (I2 Hle). lra.
        -- apply (I3 Hlt).
      * exists (Datatypes.S k). rewrite I4, S_INR. ring.
    + apply ltb_false_iff in E.
      split; [exact E|]. split; [reflexivity|]. split; [lra|].
      exists 0%nat. change (INR 0) with 0. ring.
Qed.

Lemma wrapDown_more (n : nat) :
  forall (m : nat) (a : R),
    a <= PI + PI * 2 * INR n -> (n <= m)%nat ->
    DefaultCameraMode.wrapDown m a = DefaultCameraMode.wrapDown n a.
Proof.
  pose proof two_PI_pos as H2.
  induction n as [|n IH]; intros m a Ha Hm.
  - change (INR 0) with 0 in Ha. cbn [DefaultCameraMode.wrapDown].
    destruct m as [|m]; [reflexivity|]. cbn [DefaultCameraMode.wrapDown].
    rewrite (proj2 (ltb_false_iff PI a)) by lra. reflexivity.
  - destruct m as [|m]; [lia|]. cbn [DefaultCameraMode.wrapDown].
    rewrite S_INR in Ha.
    destruct (JsMath.ltb PI a); [|reflexivity].
    apply IH; [lra|lia].
Qed.

Lemma wrapUp_more (n : nat) :
  forall (m : nat) (a : R),
    - PI - PI * 2 * INR n <= a -> (n <= m)%nat ->
    DefaultCameraMode.wrapUp m a = DefaultCameraMode.wrapUp n a.
Proof.
  pose proof two_PI_pos as H2.
  induction n as [|n IH]; intros m a Ha Hm.
  - change (INR 0) with 0 in Ha. cbn [DefaultCameraMode.wrapUp].
    destruct m as [|m]; [reflexivity|]. cbn [DefaultCameraMode.wrapUp].
    rewrite (proj2 (ltb_false_iff a (- PI))) by lra. reflexivity.
  - destruct m as [|m]; [lia|]. cbn [DefaultCameraMode.wrapUp].
    rewrite S_INR in Ha.
    destruct (JsMath.ltb a (- PI)); [|reflexivity].
    apply IH; [lra|lia].
Qed.

Lemma enoughRounds_enough (a : R) :
  Rabs a <= PI * 2 * INR (DefaultCameraMode.enoughRounds a).
Proof.
  pose proof two_PI_pos as H2.
  unfold DefaultCameraMode.enoughRounds.
  set (x := Rabs a / (PI * 2)).
  assert (Hx : 0 <= x).
  { unfold x. apply Rmult_le_pos; [apply Rabs_pos|].
    apply Rlt_le, Rinv_0_lt_compat, H2. }
  destruct (archimed x) as [Hup _].
  assert (Hz : (0 <= up x)%Z).
  { apply le_IZR. lra. }
  rewrite INR_IZR_INZ, Znat.Z2Nat.id by exact Hz.
  assert (Rabs a = x * (PI * 2)) by (unfold x; field; lra).
  nra.
Qed.

(** X19.  The camera turns the short way round.  The two loops that
    normalize the angle between the camera and the direction behind the
    ball stop (running them for more rounds changes nothing) and leave a
    value in [-PI, PI] that differs from the raw difference by a whole
    number of turns; a difference already in that range is kept.  So in one
    update of the default camera the camera angle moves by at most
    PI times the rotation lerp speed. *)
Theorem X19_camera_angle_wraps :
  forall (a : R) (t : Target) (b : RigidBody) (c : Camera),
    t.(followed).(vars).(body) = Some b ->
    0 <= c.(camVars).(rotationLerpSpeed) ->
    let r := DefaultCameraMode.wrapAngle a in
    - PI <= r <= PI
    /\ (exists k : Z, r = a + IZR k * (PI * 2))
    /\ (- PI <= a <= PI -> r = a)
    /\ (forall n m : nat,
           (DefaultCameraMode.enoughRounds a <= n)%nat ->
           (DefaultCameraMode.enoughRounds (DefaultCameraMode.wrapDown n a) <= m)%nat ->
           DefaultCameraMode.wrapUp m (DefaultCameraMode.wrapDown n a) = r)
    /\ Rabs ((DefaultCameraMode.update (Some t) c).(camVars).(currentAngle)
             - c.(camVars).(currentAngle))
       <= PI * c.(camVars).(rotationLerpSpeed).
Proof.
  intros a t b c Hb Hs.
  pose proof two_PI_pos as H2.
  assert (Hwrap : forall x : R,
             let r := DefaultCameraMode.wrapAngle x in
             - PI <= r <= PI
             /\ (exists k : Z, r = x + IZR k * (PI * 2))
             /\ (- PI <= x <= PI -> r = x)
             /\ (forall n m : nat,
                    (DefaultCameraMode.enoughRounds x <= n)%nat ->
                    (DefaultCameraMode.enoughRounds (DefaultCameraMode.wrapDown n x) <= m)%nat ->
                    DefaultCameraMode.wrapUp m (DefaultCameraMode.wrapDown n x) = r)).
  { intros x. cbv zeta. unfold DefaultCameraMode.wrapAngle. cbv zeta.
    pose proof (enoughRounds_enough x) as E1.
    assert (Hx : x <= PI + PI * 2 * INR (DefaultCameraMode.enoughRounds x)).
    { pose proof (Rle_abs x). lra. }
    destruct (wrapDown_spec _ x Hx) as (D1 & D2 & D3 & k1 & D4). cbv zeta in *.
    set (a1 := DefaultCameraMode.wrapDown (DefaultCameraMode.enoughRounds x) x) in *.
    pose proof (enoughRounds_enough a1) as E2.
    assert (Ha1 : - PI - PI * 2 * INR (DefaultCameraMode.enoughRounds a1) <= a1).
    { pose proof (Rle_abs (- a1)). rewrite Rabs_Ropp in H. lra. }
    destruct (wrapUp_spec _ a1 Ha1) as (U1 & U2 & U3 & k2 & U4). cbv zeta in *.
    set (r := DefaultCameraMode.wrapUp (DefaultCameraMode.enoughRounds a1) a1) in *.
    split.
    { split; [exact U1|]. destruct (Rle_or_lt (- PI) a1) as [Hle|Hlt].
      - rewrite (U2 Hle). exact D1.
      - apply Rlt_le, (U3 Hlt). }
    split.
    { exists (Z.of_nat k2 - Z.of_nat k1)%Z.
      rewrite minus_IZR, <- !INR_IZR_INZ, U4, D4. ring. }
    split.
    { intros [Hlo Hhi]. rewrite U2; [apply (D2 Hhi)|]. rewrite (D2 Hhi). exact Hlo. }
    intros n m Hn Hm.
    rewrite (wrapDown_more _ n x Hx Hn) in *. fold a1 in Hm |- *.
    apply (wrapUp_more _ m a1 Ha1 Hm). }
  destruct (Hwrap a) as (W1 & W2 & W3 & W4). cbv zeta in *.
  split; [exact W1|]. split; [exact W2|]. split; [exact W3|]. split; [exact W4|].
  unfold DefaultCameraMode.update. rewrite Hb. cbv zeta.
  set (v := camVars c) in *.
  set (v1 := if JsMath.ltb 0.1 _ then _ else v).
  assert (Hv1 : currentAngle v1 = currentAngle v
                /\ rotationLerpSpeed v1 = rotationLerpSpeed v).
  { unfold v1. destruct (JsMath.ltb 0.1 _); split; reflexivity. }
  destruct Hv1 as [Hca Hrs]. cbn [camVars currentAngle set_currentFov
    set_currentPosition set_currentAngle].
  rewrite Hca, Hrs.
  destruct (Hwrap (targetAngle v1 - currentAngle v)) as (B & _). cbv zeta in B.
  set (d := DefaultCameraMode.wrapAngle (targetAngle v1 - currentAngle v)) in *.
  replace (currentAngle v + d * rotationLerpSpeed v - currentAngle v)
    with (d * rotationLerpSpeed v) by ring.
  rewrite Rabs_mult, (Rabs_pos_eq (rotationLerpSpeed v)) by exact Hs.
  apply Rmult_le_compat_r; [exact Hs|]. apply Rabs_le. lra.
Qed.

Lemma X19_witness :
  - PI <= DefaultCameraMode.wrapAngle 10 <= PI.
Proof.
  assert (Hs : 0 <= (mkCamera CameraVariables.new
                       (CameraRig.setInstance CameraVariables.new) None false)
                    .(camVars).(rotationLerpSpeed)) by (cbn; lra).
  exact (proj1 (X19_camera_angle_wraps 10
                  (mkTarget (playerOn (bodyAtHeight 1)) (Vec3 0 1 0))
                  (bodyAtHeight 1)
                  (mkCamera CameraVariables.new
                     (CameraRig.setInstance CameraVariables.new) None false)
                  eq_refl Hs)).
Defined.

Ltac camstep :=
  cbv beta iota delta [CameraRig.onCamera bind modify get when ret fst snd
                       camVars onCamVars set_mode mode isRamp andb negb app
                       followTick cameraModeUpdate].

Lemma CameraRig_update_follow (env : Env)
    (orbit : PerspectiveCamera -> PerspectiveCamera)
    (c : Camera) (t : Target) (b : RigidBody) :
  c.(camVars).(devMode) = false ->
  c.(camVars).(isFreeRoam) = false ->
  t.(followed).(vars).(body) = Some b ->
  let p := t.(followed) in
  let sub := submerged p.(oceanMode) b in
  let t1 := mkTarget (set_oceanMode (set_isActive sub p.(oceanMode)) p) t.(group) in
  let m := cameraModeFor sub p.(vars).(isFlying)
             c.(camVars).(rampThresholdX) t.(group).(_x) in
  CameraRig.update env orbit (c, Some t)
  = Some (tt, (followTick m env (Some t1) c, Some t1), []).
Proof.
  intros Hd Hf Hb. cbv zeta.
  unfold CameraRig.update. unfold bind at 1. unfold get at 1. cbv beta iota.
  cbn [fst snd]. rewrite Hd, Hf, Hb.
  unfold bind at 1. unfold CameraRig.targetIsInOcean at 1. cbn [fst snd].
  rewrite (isInOcean_some (followed t) b Hb).
  unfold cameraModeFor, followTick.
  set (sub := submerged (oceanMode (followed t)) b).
  set (t1 := mkTarget _ (group t)).
  destruct sub.
  - camstep. reflexivity.
  - destruct (isFlying (vars (followed t))).
    + camstep. reflexivity.
    + destruct (JsMath.ltb (rampThresholdX (camVars c)) (_x (group t))).
      * camstep. destruct c as [[dm md] ins frc ctl]. cbn [mode camVars isRamp].
        destruct md; reflexivity.
      * camstep. reflexivity.
Qed.

Lemma cameraModeUpdate_mode (m : CameraModeName) (env : Env) (target : option Target)
    (c : Camera) :
  (cameraModeUpdate m env target c).(camVars).(mode) = c.(camVars).(mode).
Proof.
  destruct m; unfold cameraModeUpdate.
  - unfold DefaultCameraMode.update. destruct target as [t|]; [|reflexivity].
    destruct (body (vars (followed t))) as [b|]; [|reflexivity]. cbv zeta.
    destruct (JsMath.ltb 0.1 _); reflexivity.
  - unfold RampCameraMode.update. destruct target as [t|]; [|reflexivity].
    destruct (body (vars (followed t))) as [b|]; [|reflexivity]. cbv zeta.
    destruct (JsMath.ltb 0.1 _); reflexivity.
  - unfold FlightCameraMode.update. destruct target as [t|]; [|reflexivity].
    destruct (body (vars (followed t))) as [b|]; [|reflexivity]. cbv zeta.
    destruct (JsMath.ltb 0.1 _); reflexivity.
  - unfold OceanCameraMode.update. destruct target as [t|]; reflexivity.
Qed.

Lemma followTick_mode (m : CameraModeName) (env : Env) (target : option Target)
    (c : Camera) :
  (followTick m env target c).(camVars).(mode) = m.
Proof.
  unfold followTick. cbv zeta. rewrite cameraModeUpdate_mode.
  destruct (isRamp m && negb (isRamp (mode (camVars c)))); reflexivity.
Qed.
(** X20.  The camera and the player agree on the mode.  In a frame in which
    the camera follows the player (no dev mode, no free roam) and the
    player's physics is set up, the camera's update succeeds, leaves the
    player's variables and the tick the player is about to run unchanged,
    and resolves the ocean camera exactly when that tick dispatches to the
    ocean controller and the flight camera exactly when it dispatches to the
    flight controller; otherwise (grounded or airborne) the camera is the
    ramp camera when the ball is beyond the ramp threshold and the default
    camera when it is not. *)
Theorem X20_camera_mode_matches_handler :
  forall (env env' : Env) (orbit : PerspectiveCamera -> PerspectiveCamera)
         (c : Camera) (t : Target) (b : RigidBody),
    c.(camVars).(devMode) = false ->
    c.(camVars).(isFreeRoam) = false ->
    t.(followed).(vars).(body) = Some b ->
    t.(followed).(vars).(collider) = true ->
    exists (c1 : Camera) (t1 : Target) (p2 : Player) (m : Component) (tr : Trace),
      CameraRig.update env orbit (c, Some t) = Some (tt, (c1, Some t1), [])
      /\ t1.(group) = t.(group)
      /\ t1.(followed).(vars) = t.(followed).(vars)
      /\ Player.update env' t1.(followed) = Player.update env' t.(followed)
      /\ Player.update env' t.(followed) = Some (tt, p2, Run m :: tr)
      /\ (c1.(camVars).(mode) = ModeOcean <-> m = ByOceanMode)
      /\ (c1.(camVars).(mode) = ModeFlight <-> m = ByFlightMode)
      /\ (c1.(camVars).(mode) = ModeRamp
          <-> (m = ByGroundMode \/ m = ByAirMode)
              /\ c.(camVars).(rampThresholdX) < t.(group).(_x))
      /\ (c1.(camVars).(mode) = ModeDefault
          <-> (m = ByGroundMode \/ m = ByAirMode)
              /\ t.(group).(_x) <= c.(camVars).(rampThresholdX)).
Proof.
  intros env env' orbit c t b Hd Hf Hb Hc.
  pose proof (CameraRig_update_follow env orbit c t b Hd Hf Hb) as Hu.
  cbv zeta in Hu.
  set (p := followed t) in *.
  set (sub := submerged (oceanMode p) b) in *.
  set (p1 := set_oceanMode (set_isActive sub (oceanMode p)) p) in *.
  destruct (Player_update_outcome env' p b Hb Hc) as (p2 & Hp & _).
  cbv zeta in Hp. fold sub in Hp.
  eexists. exists (mkTarget p1 (group t)), p2. eexists. eexists.
  split; [exact Hu|]. split; [reflexivity|]. split; [reflexivity|].
  split.
  { cbn [followed].
    assert (Hb1 : p1.(vars).(body) = Some b) by exact Hb.
    assert (Hc1 : p1.(vars).(collider) = true) by exact Hc.
    pose proof (Player_update_tick env' p1 b Hb1 Hc1) as H1.
    pose proof (Player_update_tick env' p b Hb Hc) as H0.
    cbv zeta in H1, H0. rewrite H1, H0.
    assert (Hs : submerged (oceanMode p1) b = submerged (oceanMode p) b)
      by apply submerged_idempotent.
    assert (Hcl : classified env' b p1 = classified env' b p).
    { unfold classified. rewrite Hs. reflexivity. }
    rewrite Hs, Hcl. reflexivity. }
  split; [exact Hp|].
  rewrite followTick_mode. unfold cameraModeFor, resolveMode.
  destruct sub.
  { intuition (discriminate || auto). }
  destruct (isFlying (vars p)).
  { intuition (discriminate || auto). }
  destruct (JsMath.ltb (rampThresholdX (camVars c)) (_x (group t))) eqn:E.
  - apply ltb_true_iff in E.
    destruct (hasContact env'); intuition (discriminate || lra || auto).
  - apply ltb_false_iff in E.
    destruct (hasContact env'); intuition (discriminate || lra || auto).
Qed.

Lemma X20_witness :
  exists (c1 : Camera) (t1 : Target) (p2 : Player) (m : Component) (tr : Trace),
    CameraRig.update tick16 (fun i => i)
      (followingCamera, Some (mkTarget (playerOn (bodyAtHeight (-231))) (Vec3 0 (-231) 0)))
    = Some (tt, (c1, Some t1), [])
    /\ Player.update tick16 (playerOn (bodyAtHeight (-231))) = Some (tt, p2, Run m :: tr)
    /\ (c1.(camVars).(mode) = ModeOcean <-> m = ByOceanMode).
Proof.
  destruct (X20_camera_mode_matches_handler tick16 tick16 (fun i => i) followingCamera
              (mkTarget (playerOn (bodyAtHeight (-231))) (Vec3 0 (-231) 0))
              (bodyAtHeight (-231)) eq_refl eq_refl eq_refl eq_refl)
    as (c1 & t1 & p2 & m & tr & H1 & _ & _ & _ & H5 & H6 & _).
  exists c1, t1, p2, m, tr. repeat split; try assumption; apply H6.
Defined.

Lemma lerp_between (cur target s : R) :
  0 <= s <= 1 ->
  Rmin cur target <= cur + (target - cur) * s <= Rmax cur target.
Proof.
  intros Hs. unfold Rmin, Rmax. destruct (Rle_dec cur target); nra.
Qed.

Lemma speedRatio_default (speed maxSpeed : R) :
  0 <= speed -> 0 < maxSpeed -> 0 <= JsMath.min (speed / maxSpeed) 1 <= 1.
Proof.
  intros H1 H2. unfold JsMath.min, Rmin.
  assert (0 <= speed / maxSpeed).
  { apply Rmult_le_pos; [exact H1|]. apply Rlt_le, Rinv_0_lt_compat, H2. }
  destruct (Rle_dec (speed / maxSpeed) 1); lra.
Qed.

Lemma speedRatio_ramp (x : R) : 0 <= JsMath.min (JsMath.max x 0) 1 <= 1.
Proof.
  unfold JsMath.min, JsMath.max, Rmin, Rmax.
  destruct (Rle_dec x 0); destruct (Rle_dec _ 1); lra.
Qed.

(** X21.  The field of view.  In each following mode one update moves the
    field of view from its current value towards the mode's target value by
    the fraction [fovLerpSpeed], never past it, and hands the result to the
    camera; the target is between [minFov] and [maxFov] for the default
    camera, between 25 and 100 for the ramp camera, [flightFov] for the
    flight camera and [oceanFov] for the ocean camera.  The camera is left
    looking at the ball. *)
Theorem X21_field_of_view :
  forall (m : CameraModeName) (env : Env) (t : Target) (b : RigidBody) (c : Camera),
    t.(followed).(vars).(body) = Some b ->
    let v := c.(camVars) in
    0 <= v.(fovLerpSpeed) <= 1 ->
    v.(minFov) <= v.(maxFov) ->
    0 < v.(maxSpeedForFov) ->
    let c' := cameraModeUpdate m env (Some t) c in
    exists targetFov : R,
      c'.(camVars).(currentFov)
      = v.(currentFov) + (targetFov - v.(currentFov)) * v.(fovLerpSpeed)
      /\ c'.(instance).(fov) = c'.(camVars).(currentFov)
      /\ Rmin v.(currentFov) targetFov <= c'.(camVars).(currentFov)
         <= Rmax v.(currentFov) targetFov
      /\ match m with
         | ModeDefault => v.(minFov) <= targetFov <= v.(maxFov)
         | ModeRamp => 25 <= targetFov <= 100
         | ModeFlight => targetFov = v.(flightFov)
         | ModeOcean => targetFov = v.(oceanFov)
         end
      /\ c'.(instance).(orientation) = LookAt t.(group).
Proof.
  intros m env t b c Hb v Hs Hmm Hms. cbv zeta.
  destruct m; unfold cameraModeUpdate.
  - unfold DefaultCameraMode.update. rewrite Hb. cbv zeta. fold v.
    set (speed := length _).
    assert (Hsp : 0 <= speed) by apply length_nonneg.
    set (v1 := if JsMath.ltb 0.1 speed then _ else v).
    assert (Hv1 : currentFov v1 = currentFov v /\ fovLerpSpeed v1 = fovLerpSpeed v
                  /\ minFov v1 = minFov v /\ maxFov v1 = maxFov v
                  /\ maxSpeedForFov v1 = maxSpeedForFov v).
    { unfold v1. destruct (JsMath.ltb 0.1 speed); repeat split; reflexivity. }
    destruct Hv1 as (E1 & E2 & E3 & E4 & E5).
    camproj. rewrite E1, E2, E3, E4, E5.
    pose proof (speedRatio_default speed (maxSpeedForFov v) Hsp Hms) as Hr.
    set (ratio := JsMath.min (speed / maxSpeedForFov v) 1) in *.
    exists (minFov v + (maxFov v - minFov v) * ratio).
    split; [reflexivity|]. split; [reflexivity|].
    split; [apply lerp_between; exact Hs|].
    split; [nra|reflexivity].
  - unfold RampCameraMode.update. rewrite Hb. cbv zeta. fold v.
    set (speed := length _).
    pose proof (speedRatio_ramp ((speed - 20) / (120 - 20))) as Hr.
    set (ratio := JsMath.min (JsMath.max ((speed - 20) / (120 - 20)) 0) 1) in *.
    exists (25 + (100 - 25) * ratio).
    destruct (JsMath.ltb 0.1 speed); camproj;
      (split; [reflexivity|]); (split; [reflexivity|]);
      (split; [apply lerp_between; exact Hs|]);
      (split; [lra|reflexivity]).
  - unfold FlightCameraMode.update. rewrite Hb. cbv zeta. fold v.
    exists (flightFov v).
    destruct (JsMath.ltb 0.1 _); camproj;
      (split; [reflexivity|]); (split; [reflexivity|]);
      (split; [apply lerp_between; exact Hs|]);
      (split; reflexivity).
  - unfold OceanCameraMode.update. cbv zeta. fold v.
    exists (oceanFov v). camproj.
    split; [reflexivity|]. split; [reflexivity|].
    split; [apply lerp_between; exact Hs|].
    split; reflexivity.
Qed.

Lemma X21_witness :
  exists targetFov : R,
    25 <= targetFov <= 40
    /\ (DefaultCameraMode.update
          (Some (mkTarget (playerOn (bodyMoving (Vec3 0 1 0) (Vec3 3 0 0))) (Vec3 0 1 0)))
          followingCamera).(camVars).(currentFov)
       = 35 + (targetFov - 35) * 0.03.
Proof.
  assert (H1 : 0 <= followingCamera.(camVars).(fovLerpSpeed) <= 1) by (cbn; lra).
  assert (H2 : followingCamera.(camVars).(minFov) <= followingCamera.(camVars).(maxFov))
    by (cbn; lra).
  assert (H3 : 0 < followingCamera.(camVars).(maxSpeedForFov)) by (cbn; lra).
  destruct (X21_field_of_view ModeDefault tick16
              (mkTarget (playerOn (bodyMoving (Vec3 0 1 0) (Vec3 3 0 0))) (Vec3 0 1 0))
              (bodyMoving (Vec3 0 1 0) (Vec3 3 0 0)) followingCamera
              eq_refl H1 H2 H3) as (targetFov & Hc & _ & _ & Ht & _).
  exists targetFov. split; [exact Ht|exact Hc].
Defined.

Lemma cube_between (s : R) : 0 <= s <= 1 -> 0 <= 1 - (1 - s) ^ 3 <= 1.
Proof.
  intros Hs. assert (H1 : 0 <= 1 - s <= 1) by lra.
  assert (H2 : 0 <= (1 - s) * (1 - s) <= 1) by nra.
  assert (H3 : 0 <= (1 - s) * ((1 - s) * (1 - s)) <= 1) by nra.
  replace ((1 - s) ^ 3) with ((1 - s) * ((1 - s) * (1 - s))) by ring. lra.
Qed.

(** X22.  The ramp camera's approach.  From the moment the ramp camera is
    entered its height eases from [rampHeightStart] to [rampHeightEnd] along
    1 - (1 - s)^3 and its distance goes linearly from 10 to 0.2, where s is
    the fraction of the animation duration elapsed since the clock reading
    of [onEnter], capped at 1: both stay between their start and end values
    and are exactly the end values once the duration has passed.  [onEnter]
    and the first [update] after it read the clock separately: that update
    gives the start values when both readings are the same millisecond, and
    otherwise the values for the time between the two readings. *)
Theorem X22_ramp_camera_animation :
  forall (env envEnter : Env) (t : Target) (b : RigidBody) (c : Camera),
    t.(followed).(vars).(body) = Some b ->
    let v := c.(camVars) in
    0 < v.(rampHeightAnimDuration) ->
    let elapsed := env.(now) - v.(rampHeightAnimStartTime) in
    0 <= elapsed ->
    envEnter.(now) <= env.(now) ->
    let s := Rmin (elapsed / v.(rampHeightAnimDuration)) 1 in
    let v' := (RampCameraMode.update env (Some t) c).(camVars) in
    let sEnter :=
      Rmin ((env.(now) - envEnter.(now)) / v.(rampHeightAnimDuration)) 1 in
    let entered :=
      (RampCameraMode.update env (Some t)
         (RampCameraMode.onEnter envEnter c)).(camVars) in
    0 <= s <= 1
    /\ v'.(currentRampHeight)
       = v.(rampHeightStart)
         + (v.(rampHeightEnd) - v.(rampHeightStart)) * (1 - (1 - s) ^ 3)
    /\ v'.(currentRampDistance) = 10 + (0.2 - 10) * s
    /\ Rmin v.(rampHeightStart) v.(rampHeightEnd) <= v'.(currentRampHeight)
       <= Rmax v.(rampHeightStart) v.(rampHeightEnd)
    /\ 0.2 <= v'.(currentRampDistance) <= 10
    /\ (v.(rampHeightAnimDuration) <= elapsed ->
        v'.(currentRampHeight) = v.(rampHeightEnd)
        /\ v'.(currentRampDistance) = 0.2)
    (* the first update after onEnter *)
    /\ (RampCameraMode.onEnter envEnter c).(camVars).(rampHeightAnimStartTime)
       = envEnter.(now)
    /\ 0 <= sEnter <= 1
    /\ entered.(currentRampHeight)
       = v.(rampHeightStart)
         + (v.(rampHeightEnd) - v.(rampHeightStart)) * (1 - (1 - sEnter) ^ 3)
    /\ entered.(currentRampDistance) = 10 + (0.2 - 10) * sEnter
    /\ (env.(now) = envEnter.(now) ->
        entered.(currentRampHeight) = v.(rampHeightStart)
        /\ entered.(currentRampDistance) = 10)
    /\ (envEnter.(now) < env.(now) -> entered.(currentRampDistance) < 10).
Proof.
  intros env envEnter t b c Hb v Hd elapsed He Hclock s v' sEnter entered.
  assert (Hfrac : forall e : R, 0 <= e ->
            0 <= Rmin (e / rampHeightAnimDuration v) 1 <= 1).
  { intros e H0. unfold Rmin.
    assert (0 <= e / rampHeightAnimDuration v).
    { apply Rmult_le_pos; [exact H0|]. apply Rlt_le, Rinv_0_lt_compat, Hd. }
    destruct (Rle_dec _ 1); lra. }
  assert (Hs : 0 <= s <= 1) by (apply Hfrac; exact He).
  assert (Hse : 0 <= sEnter <= 1) by (apply Hfrac; lra).
  assert (Hh : currentRampHeight v'
               = rampHeightStart v
                 + (rampHeightEnd v - rampHeightStart v) * (1 - (1 - s) ^ 3)
               /\ currentRampDistance v' = 10 + (0.2 - 10) * s).
  { unfold v', RampCameraMode.update. rewrite Hb. cbv zeta. fold v.
    destruct (JsMath.ltb 0.1 _); camproj; split; reflexivity. }
  destruct Hh as [Hh Hdist].
  split; [exact Hs|]. split; [exact Hh|]. split; [exact Hdist|].
  pose proof (cube_between s Hs) as Hc.
  split.
  { rewrite Hh. set (e := 1 - (1 - s) ^ 3) in *.
    unfold Rmin, Rmax. destruct (Rle_dec (rampHeightStart v) (rampHeightEnd v)); nra. }
  split; [rewrite Hdist; lra|].
  split.
  { intros Hlate.
    assert (Hs1 : s = 1).
    { unfold s, Rmin. destruct (Rle_dec _ 1) as [Hle|]; [|reflexivity].
      assert (1 <= elapsed / rampHeightAnimDuration v).
      { apply (Rmult_le_reg_r (rampHeightAnimDuration v)); [exact Hd|].
        unfold Rdiv. rewrite Rmult_assoc, Rinv_l by lra. lra. }
      lra. }
    rewrite Hh, Hdist, Hs1. split; ring. }
  split; [unfold RampCameraMode.onEnter; camproj; reflexivity|].
  split; [exact Hse|].
  assert (Hent : currentRampHeight entered
                 = rampHeightStart v
                   + (rampHeightEnd v - rampHeightStart v)
                     * (1 - (1 - sEnter) ^ 3)
                 /\ currentRampDistance entered = 10 + (0.2 - 10) * sEnter).
  { unfold entered, RampCameraMode.update. rewrite Hb. cbv zeta.
    unfold RampCameraMode.onEnter. camproj. fold v.
    destruct (JsMath.ltb 0.1 _); camproj; split; reflexivity. }
  destruct Hent as [Heh Hed].
  split; [exact Heh|]. split; [exact Hed|].
  split.
  { intros Hsame.
    assert (H0 : sEnter = 0).
    { unfold sEnter. rewrite Hsame.
      replace (now envEnter - now envEnter) with 0 by ring.
      replace (0 / rampHeightAnimDuration v) with 0 by (unfold Rdiv; ring).
      unfold Rmin. destruct (Rle_dec 0 1); lra. }
    rewrite Heh, Hed, H0. split; ring. }
  intros Hlater. rewrite Hed.
  assert (0 < sEnter).
  { unfold sEnter, Rmin.
    assert (0 < (now env - now envEnter) / rampHeightAnimDuration v).
    { apply Rdiv_lt_0_compat; lra. }
    destruct (Rle_dec _ 1); lra. }
  lra.
Qed.

Lemma X22_witness :
  ((RampCameraMode.update (mkEnv 16 4000 (Vec3 0 0 (-1)) [])
      (Some (mkTarget (playerOn (bodyAtHeight 1)) (Vec3 20 1 0)))
      followingCamera).(camVars)).(currentRampDistance) = 0.2.
Proof.
  assert (H1 : 0 < followingCamera.(camVars).(rampHeightAnimDuration))
    by (cbn; lra).
  assert (H2 : 0 <= (mkEnv 16 4000 (Vec3 0 0 (-1)) []).(now)
                    - followingCamera.(camVars).(rampHeightAnimStartTime))
    by (cbn; lra).
  assert (H3 : (mkEnv 16 3999 (Vec3 0 0 (-1)) []).(now)
               <= (mkEnv 16 4000 (Vec3 0 0 (-1)) []).(now))
    by (cbn; lra).
  pose proof (X22_ramp_camera_animation (mkEnv 16 4000 (Vec3 0 0 (-1)) [])
                (mkEnv 16 3999 (Vec3 0 0 (-1)) [])
                (mkTarget (playerOn (bodyAtHeight 1)) (Vec3 20 1 0))
                (bodyAtHeight 1) followingCamera eq_refl H1 H2 H3) as H.
  cbv zeta in H. destruct H as (_ & _ & _ & _ & _ & Hlate & _).
  apply Hlate. cbn. lra.
Defined.

(** X23.  Free roam.  The camera is constructed in free roam: it then
    follows nothing.  While free roam is on, an update of the camera leaves
    the camera variables and the target as they are (the player is not even
    asked whether it is in the ocean); only the orbit controls move the
    camera.  Pressing R twice (out of free roam and back is the same as in
    and out) returns to the mode the camera had, and makes the follow
    position the position the camera stood at when free roam was entered. *)
Theorem X23_free_roam :
  forall (env env1 env2 : Env) (orbit : PerspectiveCamera -> PerspectiveCamera)
         (c : Camera) (target : option Target),
    c.(camVars).(devMode) = false ->
    (CameraRig.new env orbit).(camVars).(isFreeRoam) = true
    /\ (CameraRig.new env orbit).(camVars).(savedPosition) = Vec3 (-10) 2.5 0
    /\ (CameraRig.new env orbit).(instance)
       = orbit (mkPerspectiveCamera (Vec3 44 21 (-70)) 35
                  (Rotation (Quat (-0.035) 0.951 0.117 0.284)))
    /\ (c.(camVars).(isFreeRoam) = true ->
        exists c1 : Camera,
          CameraRig.update env orbit (c, target) = Some (tt, (c1, target), [])
          /\ c1.(camVars) = c.(camVars))
    /\ (c.(camVars).(isFreeRoam) = false ->
        let c2 := FreeRoamMode.toggle env2 orbit (FreeRoamMode.toggle env1 orbit c) in
        (FreeRoamMode.toggle env1 orbit c).(camVars).(isFreeRoam) = true
        /\ c2.(camVars).(isFreeRoam) = false
        /\ c2.(camVars).(mode) = c.(camVars).(mode)
        /\ c2.(camVars).(currentPosition) = c.(instance).(position)
        /\ c2.(camVars).(currentFov) = c.(camVars).(currentFov)
        /\ c2.(camVars).(currentAngle) = c.(camVars).(currentAngle)
        /\ c2.(instance) = orbit (mkPerspectiveCamera (Vec3 44 21 (-70))
                                    c.(instance).(fov)
                                    (Rotation (Quat (-0.035) 0.951 0.117 0.284)))
        /\ exists oc : OrbitControls,
             c2.(freeRoamControls) = Some oc /\ oc.(enabled) = false).
Proof.
  intros env env1 env2 orbit c target Hd.
  split; [reflexivity|]. split; [reflexivity|]. split; [reflexivity|].
  split.
  - intros Hf. unfold CameraRig.update, bind, get. cbn [fst snd].
    rewrite Hd, Hf. unfold CameraRig.onCamera, modify, FreeRoamMode.update.
    cbn [fst snd].
    destruct (freeRoamControls c) as [oc|]; [destruct (enabled oc)|];
      eexists; split; reflexivity.
  - intros Hf. cbv zeta.
    destruct c as [v i frc ctl]. cbn [camVars instance] in *.
    unfold FreeRoamMode.toggle. cbv zeta. camproj. rewrite Hf. cbn [negb].
    unfold FreeRoamMode.enter. cbv zeta.
    unfold FreeRoamMode.controlsUpdate.
    destruct frc as [oc|]; camproj; rewrite ?Hf; cbn [negb];
      unfold FreeRoamMode.exit; cbv zeta; camproj; rewrite ?Hf; cbn [negb];
      (repeat split; try reflexivity);
      (eexists; split; reflexivity).
Qed.

Lemma X23_witness :
  (FreeRoamMode.toggle tick16 (fun i => i)
     (FreeRoamMode.toggle tick16 (fun i => i) followingCamera)).(camVars).(mode)
  = followingCamera.(camVars).(mode).
Proof.
  destruct (X23_free_roam tick16 tick16 tick16 (fun i => i) followingCamera None eq_refl)
    as (_ & _ & _ & _ & H).
  exact (proj1 (proj2 (proj2 (H eq_refl)))).
Defined.

Lemma lerp_error (a goal : Vector3) (alpha : R) :
  add (lerp a goal alpha) (multiplyScalar goal (-1))
  = multiplyScalar (add a (multiplyScalar goal (-1))) (1 - alpha).
Proof.
  unfold lerp, add, multiplyScalar. cbn. f_equal; ring.
Qed.

Lemma oceanCameraRun_S (n : nat) (t : Target) (c : Camera) :
  oceanCameraRun (Datatypes.S n) t c
  = OceanCameraMode.update (Some t) (oceanCameraRun n t c).
Proof. reflexivity. Qed.

(** X24.  The ocean camera settles.  Following a ball that does not move,
    each update of the ocean camera shrinks the offset between the camera's
    follow position and its goal (the ball's position moved by the fixed
    ocean offset) by the factor 1 - oceanLerpSpeed, and the difference
    between the field of view and [oceanFov] by the factor 1 - fovLerpSpeed:
    after n updates they are the initial ones times the n-th powers. *)
Theorem X24_ocean_camera_settles :
  forall (n : nat) (t : Target) (c : Camera),
    let v := c.(camVars) in
    let goal := Vec3 (t.(group).(_x) - v.(oceanCameraDistance))
                     (t.(group).(_y) + v.(oceanCameraHeight))
                     (t.(group).(_z) + v.(oceanCameraDistance)) in
    let vn := (oceanCameraRun n t c).(camVars) in
    add vn.(currentPosition) (multiplyScalar goal (-1))
    = multiplyScalar (add v.(currentPosition) (multiplyScalar goal (-1)))
                     ((1 - v.(oceanLerpSpeed)) ^ n)
    /\ vn.(currentFov) - v.(oceanFov)
       = (v.(currentFov) - v.(oceanFov)) * (1 - v.(fovLerpSpeed)) ^ n
    /\ ((0 < n)%nat ->
        (oceanCameraRun n t c).(instance).(position) = vn.(currentPosition)
        /\ (oceanCameraRun n t c).(instance).(fov) = vn.(currentFov)).
Proof.
  intros n t c. cbv zeta.
  set (v := camVars c).
  set (goal := Vec3 (_x (group t) - oceanCameraDistance v)
                    (_y (group t) + oceanCameraHeight v)
                    (_z (group t) + oceanCameraDistance v)).
  assert (H : let vn := camVars (oceanCameraRun n t c) in
              add (currentPosition vn) (multiplyScalar goal (-1))
              = multiplyScalar (add (currentPosition v) (multiplyScalar goal (-1)))
                               ((1 - oceanLerpSpeed v) ^ n)
              /\ currentFov vn - oceanFov v
                 = (currentFov v - oceanFov v) * (1 - fovLerpSpeed v) ^ n
              /\ oceanCameraDistance vn = oceanCameraDistance v
              /\ oceanCameraHeight vn = oceanCameraHeight v
              /\ oceanLerpSpeed vn = oceanLerpSpeed v
              /\ oceanFov vn = oceanFov v
              /\ fovLerpSpeed vn = fovLerpSpeed v).
  { induction n as [|n IH]; cbv zeta.
    - change (oceanCameraRun 0 t c) with c. fold v.
      split.
      { unfold add, multiplyScalar. cbn. f_equal; ring. }
      split; [ring|]. repeat split; reflexivity.
    - cbv zeta in IH. destruct IH as (I1 & I2 & I3 & I4 & I5 & I6 & I7).
      rewrite oceanCameraRun_S.
      set (cn := oceanCameraRun n t c) in *.
      unfold OceanCameraMode.update. cbv zeta. camproj.
      rewrite I3, I4, I5, I6, I7. fold goal.
      split.
      { rewrite lerp_error, I1.
        unfold multiplyScalar. cbn. f_equal; ring. }
      split.
      { replace (currentFov (camVars cn)
                 + (oceanFov v - currentFov (camVars cn)) * fovLerpSpeed v - oceanFov v)
          with ((currentFov (camVars cn) - oceanFov v) * (1 - fovLerpSpeed v)) by ring.
        rewrite I2. cbn [pow]. ring. }
      repeat split; reflexivity. }
  cbv zeta in H. destruct H as (H1 & H2 & _).
  split; [exact H1|]. split; [exact H2|].
  intros Hn. destruct n as [|n]; [lia|].
  rewrite oceanCameraRun_S.
  unfold OceanCameraMode.update. cbv zeta. camproj. split; reflexivity.
Qed.

(* ---------------------------------------------------------------------- *)
(** ** The velocity trail and the underwater effect *)
(* ---------------------------------------------------------------------- *)

Lemma limitTrail_skipn (m : nat) (trail : list TrailPoint) :
  PlayerVisuals.limitTrail m trail = skipn (List.length trail - m) trail.
Proof.
  induction trail as [|a rest IH]; [reflexivity|].
  cbn [PlayerVisuals.limitTrail].
  destruct (Nat.ltb_spec m (List.length (a :: rest))) as [Hlt|Hge].
  - cbn [List.length] in *. rewrite IH.
    replace (Datatypes.S (List.length rest) - m)%nat
      with (Datatypes.S (List.length rest - m)) by lia.
    reflexivity.
  - replace (List.length (a :: rest) - m)%nat with 0%nat by lia. reflexivity.
Qed.

Lemma length_sq (a : Vector3) : length a * length a = lengthSq a.
Proof.
  unfold length. apply sqrt_sqrt. unfold lengthSq, dot. nra.
Qed.

Lemma clampLength_0_2 (a : Vector3) :
  lengthSq (clampLength a 0 2) <= 4
  /\ (lengthSq a <= 4 -> clampLength a 0 2 = a).
Proof.
  pose proof (length_nonneg a) as Hl. pose proof (length_sq a) as Hsq.
  unfold clampLength. cbv zeta. set (l := length a) in *.
  set (k := JsMath.max 0 (JsMath.min 2 l)).
  assert (Hk : 0 <= k <= 2 /\ k <= l /\ (l <= 2 -> k = l)).
  { unfold k, JsMath.max, JsMath.min, Rmax, Rmin.
    destruct (Rle_dec 2 l); destruct (Rle_dec 0 _); repeat split; intros; lra. }
  destruct Hk as (Hk1 & Hk2 & Hk3).
  unfold JsMath.orElse. destruct (Req_dec_T l 0) as [Hz|Hnz].
  - assert (Ha : lengthSq a = 0) by (rewrite <- Hsq, Hz; ring).
    assert (Hx : _x a = 0 /\ _y a = 0 /\ _z a = 0).
    { unfold lengthSq, dot in Ha. repeat split; nra. }
    destruct Hx as (Hx & Hy & Hz').
    split.
    + unfold lengthSq, dot, multiplyScalar. cbn. rewrite Hx, Hy, Hz'. lra.
    + intros _. destruct a as [x y z]. cbn in Hx, Hy, Hz'. subst.
      unfold multiplyScalar. cbn. f_equal; ring.
  - assert (Hpos : 0 < l) by lra.
    split.
    + unfold lengthSq, dot, multiplyScalar in *. cbn.
      replace (_x a * (1 / l) * k * (_x a * (1 / l) * k)
               + _y a * (1 / l) * k * (_y a * (1 / l) * k)
               + _z a * (1 / l) * k * (_z a * (1 / l) * k))
        with ((_x a * _x a + _y a * _y a + _z a * _z a) * (/ l * / l) * (k * k))
        by (unfold Rdiv; ring).
      rewrite <- Hsq.
      replace (l * l * (/ l * / l) * (k * k)) with (k * k) by (field; lra).
      nra.
    + intros H4. assert (Hl2 : l <= 2) by nra.
      rewrite (Hk3 Hl2). destruct a as [x y z]. unfold multiplyScalar. cbn.
      f_equal; field; lra.
Qed.

(** X25.  The velocity trail is bounded.  Each update of the velocity graph
    with a speed above 0.01 appends one point stamped with the current time
    and then drops the oldest points until at most [maxTrailLength] remain:
    the trail is the newest part of the old trail followed by the new
    point, its length the smaller of the old length plus one and the limit.
    The new point is the velocity scaled by 0.1, shortened to length 2 when
    it is longer.  At a speed of 0.01 or less nothing changes. *)
Theorem X25_velocity_trail_bounded :
  forall (env : Env) (velocity : Vector3) (velocityMagnitude : R) (s : PlayerVisuals),
    s.(graphVelocityArrow) <> None ->
    let s' := PlayerVisuals.updateVelocityGraph env velocity velocityMagnitude s in
    let old := s.(velocityTrail) in
    (velocityMagnitude <= 0.01 -> s' = s)
    /\ (0.01 < velocityMagnitude ->
        exists point : TrailPoint,
          s'.(velocityTrail)
          = skipn (List.length old + 1 - s.(maxTrailLength)) (old ++ [point])
          /\ List.length s'.(velocityTrail)
             = Nat.min (List.length old + 1) s.(maxTrailLength)
          /\ point.(trailTime) = env.(now)
          /\ point.(trailMesh) = None
          /\ lengthSq point.(trailPosition) <= 4
          /\ (lengthSq velocity <= 400 ->
              point.(trailPosition) = multiplyScalar velocity 0.1)
          /\ s'.(maxTrailLength) = s.(maxTrailLength)).
Proof.
  intros env velocity mag s Ha. cbv zeta.
  unfold PlayerVisuals.updateVelocityGraph.
  destruct (graphVelocityArrow s) as [arrow|]; [|congruence].
  split.
  - intros Hm. rewrite (proj2 (leb_true_iff mag 0.01)) by exact Hm. reflexivity.
  - intros Hm. rewrite (proj2 (leb_false_iff mag 0.01)) by exact Hm. cbv zeta.
    rewrite vec3_eta.
    cbn [velocityTrail maxTrailLength set_velocityTrail set_graphVelocityArrow].
    set (point := mkTrailPoint (clampLength (multiplyScalar velocity 0.1) 0 2)
                    (now env) None).
    exists point. rewrite limitTrail_skipn, length_app. cbn [List.length].
    split; [reflexivity|]. split.
    { rewrite length_skipn, length_app. cbn [List.length]. lia. }
    split; [reflexivity|]. split; [reflexivity|].
    destruct (clampLength_0_2 (multiplyScalar velocity 0.1)) as [C1 C2].
    split; [exact C1|]. split; [|reflexivity].
    intros Hv. apply C2. unfold lengthSq, dot, multiplyScalar in *. cbn. nra.
Qed.

Lemma X25_witness :
  List.length
    (PlayerVisuals.updateVelocityGraph tick16 (Vec3 3 4 0) 5 PlayerVisuals.new)
      .(velocityTrail) = 1%nat.
Proof.
  assert (Ha : PlayerVisuals.new.(graphVelocityArrow) <> None) by discriminate.
  pose proof (X25_velocity_trail_bounded tick16 (Vec3 3 4 0) 5 PlayerVisuals.new Ha)
    as H.
  cbv zeta in H. destruct H as [_ H].
  destruct H as (point & _ & Hlen & _); [lra|]. exact Hlen.
Defined.

Lemma processTrail_opacity (currentTime fadeTime : R) (trail : list TrailPoint) :
  0 < fadeTime ->
  Forall (fun p : TrailPoint =>
            currentTime - p.(trailTime) < fadeTime
            /\ exists o : R,
                 p.(trailMesh) = Some o /\ 0 < o
                 /\ (p.(trailTime) <= currentTime -> o <= 0.6))
         (PlayerVisuals.processTrail currentTime fadeTime trail).
Proof.
  intros Hf. induction trail as [|p rest IH]; [constructor|].
  cbn [PlayerVisuals.processTrail]. cbv zeta.
  destruct (JsMath.leb fadeTime (currentTime - trailTime p)) eqn:E; [exact IH|].
  apply leb_false_iff in E. constructor; [|exact IH].
  cbn [trailTime trailMesh]. split; [exact E|].
  eexists. split; [reflexivity|].
  set (age := currentTime - trailTime p) in *.
  assert (Hq : age / fadeTime < 1).
  { apply (Rmult_lt_reg_r fadeTime); [exact Hf|].
    unfold Rdiv. rewrite Rmult_assoc, Rinv_l by lra. lra. }
  unfold JsMath.max, Rmax. destruct (Rle_dec 0 (1 - age / fadeTime)); [|lra].
  split; [lra|]. intros Ht.
  assert (0 <= age / fadeTime).
  { apply Rmult_le_pos; [unfold age; lra|]. apply Rlt_le, Rinv_0_lt_compat, Hf. }
  lra.
Qed.

Lemma processTrail_kept (currentTime fadeTime : R) (trail : list TrailPoint) :
  map (fun p => (p.(trailPosition), p.(trailTime)))
      (PlayerVisuals.processTrail currentTime fadeTime trail)
  = map (fun p => (p.(trailPosition), p.(trailTime)))
        (filter (fun p => negb (JsMath.leb fadeTime (currentTime - p.(trailTime))))
                trail).
Proof.
  induction trail as [|p rest IH]; [reflexivity|].
  cbn [PlayerVisuals.processTrail filter]. cbv zeta.
  destruct (JsMath.leb fadeTime (currentTime - trailTime p)); cbn [negb map].
  - exact IH.
  - cbn [trailPosition trailTime]. f_equal. exact IH.
Qed.

Lemma processTrail_idempotent (currentTime fadeTime : R) (trail : list TrailPoint) :
  PlayerVisuals.processTrail currentTime fadeTime
    (PlayerVisuals.processTrail currentTime fadeTime trail)
  = PlayerVisuals.processTrail currentTime fadeTime trail.
Proof.
  induction trail as [|p rest IH]; [reflexivity|].
  cbn [PlayerVisuals.processTrail]. cbv zeta.
  destruct (JsMath.leb fadeTime (currentTime - trailTime p)) eqn:E; [exact IH|].
  cbn [PlayerVisuals.processTrail trailTime trailPosition]. cbv zeta.
  rewrite E, IH. reflexivity.
Qed.

(** X26.  Drawing the graph prunes the trail.  [renderGraph] keeps exactly
    the points younger than the fade time, in their order, positions and
    time stamps untouched, and gives each of them a sphere whose opacity is
    positive and, for a point not stamped in the future, at most 0.6;
    drawing again at the same time changes nothing. *)
Theorem X26_render_graph_prunes :
  forall (env : Env) (s : PlayerVisuals),
    s.(graphReady) = true ->
    0 < s.(trailFadeTime) ->
    let s' := PlayerVisuals.renderGraph env s in
    map (fun p => (p.(trailPosition), p.(trailTime))) s'.(velocityTrail)
    = map (fun p => (p.(trailPosition), p.(trailTime)))
          (filter (fun p => negb (JsMath.leb s.(trailFadeTime)
                                             (env.(now) - p.(trailTime))))
                  s.(velocityTrail))
    /\ Forall (fun p : TrailPoint =>
                 env.(now) - p.(trailTime) < s.(trailFadeTime)
                 /\ exists o : R,
                      p.(trailMesh) = Some o /\ 0 < o
                      /\ (p.(trailTime) <= env.(now) -> o <= 0.6))
              s'.(velocityTrail)
    /\ (List.length s'.(velocityTrail) <= List.length s.(velocityTrail))%nat
    /\ PlayerVisuals.renderGraph env s' = s'.
Proof.
  intros env s Hg Hf. cbv zeta.
  unfold PlayerVisuals.renderGraph. rewrite Hg. cbn [negb].
  cbn [velocityTrail set_velocityTrail graphReady trailFadeTime]. rewrite Hg.
  cbn [negb].
  split; [apply processTrail_kept|].
  split; [apply processTrail_opacity; exact Hf|].
  split.
  { pose proof (f_equal (@List.length _) (processTrail_kept (now env) (trailFadeTime s)
                                           (velocityTrail s))) as Hl.
    rewrite !length_map in Hl. rewrite Hl. apply filter_length_le. }
  unfold set_velocityTrail. cbn [velocityTrail maxTrailLength trailFadeTime
    graphVelocityArrow graphReady].
  rewrite processTrail_idempotent. reflexivity.
Qed.

Lemma X26_witness :
  let env := mkEnv 16 6000 (Vec3 0 0 (-1)) [] in
  let s := set_velocityTrail [mkTrailPoint (Vec3 0.3 0.4 0) 500 None;
                              mkTrailPoint (Vec3 0.3 0.4 0) 2000 None]
                             PlayerVisuals.new in
  (List.length (PlayerVisuals.renderGraph env s).(velocityTrail) <= 2)%nat
  /\ PlayerVisuals.renderGraph env (PlayerVisuals.renderGraph env s)
     = PlayerVisuals.renderGraph env s.
Proof.
  intros env s.
  assert (Hf : 0 < s.(trailFadeTime)) by (cbn; lra).
  pose proof (X26_render_graph_prunes env s eq_refl Hf) as H.
  cbv zeta in H. destruct H as (_ & _ & Hl & Hi). split; [exact Hl|exact Hi].
Defined.

(** X27.  The underwater effect.  After every update of the renderer the
    underwater flag tells whether the camera is strictly below sea level.
    Diving replaces the scene's fog and background by the underwater ones,
    sets the underwater clear colour and shows the overlay; surfacing puts
    back exactly the fog and background the scene had before the dive, the
    normal clear colour and hides the overlay.  An update on the side of the
    surface the camera is already on changes neither renderer nor scene. *)
Theorem X27_underwater_effect :
  forall (env env' : Env) (below above : R) (r : Renderer) (scene : Scene)
         (visuals : option PlayerVisuals),
    r.(isUnderwater) = false ->
    below < r.(rendererSeaLevel) ->
    r.(rendererSeaLevel) <= above ->
    let dived := Renderer.update env below (r, scene, visuals) in
    let r1 := fst (fst dived) in
    let scene1 := snd (fst dived) in
    let surfaced := Renderer.update env' above dived in
    let r2 := fst (fst surfaced) in
    let scene2 := snd (fst surfaced) in
    r1.(isUnderwater) = true
    /\ scene1 = mkScene (Some (mkFog r.(underwaterFogColor) r.(underwaterFogNear)
                                     r.(underwaterFogFar)))
                        (Some (BackgroundColor r.(underwaterFogColor)))
    /\ r1.(clearColor) = r.(underwaterColor)
    /\ (r.(underwaterOverlay) <> None -> r1.(underwaterOverlay) = Some 0.3)
    /\ fst (Renderer.update env' below dived) = fst dived
    /\ r2.(isUnderwater) = false
    /\ scene2 = scene
    /\ r2.(clearColor) = r.(normalClearColor)
    /\ (r.(underwaterOverlay) <> None -> r2.(underwaterOverlay) = Some 0)
    /\ fst (Renderer.update env above (r, scene, visuals)) = (r, scene).
Proof.
  intros env env' below above r scene visuals Hu Hb Ha. cbv zeta.
  unfold Renderer.update.
  rewrite (proj2 (ltb_true_iff below (rendererSeaLevel r))) by exact Hb.
  rewrite (proj2 (ltb_false_iff above (rendererSeaLevel r))) by exact Ha.
  rewrite Hu. cbn [andb negb fst snd isUnderwater rendererSeaLevel clearColor
                   underwaterOverlay normalClearColor originalFog
                   originalBackground].
  rewrite (proj2 (ltb_true_iff below (rendererSeaLevel r))) by exact Hb.
  rewrite (proj2 (ltb_false_iff above (rendererSeaLevel r))) by exact Ha.
  cbn [andb negb fst snd isUnderwater rendererSeaLevel clearColor
       underwaterOverlay normalClearColor originalFog originalBackground].
  split; [reflexivity|]. split; [reflexivity|]. split; [reflexivity|].
  split; [destruct (underwaterOverlay r); [reflexivity|congruence]|].
  split; [reflexivity|]. split; [reflexivity|].
  split; [destruct scene; reflexivity|]. split; [reflexivity|].
  split; [destruct (underwaterOverlay r); [reflexivity|congruence]|].
  reflexivity.
Qed.

Lemma X27_witness :
  let scene := mkScene (Some (mkFog Renderer.new.(normalClearColor) 0 4000)) None in
  snd (fst (Renderer.update tick16 0
              (Renderer.update tick16 (-240) (Renderer.new, scene, None))))
  = scene.
Proof.
  intros scene.
  assert (H1 : -240 < Renderer.new.(rendererSeaLevel)) by (cbn; lra).
  assert (H2 : Renderer.new.(rendererSeaLevel) <= 0) by (cbn; lra).
  pose proof (X27_underwater_effect tick16 tick16 (-240) 0 Renderer.new scene None
                eq_refl H1 H2) as H.
  cbv zeta in H. destruct H as (_ & _ & _ & _ & _ & _ & Hs & _). exact Hs.
Defined.
